(** * Agentic orchestration engine of virtual-ppo-ppm: model and properties

    A shallow embedding of the Python agent service (autonomy gate, router,
    knowledge retrieval, chunker, tool-call parser, agentic loop, chat
    endpoint) together with the properties stated about it.

    Conventions.
    - A Python [str] is a Rocq [string]; one Rocq character stands for one
      code point below 256, so [String.length] is Python's [len] and
      [lower] is [str.lower] on that range.
    - Python [int] is [Z].  Relevance scores are Python floats obtained as
      quotients of small integers; they are kept as exact rationals [Q].
    - Code that can raise returns an [outcome]; code that talks to the
      outside world (model provider, tool backend, uuid generator) runs in
      the monad [M], which reads scripted replies and counts the calls.
    - [json.loads] is a library function: it is a parameter of the
      development (class [JSON]); a reference decoder for a fragment of
      JSON is provided to run the examples. *)

From Stdlib Require Import ZArith QArith List String Ascii Bool Arith Lia.
Import ListNotations.

#[local] Set Warnings "-register-all".
Close Scope Q_scope.
Local Open Scope nat_scope.
Local Open Scope string_scope.
Local Open Scope list_scope.

(* ===================================================================== *)
(** * Python strings                                                      *)
(* ===================================================================== *)

Module PyStr.

(** The two characters that cannot be written inside a literal here. *)
Definition dq : string := String (ascii_of_nat 34) EmptyString.
Definition nl : string := String (ascii_of_nat 10) EmptyString.
Definition backtick : ascii := ascii_of_nat 96.
Definition fence : string :=
  String backtick (String backtick (String backtick EmptyString)).

(** [needle in hay] *)
Fixpoint contains (needle hay : string) : bool :=
  if String.prefix needle hay then true
  else match hay with
       | EmptyString => false
       | String _ hay' => contains needle hay'
       end.

(** [str.isspace] on one character (code points below 256). *)
Definition is_space (c : ascii) : bool :=
  let n := nat_of_ascii c in
  (((9 <=? n) && (n <=? 13)) || ((28 <=? n) && (n <=? 32))
   || (n =? 133) || (n =? 160))%nat.

(** [str.lower] on one character: A-Z, and the Latin-1 capitals
    U+00C0..U+00DE except the multiplication sign U+00D7. *)
Definition lower_char (c : ascii) : ascii :=
  let n := nat_of_ascii c in
  if (((65 <=? n) && (n <=? 90))
      || ((192 <=? n) && (n <=? 222) && negb (n =? 215)))%nat
  then ascii_of_nat (n + 32) else c.

Fixpoint lower (s : string) : string :=
  match s with
  | EmptyString => EmptyString
  | String c s' => String (lower_char c) (lower s')
  end.

Fixpoint lstrip (s : string) : string :=
  match s with
  | EmptyString => EmptyString
  | String c s' => if is_space c then lstrip s' else s
  end.

Fixpoint rstrip (s : string) : string :=
  match s with
  | EmptyString => EmptyString
  | String c s' =>
      match rstrip s' with
      | EmptyString => if is_space c then EmptyString else String c EmptyString
      | r => String c r
      end
  end.

(** [s.strip()] *)
Definition strip (s : string) : string := rstrip (lstrip s).

(** [s.rstrip(ch)] for a one-character argument. *)
Fixpoint rstrip_char (ch : ascii) (s : string) : string :=
  match s with
  | EmptyString => EmptyString
  | String c s' =>
      match rstrip_char ch s' with
      | EmptyString => if Ascii.eqb c ch then EmptyString else String c EmptyString
      | r => String c r
      end
  end.

(** [s.split()] : maximal runs of non-blank characters. *)
Fixpoint split_aux (cur s : string) : list string :=
  match s with
  | EmptyString => match cur with EmptyString => [] | _ => [cur] end
  | String c s' =>
      if is_space c
      then match cur with
           | EmptyString => split_aux EmptyString s'
           | _ => cur :: split_aux EmptyString s'
           end
      else split_aux (cur ++ String c EmptyString) s'
  end.

Definition split (s : string) : list string := split_aux EmptyString s.

(** [s.split(sep)] for a one-character separator: empty fields are kept. *)
Fixpoint split_on_aux (sep : ascii) (cur s : string) : list string :=
  match s with
  | EmptyString => [cur]
  | String c s' =>
      if Ascii.eqb c sep
      then cur :: split_on_aux sep EmptyString s'
      else split_on_aux sep (cur ++ String c EmptyString) s'
  end.

Definition split_on (sep : ascii) (s : string) : list string :=
  split_on_aux sep EmptyString s.

(** [sep.join(parts)] *)
Fixpoint join (sep : string) (parts : list string) : string :=
  match parts with
  | [] => EmptyString
  | [p] => p
  | p :: rest => p ++ sep ++ join sep rest
  end.

(** [s[:n]] for [n >= 0] *)
Definition take (n : nat) (s : string) : string := String.substring 0 n s.

(** Truthiness of a string: [if s:] *)
Definition truthy (s : string) : bool :=
  match s with EmptyString => false | _ => true end.

(** Leftmost occurrence of [pat] in [s]: the text before it and the text
    after it. *)
Fixpoint find (pat s : string) : option (string * string) :=
  if String.prefix pat s
  then Some (EmptyString, String.substring (String.length pat)
                            (String.length s - String.length pat) s)
  else match s with
       | EmptyString => None
       | String c s' =>
           match find pat s' with
           | Some (before, after) => Some (String c before, after)
           | None => None
           end
       end.

(** Case-insensitive prefix test, as [re.IGNORECASE] does for a pattern of
    ASCII literals. *)
Fixpoint prefix_ci (pat s : string) : option string :=
  match pat with
  | EmptyString => Some s
  | String p pat' =>
      match s with
      | EmptyString => None
      | String c s' =>
          if Ascii.eqb (lower_char c) (lower_char p)
          then prefix_ci pat' s' else None
      end
  end.

End PyStr.

(* ===================================================================== *)
(** * Python values, exceptions                                            *)
(* ===================================================================== *)

(** What [json.loads] can return. A float keeps the text of its literal. *)
Inductive pyval : Type :=
| PNone
| PBool (b : bool)
| PInt (z : Z)
| PFloat (literal : string)
| PStr (s : string)
| PList (items : list pyval)
| PDict (items : list (string * pyval)).

(** The exception classes that matter to the [except] clauses. *)
Inductive exn : Type :=
| ValueError
| JSONDecodeError      (* subclass of ValueError *)
| ValidationError      (* pydantic; subclass of ValueError *)
| KeyError
| TypeError
| AttributeError
| RecursionError
| HTTPError            (* httpx.HTTPError and its subclasses *)
| OtherError.

Definition is_ValueError (e : exn) : bool :=
  match e with
  | ValueError | JSONDecodeError | ValidationError => true
  | _ => false
  end.

Definition is_KeyError (e : exn) : bool :=
  match e with KeyError => true | _ => false end.

Definition is_JSONDecodeError (e : exn) : bool :=
  match e with JSONDecodeError => true | _ => false end.

Inductive outcome (A : Type) : Type :=
| Returned (a : A)
| Raised (e : exn).
Arguments Returned {A} a.
Arguments Raised {A} e.

(** [json.loads] *)
Class JSON := { json_loads : string -> outcome pyval }.

Fixpoint dict_get {V : Type} (k : string) (d : list (string * V)) : option V :=
  match d with
  | [] => None
  | (k', v) :: d' => if String.eqb k k' then Some v else dict_get k d'
  end.

Definition in_strings (s : string) (l : list string) : bool :=
  existsb (String.eqb s) l.

(** [key in v] for a string [key] and a decoded JSON value [v]: key lookup
    in a dict, substring test in a str, element test in a list, and
    [TypeError] for the values that are not containers. *)
Definition py_contains (key : string) (v : pyval) : outcome bool :=
  match v with
  | PDict items =>
      Returned (match dict_get key items with Some _ => true | None => false end)
  | PStr s => Returned (PyStr.contains key s)
  | PList items =>
      Returned (existsb (fun x => match x with
                                  | PStr s => String.eqb key s
                                  | _ => false
                                  end) items)
  | PNone | PBool _ | PInt _ | PFloat _ => Raised TypeError
  end.

(** [v[key]] for a string [key]. *)
Definition py_getitem (v : pyval) (key : string) : outcome pyval :=
  match v with
  | PDict items =>
      match dict_get key items with
      | Some x => Returned x
      | None => Raised KeyError
      end
  | _ => Raised TypeError
  end.

(* ===================================================================== *)
(** * agents/types.py                                                      *)
(* ===================================================================== *)

Inductive AgentId : Type :=
| STRATEGY | DISCOVERY | RISK | COMMUNICATIONS | ADVISOR | THINKER.

Definition AgentId_value (a : AgentId) : string :=
  match a with
  | STRATEGY => "strategy"
  | DISCOVERY => "discovery"
  | RISK => "risk"
  | COMMUNICATIONS => "communications"
  | ADVISOR => "advisor"
  | THINKER => "thinker"
  end.

Definition AgentId_members : list AgentId :=
  [STRATEGY; DISCOVERY; RISK; COMMUNICATIONS; ADVISOR; THINKER].

(** [AgentId(s)] : lookup by value, [ValueError] when there is none. *)
Definition AgentId_of_value (s : string) : outcome AgentId :=
  match find (fun a => String.eqb (AgentId_value a) s) AgentId_members with
  | Some a => Returned a
  | None => Raised ValueError
  end.

Definition AgentId_eqb (a b : AgentId) : bool :=
  String.eqb (AgentId_value a) (AgentId_value b).

Inductive AutonomyLevel : Type := FULL | OVERSIGHT | ADVISORY | MANUAL.

Definition AutonomyLevel_value (l : AutonomyLevel) : string :=
  match l with
  | FULL => "full"
  | OVERSIGHT => "oversight"
  | ADVISORY => "advisory"
  | MANUAL => "manual"
  end.

Inductive AutonomyGateResult : Type := EXECUTE | GATE | BLOCK.

Definition AutonomyGateResult_value (g : AutonomyGateResult) : string :=
  match g with
  | EXECUTE => "execute"
  | GATE => "gate"
  | BLOCK => "block"
  end.

Record LLMConfig : Type := mkLLMConfig {
  provider : string;
  api_key : string;
  api_endpoint : option string;
  model : option string
}.

Record ChatMessage : Type := mkChatMessage {
  role : string;
  content : string
}.

(** The [timestamp] fields (wall clock) are left out. *)
Record ToolExecution : Type := mkToolExecution {
  te_tool_name : string;
  te_arguments : list (string * pyval);
  te_result : option string;
  te_status : string
}.

Record PendingAction : Type := mkPendingAction {
  pa_id : string;
  pa_agent_id : AgentId;
  pa_tool_name : string;
  pa_tool_arguments : list (string * pyval);
  pa_description : string;
  pa_status : string
}.

Record RAGDocument : Type := mkRAGDocument {
  source_type : string;
  source_id : string;
  source_name : string;
  doc_content : string;
  relevance : Q
}.

Record AgentResponse : Type := mkAgentResponse {
  agent_id : AgentId;
  agent_name : string;
  resp_content : string;
  tools_executed : list ToolExecution;
  pending_actions : list PendingAction;
  handoff_to : option AgentId;
  rag_context : list RAGDocument;
  iterations : Z
}.

(* ===================================================================== *)
(** * tools/mcp_client.py : static tables                                  *)
(* ===================================================================== *)

Definition READ_ONLY_TOOLS : list string :=
  ["jira_search_issues"; "jira_get_issue"; "confluence_search"].

(* ===================================================================== *)
(** * agents/autonomy.py                                                   *)
(* ===================================================================== *)

Definition TOOL_AUTONOMY_OVERRIDES : list (string * string) :=
  [("email_send", "auto_send_emails");
   ("jira_create_issue", "auto_create_jira_stories")].

Definition check_autonomy_gate
    (tool_name : string) (autonomy_level : AutonomyLevel)
    (auto_send_emails auto_create_jira_stories : bool) : AutonomyGateResult :=
  match autonomy_level with
  | MANUAL => BLOCK
  | ADVISORY => BLOCK
  | _ =>
      if in_strings tool_name READ_ONLY_TOOLS then EXECUTE
      else
        match autonomy_level with
        | FULL => EXECUTE
        | OVERSIGHT =>
            let prefs := [("auto_send_emails", auto_send_emails);
                          ("auto_create_jira_stories", auto_create_jira_stories)] in
            match dict_get tool_name TOOL_AUTONOMY_OVERRIDES with
            | Some override_key =>
                if PyStr.truthy override_key
                then match dict_get override_key prefs with
                     | Some true => EXECUTE
                     | _ => GATE
                     end
                else GATE
            | None => GATE
            end
        | _ => BLOCK
        end
  end.

(* ===================================================================== *)
(** * The outside world                                                    *)
(* ===================================================================== *)

(** One exchange with the model provider: the HTTP request fails or the
    payload cannot be read (an exception), or a content text is extracted
    from the payload (possibly empty). *)
Inductive ProviderReply : Type :=
| ProviderFails (e : exn)
| ProviderContent (text : string).

(** One call of the tool invoker [execute_tool]. *)
Inductive ToolReply : Type :=
| ToolReturns (content : string) (is_error : bool)
| ToolRaises (e : exn).

(** The collaborators of one request. The n-th model call, tool call and
    uuid draw get the n-th scripted reply. *)
Record Env : Type := mkEnv {
  llm_script : nat -> ProviderReply;
  tool_script : nat -> pyval -> pyval -> ToolReply;
  uuid_script : nat -> string;
  (** [describe_tool_action] of tools/mcp_client.py *)
  describe_tool_action : pyval -> pyval -> outcome string;
  (** [search_confluence] of knowledge/rag.py *)
  search_confluence : list string -> outcome (list RAGDocument);
  (** [build_system_prompt] of agents/prompts.py *)
  build_system_prompt : AgentId -> list RAGDocument -> string
}.

(** The local variables of one activation of [run_agent_loop]. *)
Module Locals.
Record t : Type := mk {
  messages : list ChatMessage;
  tools_executed : list ToolExecution;
  pending_actions : list PendingAction;
  final_content : string;
  iterations : Z
}.
Definition empty : t := mk [] [] [] "" 0%Z.
End Locals.

(** Call counters, the log of the loop activations (ghost state, in call
    order), and the locals of the current activation. *)
Record State : Type := mkState {
  llm_calls : nat;
  tool_calls : nat;
  uuid_calls : nat;
  loop_runs : list AgentId;
  frame : Locals.t
}.

Definition initial_state : State := mkState 0 0 0 [] Locals.empty.

Definition M (A : Type) : Type := Env -> State -> outcome A * State.

Definition ret {A : Type} (a : A) : M A := fun _ st => (Returned a, st).

Definition raise {A : Type} (e : exn) : M A := fun _ st => (Raised e, st).

Definition bind {A B : Type} (m : M A) (k : A -> M B) : M B :=
  fun env st =>
    match m env st with
    | (Returned a, st') => k a env st'
    | (Raised e, st') => (Raised e, st')
    end.

Definition lift {A : Type} (o : outcome A) : M A := fun _ st => (o, st).

Definition ask : M Env := fun env st => (Returned env, st).

Definition get_frame : M Locals.t := fun _ st => (Returned (frame st), st).

Definition set_frame (f : Locals.t) : M unit :=
  fun _ st =>
    (Returned tt,
     mkState (llm_calls st) (tool_calls st) (uuid_calls st) (loop_runs st) f).

(** [try: body  except <classes>: handler] *)
Definition try_except {A : Type}
    (body : M A) (catches : exn -> bool) (handler : M A) : M A :=
  fun env st =>
    match body env st with
    | (Raised e, st') => if catches e then handler env st' else (Raised e, st')
    | r => r
    end.

Declare Scope monad_scope.
Delimit Scope monad_scope with monad.
Notation "x <- c1 ;; c2" := (bind c1 (fun x => c2))
  (at level 61, c1 at next level, right associativity) : monad_scope.
Notation "c1 ;;; c2" := (bind c1 (fun _ => c2))
  (at level 61, right associativity) : monad_scope.
Local Open Scope monad_scope.

(** The same for code that raises but has no effect. *)
Definition obind {A B : Type} (o : outcome A) (k : A -> outcome B) : outcome B :=
  match o with
  | Returned a => k a
  | Raised e => Raised e
  end.

(* ===================================================================== *)
(** * providers/llm.py                                                     *)
(* ===================================================================== *)

Definition SUPPORTED_PROVIDERS : list string :=
  ["openai"; "anthropic"; "azure"; "gemini"; "z-ai"; "ollama"].

(** [chat]: dispatch on the provider name, [ValueError] for an unknown one;
    each provider function raises what the exchange raises and
    [ValueError] on an empty content. [llm_calls] counts the calls of
    [chat]. *)
Definition chat (config : LLMConfig) (messages : list ChatMessage)
    (temperature : Q) (max_tokens : Z) : M string :=
  fun env st =>
    let st' := mkState (S (llm_calls st)) (tool_calls st) (uuid_calls st)
                       (loop_runs st) (frame st) in
    if in_strings (provider config) SUPPORTED_PROVIDERS
    then match llm_script env (llm_calls st) with
         | ProviderFails e => (Raised e, st')
         | ProviderContent text =>
             if PyStr.truthy text then (Returned text, st')
             else (Raised ValueError, st')
         end
    else (Raised ValueError, st').

(* ===================================================================== *)
(** * tools/mcp_client.py                                                  *)
(* ===================================================================== *)

(** [TOOL_BLOCK_RE]: an opening fence followed by "tool", blanks, then
    lazily everything up to the next fence. The greedy blank run never
    contains a backtick, so the leftmost match starts at the leftmost
    opening; when that opening has no closing fence no later opening has
    one either. Result: text before the match, group 1, text after. *)
Definition tool_block_match (s : string) : option (string * string * string) :=
  match PyStr.find (PyStr.fence ++ "tool") s with
  | None => None
  | Some (before, opened) =>
      match PyStr.find PyStr.fence (PyStr.lstrip opened) with
      | None => None
      | Some (group1, after) => Some (before, group1, after)
      end
  end.

(** [TOOL_BLOCK_RE.finditer]: group 1 of the successive matches. A match
    takes at least ten characters, so the length of the text is fuel
    enough. *)
Fixpoint tool_blocks_aux (fuel : nat) (s : string) : list string :=
  match fuel with
  | 0 => []
  | S fuel' =>
      match tool_block_match s with
      | None => []
      | Some (_, group1, after) => group1 :: tool_blocks_aux fuel' after
      end
  end.

Definition tool_blocks (s : string) : list string :=
  tool_blocks_aux (String.length s) s.

(** The body of the [try] in [parse_tool_calls]: what one block appends. *)
Definition parse_block `{JSON} (group1 : string) : outcome (list pyval) :=
  obind (json_loads (PyStr.strip group1)) (fun parsed =>
  obind (py_contains "name" parsed) (fun has_name =>
  if has_name
  then obind (py_contains "arguments" parsed) (fun has_arguments =>
       Returned (if has_arguments then [parsed] else []))
  else Returned [])).

Fixpoint parse_blocks `{JSON} (blocks : list string) (calls : list pyval)
  : outcome (list pyval) :=
  match blocks with
  | [] => Returned calls
  | group1 :: rest =>
      match parse_block group1 with
      | Returned new => parse_blocks rest (calls ++ new)
      | Raised e =>
          if is_JSONDecodeError e || is_KeyError e
          then parse_blocks rest calls
          else Raised e
      end
  end.

Definition parse_tool_calls `{JSON} (response : string) : outcome (list pyval) :=
  parse_blocks (tool_blocks response) [].

Fixpoint remove_tool_blocks (fuel : nat) (s : string) : string :=
  match fuel with
  | 0 => s
  | S fuel' =>
      match tool_block_match s with
      | None => s
      | Some (before, _, after) => before ++ remove_tool_blocks fuel' after
      end
  end.

Definition strip_tool_blocks (response : string) : string :=
  PyStr.strip (remove_tool_blocks (String.length response) response).

(** [execute_tool]: the next scripted reply of the tool backend. *)
Definition execute_tool (tool_name arguments : pyval) : M ToolReply :=
  fun env st =>
    (Returned (tool_script env (tool_calls st) tool_name arguments),
     mkState (llm_calls st) (S (tool_calls st)) (uuid_calls st)
             (loop_runs st) (frame st)).

(** [uuid.uuid4().hex] *)
Definition uuid4_hex : M string :=
  fun env st =>
    (Returned (uuid_script env (uuid_calls st)),
     mkState (llm_calls st) (tool_calls st) (S (uuid_calls st))
             (loop_runs st) (frame st)).

(* ===================================================================== *)
(** * agents/orchestrator.py                                               *)
(* ===================================================================== *)

Definition _KEYWORD_RULES : list (AgentId * list string) :=
  [ (THINKER,
     ["big picture"; "what do we know"; "summarize everything"; "full analysis";
      "where does this come from"; "trace"; "cross-reference"; "investigate";
      "connect the dots"; "all sources"; "comprehensive view"; "deep dive";
      "source map"; "what's missing"]);
    (RISK,
     ["risk"; "blocker"; "blocked"; "mitigation"; "threat"; "vulnerability";
      "escalat"; "severity"; "probability"; "impact analysis"; "fmea";
      "risk matrix"; "what could go wrong"]);
    (COMMUNICATIONS,
     ["email"; "send message"; "slack"; "notify"; "stakeholder update";
      "meeting summary"; "announcement"; "newsletter"; "status update";
      "post to"; "draft email"; "send to"; "share with"]);
    (DISCOVERY,
     ["discovery"; "research"; "market"; "competitor"; "opportunity";
      "customer need"; "jobs to be done"; "jtbd"; "user interview";
      "hypothesis"; "experiment"; "validate"; "porter"]);
    (STRATEGY,
     ["prioriti"; "roadmap"; "backlog"; "okr"; "kpi"; "strategy";
      "sprint"; "epic"; "story"; "rice"; "wsjf"; "plan"; "quarter";
      "initiative"; "feature"; "requirement"; "scope"; "timeline";
      "jira"; "create issue"; "create ticket"; "create story";
      "dependency"; "alignment"]);
    (ADVISOR,
     ["best practice"; "advice"; "recommend"; "how should"; "what's the best way";
      "methodology"; "framework"; "agile"; "scrum"; "safe"; "kanban"; "lean";
      "architecture"; "pattern"; "approach"; "opinion"; "guidance";
      "industry standard"; "benchmark"]) ].

(** The two nested [for] loops of [route_by_keywords], over any rule list. *)
Fixpoint scan_rules (rules : list (AgentId * list string)) (lower : string)
  : option AgentId :=
  match rules with
  | [] => None
  | (agent, keywords) :: rest =>
      if existsb (fun kw => PyStr.contains kw lower) keywords
      then Some agent
      else scan_rules rest lower
  end.

Definition route_by_keywords (message : string) : option AgentId :=
  scan_rules _KEYWORD_RULES (PyStr.lower message).

Definition _CLASSIFY_PROMPT (message : string) : string :=
  "You are a request router. Given a user message, classify which specialized agent should handle it."
  ++ PyStr.nl ++ PyStr.nl
  ++ "Available agents:" ++ PyStr.nl
  ++ "- strategy: Product strategy, prioritization, roadmap planning, OKRs, Jira operations" ++ PyStr.nl
  ++ "- discovery: Market research, customer needs, opportunity analysis, hypothesis validation" ++ PyStr.nl
  ++ "- risk: Risk assessment, mitigation planning, blocker identification, escalation" ++ PyStr.nl
  ++ "- communications: Emails, Slack messages, stakeholder updates, meeting summaries" ++ PyStr.nl
  ++ "- advisor: Best practices, methodology guidance, architecture advice, expert opinion" ++ PyStr.nl
  ++ "- thinker: Big-picture synthesis, cross-source analysis, information gathering, traceability" ++ PyStr.nl
  ++ PyStr.nl
  ++ "Respond with ONLY the agent name (one word, lowercase). If truly ambiguous, respond with "
  ++ PyStr.dq ++ "strategy" ++ PyStr.dq ++ " as the default." ++ PyStr.nl
  ++ PyStr.nl
  ++ "User message: " ++ message ++ PyStr.nl
  ++ PyStr.nl
  ++ "Agent:".

Definition route_by_llm (message : string) (llm_config : LLMConfig) : M AgentId :=
  let prompt := _CLASSIFY_PROMPT (PyStr.take 500 message) in
  try_except
    (result <- chat llm_config [mkChatMessage "user" prompt] (1 # 10) 20 ;;
     let agent_name := PyStr.rstrip_char "." (PyStr.lower (PyStr.strip result)) in
     lift (AgentId_of_value agent_name))
    (fun e => is_ValueError e || is_KeyError e)
    (ret STRATEGY).

Definition route_message (message : string) (llm_config : LLMConfig)
    (explicit_agent : option AgentId) : M AgentId :=
  match explicit_agent with
  | Some agent => ret agent
  | None =>
      match route_by_keywords message with
      | Some keyword_match => ret keyword_match
      | None => route_by_llm message llm_config
      end
  end.

(* ===================================================================== *)
(** * config.py                                                            *)
(* ===================================================================== *)

(** The two settings read from the process environment. *)
Class Config := {
  RAG_MAX_TOKENS : Z;
  RAG_MAX_DOCS : Z
}.

Definition KB_CHUNK_SIZE : Z := 500.
Definition KB_CHUNK_OVERLAP : Z := 50.

(** [l[start:end]] with Python's treatment of negative and out-of-range
    bounds. *)
Definition slice_bound (len i : Z) : Z :=
  (if i <? 0 then Z.max (i + len) 0 else Z.min i len)%Z.

Definition py_slice {A : Type} (l : list A) (start stop : Z) : list A :=
  let len := Z.of_nat (List.length l) in
  let lo := slice_bound len start in
  let hi := slice_bound len stop in
  firstn (Z.to_nat (hi - lo)) (skipn (Z.to_nat lo) l).

(** [if len(s) > 1000: s = s[:1000] + "..."] *)
Definition truncate_1000 (s : string) : string :=
  if (1000 <? String.length s)%nat then PyStr.take 1000 s ++ "..." else s.

(* ===================================================================== *)
(** * knowledge/chunker.py                                                 *)
(* ===================================================================== *)

(** The [while] loop of [chunk_text]. [None]: the fuel ran out before the
    loop condition became false. *)
Fixpoint chunk_loop (fuel : nat) (words : list string) (chunk_size overlap : Z)
    (start : Z) (chunks : list string) : option (list string) :=
  if (start <? Z.of_nat (List.length words))%Z
  then match fuel with
       | 0 => None
       | S fuel' =>
           let stop := (start + chunk_size)%Z in
           let chunk := PyStr.join " " (py_slice words start stop) in
           let chunks' :=
             if PyStr.truthy (PyStr.strip chunk)
             then chunks ++ [PyStr.strip chunk] else chunks in
           chunk_loop fuel' words chunk_size overlap
                      (start + (chunk_size - overlap))%Z chunks'
       end
  else Some chunks.

Definition chunk_text (fuel : nat) (text : string) (chunk_size overlap : Z)
  : option (list string) :=
  let words := PyStr.split text in
  if (Z.of_nat (List.length words) <=? chunk_size)%Z
  then Some (if PyStr.truthy (PyStr.strip text) then [PyStr.strip text] else [])
  else chunk_loop fuel words chunk_size overlap 0%Z [].

(* ===================================================================== *)
(** * knowledge/rag.py                                                     *)
(* ===================================================================== *)

Definition _EXTRACT_PROMPT (message : string) : string :=
  "Extract 1-3 search keywords from the user's message for searching a knowledge base."
  ++ PyStr.nl
  ++ "Return ONLY the keywords as a comma-separated list, nothing else." ++ PyStr.nl
  ++ PyStr.nl
  ++ "User message: " ++ message ++ PyStr.nl
  ++ PyStr.nl
  ++ "Keywords:".

Definition stop_words : list string :=
  ["the"; "a"; "an"; "is"; "are"; "was"; "were"; "what"; "how"; "can";
   "do"; "i"; "we"; "my"; "our"].

Definition extract_keywords (message : string) (llm_config : LLMConfig)
  : M (list string) :=
  try_except
    (result <- chat llm_config
                 [mkChatMessage "user" (_EXTRACT_PROMPT (PyStr.take 500 message))]
                 (1 # 10) 50 ;;
     let keywords :=
       filter PyStr.truthy
              (map PyStr.strip (PyStr.split_on "," (PyStr.strip result))) in
     ret (firstn 3 keywords))
    (fun _ => true)
    (let words := PyStr.split message in
     ret (firstn 3 (filter (fun w => negb (in_strings (PyStr.lower w) stop_words))
                           words))).

(** [for chunk in chunks] over a decoded value: the items of a list, the
    characters of a str, the keys of a dict. *)
Definition py_iter (v : pyval) : outcome (list pyval) :=
  match v with
  | PList items => Returned items
  | PStr s => Returned (map (fun c => PStr (String c EmptyString))
                            (list_ascii_of_string s))
  | PDict items => Returned (map (fun kv => PStr (fst kv)) items)
  | PNone | PBool _ | PInt _ | PFloat _ => Raised TypeError
  end.

(** A field that pydantic declares as [str]. *)
Definition as_str (v : pyval) : outcome string :=
  match v with
  | PStr s => Returned s
  | _ => Raised ValidationError
  end.

Definition get_default (key : string) (doc : list (string * pyval))
    (default : pyval) : pyval :=
  match dict_get key doc with
  | Some v => v
  | None => default
  end.

(** [matches / max(len(keywords), 1)] *)
Definition chunk_score (keywords : list string) (chunk : string) : Q :=
  let lower_chunk := PyStr.lower chunk in
  let matches :=
    List.length (filter (fun kw => PyStr.contains (PyStr.lower kw) lower_chunk)
                        keywords) in
  Qmake (Z.of_nat matches) (Pos.of_nat (Nat.max (List.length keywords) 1)).

Definition Qgtb (x y : Q) : bool := negb (Qle_bool x y).

(** The inner [for chunk in chunks] loop: the running best score and
    chunk. A chunk that is not a str has no [lower]. *)
Fixpoint best_chunk_loop (keywords : list string) (chunks : list pyval)
    (best_score : Q) (best_chunk : string) : outcome (Q * string) :=
  match chunks with
  | [] => Returned (best_score, best_chunk)
  | PStr chunk :: rest =>
      let score := chunk_score keywords chunk in
      if Qgtb score best_score
      then best_chunk_loop keywords rest score chunk
      else best_chunk_loop keywords rest best_score best_chunk
  | _ :: _ => Raised AttributeError
  end.

(** The chunks of a document: the [content_chunks] entry, decoded when it
    is a JSON text. *)
Definition document_chunks `{JSON} (doc : list (string * pyval))
  : outcome (list pyval) :=
  match get_default "content_chunks" doc (PList []) with
  | PStr encoded =>
      match json_loads encoded with
      | Returned decoded => py_iter decoded
      | Raised e =>
          if is_JSONDecodeError e
          then Returned [get_default "content" doc (PStr "")]
          else Raised e
      end
  | chunks => py_iter chunks
  end.

(** One round of the outer [for doc in documents] loop: what it appends to
    [results]. *)
Definition score_document `{JSON} (keywords : list string)
    (doc : list (string * pyval)) : outcome (list (Q * RAGDocument)) :=
  obind (document_chunks doc) (fun chunks =>
  obind (best_chunk_loop keywords chunks 0%Q "") (fun best =>
  let best_score := fst best in
  let best_chunk := snd best in
  if Qgtb best_score 0%Q
  then obind (as_str (get_default "source_type" doc (PStr "file"))) (fun st =>
       obind (as_str (get_default "id" doc (PStr ""))) (fun id =>
       obind (as_str (get_default "source_name" doc (PStr "Unknown"))) (fun name =>
       Returned [(best_score,
                  mkRAGDocument st id name (truncate_1000 best_chunk) best_score)])))
  else Returned [])).

Fixpoint score_documents `{JSON} (keywords : list string)
    (documents : list (list (string * pyval)))
    (results : list (Q * RAGDocument)) : outcome (list (Q * RAGDocument)) :=
  match documents with
  | [] => Returned results
  | doc :: rest =>
      obind (score_document keywords doc) (fun new =>
      score_documents keywords rest (results ++ new))
  end.

(** [list.sort(key=..., reverse=True)]: descending, and stable. *)
Fixpoint insert_desc {A : Type} (key : A -> Q) (x : A) (l : list A) : list A :=
  match l with
  | [] => [x]
  | y :: l' =>
      if Qgtb (key y) (key x) then y :: insert_desc key x l' else x :: l
  end.

Definition sort_desc {A : Type} (key : A -> Q) (l : list A) : list A :=
  fold_right (insert_desc key) [] l.

Definition search_knowledge_base `{JSON} `{Config} (keywords : list string)
    (documents : list (list (string * pyval))) : outcome (list RAGDocument) :=
  match documents, keywords with
  | [], _ => Returned []
  | _, [] => Returned []
  | _, _ =>
      obind (score_documents keywords documents []) (fun results =>
      Returned (map snd (py_slice (sort_desc fst results) 0 RAG_MAX_DOCS)))
  end.

(** The capping loop of [retrieve_context]. *)
Fixpoint cap_loop (max_chars total_chars : Z) (all_docs : list RAGDocument)
    (capped_docs : list RAGDocument) : list RAGDocument :=
  match all_docs with
  | [] => capped_docs
  | doc :: rest =>
      let doc_chars := Z.of_nat (String.length (doc_content doc)) in
      if (total_chars + doc_chars >? max_chars)%Z
      then capped_docs
      else cap_loop max_chars (total_chars + doc_chars)%Z rest
                    (capped_docs ++ [doc])
  end.

(** The candidates of [retrieve_context], merged and sorted ([None] when no
    keyword was extracted and the function returns at once). *)
Definition sorted_candidates `{JSON} `{Config}
    (message : string) (llm_config : LLMConfig)
    (knowledge_docs : list (list (string * pyval)))
    (confluence_enabled : bool) : M (option (list RAGDocument)) :=
  keywords <- extract_keywords message llm_config ;;
  match keywords with
  | [] => ret None
  | _ =>
      env <- ask ;;
      confluence_docs <-
        (if confluence_enabled then lift (search_confluence env keywords)
         else ret []) ;;
      kb_docs <-
        (match knowledge_docs with
         | [] => ret []
         | _ => lift (search_knowledge_base keywords knowledge_docs)
         end) ;;
      ret (Some (sort_desc relevance (confluence_docs ++ kb_docs)))
  end.

Definition retrieve_context `{JSON} `{Config}
    (message : string) (llm_config : LLMConfig)
    (knowledge_docs : list (list (string * pyval)))
    (confluence_enabled : bool) : M (list RAGDocument) :=
  all_docs <- sorted_candidates message llm_config knowledge_docs
                                confluence_enabled ;;
  match all_docs with
  | None => ret []
  | Some all_docs =>
      let max_chars := (RAG_MAX_TOKENS * 4)%Z in
      ret (cap_loop max_chars 0 all_docs [])
  end.

(* ===================================================================== *)
(** * agents/loop.py                                                       *)
(* ===================================================================== *)

Definition modify_frame (f : Locals.t -> Locals.t) : M unit :=
  fun _ st =>
    (Returned tt,
     mkState (llm_calls st) (tool_calls st) (uuid_calls st) (loop_runs st)
             (f (frame st))).

(** Ghost step: record that an activation of the loop starts. *)
Definition log_loop_run (agent : AgentId) : M unit :=
  fun _ st =>
    (Returned tt,
     mkState (llm_calls st) (tool_calls st) (uuid_calls st)
             (loop_runs st ++ [agent]) (frame st)).

Definition append_tool_execution (t : ToolExecution) : M unit :=
  modify_frame (fun f =>
    Locals.mk (Locals.messages f) (Locals.tools_executed f ++ [t])
              (Locals.pending_actions f) (Locals.final_content f)
              (Locals.iterations f)).

Definition append_pending_action (a : PendingAction) : M unit :=
  modify_frame (fun f =>
    Locals.mk (Locals.messages f) (Locals.tools_executed f)
              (Locals.pending_actions f ++ [a]) (Locals.final_content f)
              (Locals.iterations f)).

Definition append_messages (ms : list ChatMessage) : M unit :=
  modify_frame (fun f =>
    Locals.mk (Locals.messages f ++ ms) (Locals.tools_executed f)
              (Locals.pending_actions f) (Locals.final_content f)
              (Locals.iterations f)).

Definition set_final_content (s : string) : M unit :=
  modify_frame (fun f =>
    Locals.mk (Locals.messages f) (Locals.tools_executed f)
              (Locals.pending_actions f) s (Locals.iterations f)).

Definition set_iterations (n : Z) : M unit :=
  modify_frame (fun f =>
    Locals.mk (Locals.messages f) (Locals.tools_executed f)
              (Locals.pending_actions f) (Locals.final_content f) n).

(** A field that pydantic declares as [dict[str, Any]]. *)
Definition as_dict (v : pyval) : outcome (list (string * pyval)) :=
  match v with
  | PDict items => Returned items
  | _ => Raised ValidationError
  end.

(** [check_autonomy_gate] as the loop calls it, on a decoded name. A name
    that is not a str is in neither table; the two lookups hash the name,
    which raises [TypeError] for a list or a dict. *)
Definition gate_of_call (tool_name : pyval) (autonomy_level : AutonomyLevel)
    (auto_send_emails auto_create_jira_stories : bool)
  : outcome AutonomyGateResult :=
  match tool_name with
  | PStr name =>
      Returned (check_autonomy_gate name autonomy_level
                                    auto_send_emails auto_create_jira_stories)
  | PList _ | PDict _ =>
      match autonomy_level with
      | MANUAL | ADVISORY => Returned BLOCK
      | FULL | OVERSIGHT => Raised TypeError
      end
  | PNone | PBool _ | PInt _ | PFloat _ =>
      Returned (match autonomy_level with
                | MANUAL | ADVISORY => BLOCK
                | FULL => EXECUTE
                | OVERSIGHT => GATE
                end)
  end.

(** The body of [for tc in tool_calls]: the text it appends to
    [tool_result_parts]. The records are pydantic models: building one
    with a name that is not a str or arguments that are not a dict raises
    [ValidationError]. *)
Definition process_tool_call (agent : AgentId) (autonomy_level : AutonomyLevel)
    (auto_send_emails auto_create_jira_stories : bool) (tc : pyval) : M string :=
  tool_name <- lift (py_getitem tc "name") ;;
  tool_args <- lift (py_getitem tc "arguments") ;;
  gate <- lift (gate_of_call tool_name autonomy_level
                             auto_send_emails auto_create_jira_stories) ;;
  match gate with
  | EXECUTE =>
      reply <- execute_tool tool_name tool_args ;;
      match reply with
      | ToolRaises e => raise e
      | ToolReturns result_content is_error =>
          name <- lift (as_str tool_name) ;;
          args <- lift (as_dict tool_args) ;;
          append_tool_execution
            (mkToolExecution name args (Some result_content)
                             (if is_error then "failed" else "executed")) ;;;
          ret ("Tool " ++ PyStr.dq ++ name ++ PyStr.dq ++ " result:"
                 ++ PyStr.nl ++ result_content)%string
      end
  | GATE =>
      hex <- uuid4_hex ;;
      env <- ask ;;
      description <- lift (describe_tool_action env tool_name tool_args) ;;
      name <- lift (as_str tool_name) ;;
      args <- lift (as_dict tool_args) ;;
      let action := mkPendingAction ("pa_" ++ PyStr.take 12 hex) agent name args
                                    description "pending" in
      append_pending_action action ;;;
      append_tool_execution (mkToolExecution name args None "pending") ;;;
      ret ("Tool " ++ PyStr.dq ++ name ++ PyStr.dq
             ++ " requires approval. Action queued for user review.")%string
  | BLOCK =>
      env <- ask ;;
      desc <- lift (describe_tool_action env tool_name tool_args) ;;
      name <- lift (as_str tool_name) ;;
      args <- lift (as_dict tool_args) ;;
      append_tool_execution (mkToolExecution name args None "blocked") ;;;
      ret ("Tool " ++ PyStr.dq ++ name ++ PyStr.dq ++ " would " ++ desc
             ++ " — but execution is disabled in "
             ++ AutonomyLevel_value autonomy_level ++ " mode.")%string
  end.

Fixpoint process_tool_calls (agent : AgentId) (autonomy_level : AutonomyLevel)
    (auto_send_emails auto_create_jira_stories : bool)
    (tool_calls : list pyval) (tool_result_parts : list string)
  : M (list string) :=
  match tool_calls with
  | [] => ret tool_result_parts
  | tc :: rest =>
      part <- process_tool_call agent autonomy_level auto_send_emails
                                auto_create_jira_stories tc ;;
      process_tool_calls agent autonomy_level auto_send_emails
                         auto_create_jira_stories rest
                         (tool_result_parts ++ [part])
  end.

Definition tool_results_message (tool_result_parts : list string) : ChatMessage :=
  mkChatMessage "user"
    ("[Tool Results]" ++ PyStr.nl
       ++ PyStr.join (PyStr.nl ++ PyStr.nl) tool_result_parts
       ++ PyStr.nl ++ PyStr.nl
       ++ "Please continue with your analysis based on these results. "
       ++ "If you have all the information you need, provide your final response without any tool calls.").

(** The body of [for i in range(max_iterations)]; [true] stands for
    [break]. *)
Definition iteration `{JSON} (agent : AgentId) (llm_config : LLMConfig)
    (temperature : Q) (autonomy_level : AutonomyLevel)
    (auto_send_emails auto_create_jira_stories : bool) (i : Z) : M bool :=
  set_iterations (i + 1) ;;;
  f <- get_frame ;;
  response_text <- chat llm_config (Locals.messages f) temperature 4096 ;;
  tool_calls <- lift (parse_tool_calls response_text) ;;
  match tool_calls with
  | [] => set_final_content response_text ;;; ret true
  | _ =>
      tool_result_parts <-
        process_tool_calls agent autonomy_level auto_send_emails
                           auto_create_jira_stories tool_calls [] ;;
      append_messages [mkChatMessage "assistant" response_text;
                       tool_results_message tool_result_parts] ;;;
      ret false
  end.

(** [for i in range(...)]: [n] rounds left, the next index is [i]. *)
Fixpoint for_range (n : nat) (i : Z) (body : Z -> M bool) : M unit :=
  match n with
  | 0 => ret tt
  | S n' =>
      stop <- body i ;;
      if (stop : bool) then ret tt else for_range n' (i + 1) body
  end.

Definition handoff_alternatives : list AgentId :=
  [STRATEGY; DISCOVERY; RISK; COMMUNICATIONS; ADVISOR; THINKER].

(** [_HANDOFF_RE] anchored at the head of [s]: the bracketed marker, blanks,
    one of the names, the closing bracket, letters compared without case.
    No name is a prefix of another, so at most one alternative goes
    through; [m.group(1).lower()] is then the value of that member. *)
Definition handoff_match_here (s : string) : option AgentId :=
  match PyStr.prefix_ci "[HANDOFF:" s with
  | None => None
  | Some rest =>
      find (fun a =>
              match PyStr.prefix_ci (AgentId_value a) (PyStr.lstrip rest) with
              | Some tail => String.prefix "]" tail
              | None => false
              end)
           handoff_alternatives
  end.

(** [_HANDOFF_RE.search]: the leftmost position where the pattern matches. *)
Fixpoint _detect_handoff (content : string) : option AgentId :=
  match handoff_match_here content with
  | Some a => Some a
  | None =>
      match content with
      | EmptyString => None
      | String _ content' => _detect_handoff content'
      end
  end.

Definition run_agent_loop `{JSON}
    (agent : AgentId) (name : string) (system_prompt user_message : string)
    (history : list ChatMessage) (llm_config : LLMConfig) (temperature : Q)
    (max_iterations : Z) (autonomy_level : AutonomyLevel)
    (auto_send_emails auto_create_jira_stories : bool)
    (rag_docs : list RAGDocument) : M AgentResponse :=
  log_loop_run agent ;;;
  set_frame (Locals.mk ([mkChatMessage "system" system_prompt] ++ history
                          ++ [mkChatMessage "user" user_message])
                       [] [] "" 0%Z) ;;;
  for_range (Z.to_nat max_iterations) 0%Z
            (iteration agent llm_config temperature autonomy_level
                       auto_send_emails auto_create_jira_stories) ;;;
  f <- get_frame ;;
  (if PyStr.truthy (Locals.final_content f) then ret tt
   else
     final_text <- chat llm_config (Locals.messages f) temperature 4096 ;;
     set_final_content (strip_tool_blocks final_text)) ;;;
  f <- get_frame ;;
  ret (mkAgentResponse agent name (Locals.final_content f)
                       (Locals.tools_executed f) (Locals.pending_actions f)
                       (_detect_handoff (Locals.final_content f))
                       rag_docs (Locals.iterations f)).

(* ===================================================================== *)
(** * agents/registry.py and main.py                                       *)
(* ===================================================================== *)

Record AgentDefinition : Type := mkAgentDefinition {
  def_name : string;
  def_temperature : Q;
  def_max_iterations : Z
}.

Definition get_agent (a : AgentId) : AgentDefinition :=
  match a with
  | STRATEGY => mkAgentDefinition "Strategy Agent" (3 # 10) 5
  | DISCOVERY => mkAgentDefinition "Discovery Agent" (5 # 10) 4
  | RISK => mkAgentDefinition "Risk Agent" (3 # 10) 4
  | COMMUNICATIONS => mkAgentDefinition "Communications Agent" (5 # 10) 4
  | ADVISOR => mkAgentDefinition "Expert Advisor" (7 # 10) 3
  | THINKER => mkAgentDefinition "Thinker" (4 # 10) 5
  end.

(** The chat request, with its [settings] already read: model
    configuration, autonomy preferences, integrations, knowledge
    documents. *)
Record AgentChatRequest : Type := mkAgentChatRequest {
  req_message : string;
  req_history : list ChatMessage;
  req_llm_config : LLMConfig;
  req_autonomy_level : AutonomyLevel;
  req_auto_send_emails : bool;
  req_auto_create_jira : bool;
  req_confluence_enabled : bool;
  req_knowledge_docs : list (list (string * pyval));
  req_agent_id : option AgentId
}.

Record AgentChatResponse : Type := mkAgentChatResponse {
  chat_response : string;
  chat_agent_id : AgentId;
  chat_agent_name : string;
  chat_tools_executed : list ToolExecution;
  chat_pending_actions : list PendingAction;
  chat_rag_context : list RAGDocument
}.

Definition handoff_message (from_name message first_content : string) : string :=
  "[Handoff from " ++ from_name ++ "]" ++ PyStr.nl
  ++ "Original request: " ++ message ++ PyStr.nl
  ++ "Context from " ++ from_name ++ ": " ++ PyStr.take 500 first_content.

Definition combined_content (first_name first_content second_name
                             second_content : string) : string :=
  "**" ++ first_name ++ ":**" ++ PyStr.nl ++ first_content ++ PyStr.nl ++ PyStr.nl
  ++ "---" ++ PyStr.nl ++ PyStr.nl
  ++ "**" ++ second_name ++ "** (supplementary analysis):" ++ PyStr.nl
  ++ second_content.

Definition agent_chat `{JSON} `{Config} (request : AgentChatRequest)
  : M AgentChatResponse :=
  let llm_config := req_llm_config request in
  let autonomy_level := req_autonomy_level request in
  routed <- route_message (req_message request) llm_config (req_agent_id request) ;;
  let agent_def := get_agent routed in
  rag_docs <- retrieve_context (req_message request) llm_config
                               (req_knowledge_docs request)
                               (req_confluence_enabled request) ;;
  env <- ask ;;
  let system_prompt := build_system_prompt env routed rag_docs in
  result <- run_agent_loop routed (def_name agent_def) system_prompt
              (req_message request) (req_history request) llm_config
              (def_temperature agent_def) (def_max_iterations agent_def)
              autonomy_level (req_auto_send_emails request)
              (req_auto_create_jira request) rag_docs ;;
  merged <-
    (match handoff_to result with
     | Some target =>
         if negb (AgentId_eqb target routed)
         then
           let handoff_agent := get_agent target in
           let handoff_prompt := build_system_prompt env target rag_docs in
           handoff_result <-
             run_agent_loop target (def_name handoff_agent) handoff_prompt
               (handoff_message (def_name agent_def) (req_message request)
                                (resp_content result))
               [] llm_config
               (def_temperature handoff_agent) (def_max_iterations handoff_agent)
               autonomy_level (req_auto_send_emails request)
               (req_auto_create_jira request) rag_docs ;;
           ret (mkAgentResponse (agent_id result) (agent_name result)
                  (combined_content (def_name agent_def) (resp_content result)
                                    (def_name handoff_agent)
                                    (resp_content handoff_result))
                  (tools_executed result ++ tools_executed handoff_result)
                  (pending_actions result ++ pending_actions handoff_result)
                  (handoff_to result) (rag_context result) (iterations result))
         else ret result
     | None => ret result
     end) ;;
  ret (mkAgentChatResponse (resp_content merged) (agent_id merged)
                           (agent_name merged) (tools_executed merged)
                           (pending_actions merged) (rag_context merged)).

(* ===================================================================== *)
(** * Reference instances, to run the model on concrete inputs             *)
(* ===================================================================== *)

(** A decoder for the fragment of JSON made of [null], [true], [false],
    integers, strings without escapes, arrays and objects. On a text of
    this fragment it returns what [json.loads] returns, and it raises
    [JSONDecodeError] on a text that is not JSON. *)
Module RefJSON.

Definition is_ws (c : ascii) : bool :=
  let n := nat_of_ascii c in
  ((n =? 32) || (n =? 9) || (n =? 10) || (n =? 13))%nat.

Fixpoint skip_ws (s : string) : string :=
  match s with
  | String c s' => if is_ws c then skip_ws s' else s
  | EmptyString => EmptyString
  end.

Definition digit_of (c : ascii) : option Z :=
  let n := nat_of_ascii c in
  if ((48 <=? n) && (n <=? 57))%nat then Some (Z.of_nat (n - 48)) else None.

Fixpoint read_digits (s : string) (acc : Z) : Z * string :=
  match s with
  | String c s' =>
      match digit_of c with
      | Some d => read_digits s' (10 * acc + d)%Z
      | None => (acc, s)
      end
  | EmptyString => (acc, s)
  end.

(** An integer literal without sign: a lone zero, or digits that do not
    begin with zero. *)
Definition read_nat (s : string) : option (Z * string) :=
  match s with
  | String c s' =>
      match digit_of c with
      | Some 0%Z => Some (0%Z, s')
      | Some d => Some (read_digits s' d)
      | None => None
      end
  | EmptyString => None
  end.

(** The body of a string literal, after the opening quote. *)
Fixpoint read_string (s : string) : option (string * string) :=
  match s with
  | EmptyString => None
  | String c s' =>
      let n := nat_of_ascii c in
      if (n =? 34)%nat then Some (EmptyString, s')
      else if ((n =? 92) || (n <? 32))%nat then None
      else match read_string s' with
           | Some (body, rest) => Some (String c body, rest)
           | None => None
           end
  end.

Fixpoint dict_set (k : string) (v : pyval) (d : list (string * pyval))
  : list (string * pyval) :=
  match d with
  | [] => [(k, v)]
  | (k', v') :: d' =>
      if String.eqb k k' then (k, v) :: d' else (k', v') :: dict_set k v d'
  end.

Definition starts_with (c : ascii) (s : string) : option string :=
  match s with
  | String c' s' => if Ascii.eqb c c' then Some s' else None
  | EmptyString => None
  end.

Fixpoint value (fuel : nat) (s : string) {struct fuel} : option (pyval * string) :=
  match fuel with
  | 0 => None
  | S fuel' =>
      let s := skip_ws s in
      if String.prefix "null" s then Some (PNone, String.substring 4 (String.length s) s)
      else if String.prefix "true" s
      then Some (PBool true, String.substring 4 (String.length s) s)
      else if String.prefix "false" s
      then Some (PBool false, String.substring 5 (String.length s) s)
      else
        match s with
        | EmptyString => None
        | String c rest =>
            let n := nat_of_ascii c in
            if (n =? 34)%nat then
              match read_string rest with
              | Some (body, rest') => Some (PStr body, rest')
              | None => None
              end
            else if (n =? 45)%nat then
              match read_nat rest with
              | Some (z, rest') => Some (PInt (- z), rest')
              | None => None
              end
            else if (n =? 91)%nat then
              match starts_with "]" (skip_ws rest) with
              | Some rest' => Some (PList [], rest')
              | None => elements fuel' rest []
              end
            else if (n =? 123)%nat then
              match starts_with "}" (skip_ws rest) with
              | Some rest' => Some (PDict [], rest')
              | None => members fuel' rest []
              end
            else
              match read_nat s with
              | Some (z, rest') => Some (PInt z, rest')
              | None => None
              end
        end
  end
with elements (fuel : nat) (s : string) (acc : list pyval) {struct fuel}
  : option (pyval * string) :=
  match fuel with
  | 0 => None
  | S fuel' =>
      match value fuel' s with
      | None => None
      | Some (v, rest) =>
          let rest := skip_ws rest in
          match starts_with "," rest with
          | Some rest' => elements fuel' rest' (acc ++ [v])
          | None =>
              match starts_with "]" rest with
              | Some rest' => Some (PList (acc ++ [v]), rest')
              | None => None
              end
          end
      end
  end
with members (fuel : nat) (s : string) (acc : list (string * pyval))
  {struct fuel} : option (pyval * string) :=
  match fuel with
  | 0 => None
  | S fuel' =>
      match starts_with (ascii_of_nat 34) (skip_ws s) with
      | None => None
      | Some after_quote =>
          match read_string after_quote with
          | None => None
          | Some (key, rest) =>
              match starts_with ":" (skip_ws rest) with
              | None => None
              | Some rest =>
                  match value fuel' rest with
                  | None => None
                  | Some (v, rest) =>
                      let rest := skip_ws rest in
                      match starts_with "," rest with
                      | Some rest' => members fuel' rest' (dict_set key v acc)
                      | None =>
                          match starts_with "}" rest with
                          | Some rest' => Some (PDict (dict_set key v acc), rest')
                          | None => None
                          end
                      end
                  end
              end
          end
      end
  end.

Definition loads (s : string) : outcome pyval :=
  match value (S (S (String.length s))) s with
  | Some (v, rest) =>
      match skip_ws rest with
      | EmptyString => Returned v
      | _ => Raised JSONDecodeError
      end
  | None => Raised JSONDecodeError
  end.

End RefJSON.

Definition reference_json : JSON := {| json_loads := RefJSON.loads |}.

(** The default settings of config.py. *)
Definition default_config : Config :=
  {| RAG_MAX_TOKENS := 4000; RAG_MAX_DOCS := 5 |}.

(** A model that answers every call with the texts of [replies] in turn,
    then with [last]; tools that always succeed with the text "ok". *)
Definition scripted_env (replies : list string) (last : string) : Env :=
  {| llm_script := fun n => ProviderContent (nth n replies last);
     tool_script := fun _ _ _ => ToolReturns "ok" false;
     uuid_script := fun _ => "0123456789abcdef0123456789abcdef";
     describe_tool_action := fun _ _ => Returned "run the tool";
     search_confluence := fun _ => Returned [];
     build_system_prompt := fun _ _ => "You are an agent." |}.

Definition openai_config : LLMConfig := mkLLMConfig "openai" "key" None None.

(* ===================================================================== *)
(** * Vocabulary of the statements                                         *)
(* ===================================================================== *)

(** A fenced tool block around [payload]. *)
Definition tool_block (payload : string) : string :=
  PyStr.fence ++ "tool" ++ PyStr.nl ++ payload ++ PyStr.nl ++ PyStr.fence.

(** The JSON text of a call of [name] without arguments. *)
Definition call_json (name : string) : string :=
  "{" ++ PyStr.dq ++ "name" ++ PyStr.dq ++ ": " ++ PyStr.dq ++ name ++ PyStr.dq
  ++ ", " ++ PyStr.dq ++ "arguments" ++ PyStr.dq ++ ": {}}".

(** Some phrase of the rule occurs in the lower-cased message. *)
Definition rule_matches (lower : string) (rule : AgentId * list string) : bool :=
  existsb (fun kw => PyStr.contains kw lower) (snd rule).

(** Sum of the content lengths of a list of documents. *)
Definition total_chars (docs : list RAGDocument) : Z :=
  fold_right (fun d acc => (Z.of_nat (String.length (doc_content d)) + acc)%Z)
             0%Z docs.

(** The knowledge-base document of scenario D. *)
Definition example_kb_doc : list (string * pyval) :=
  [("content_chunks", PList [PStr "alpha beta"; PStr "gamma delta"])].


(** The computation [m] takes every state to a state related to it by [R],
    whether it returns or raises. *)
Definition stable {A : Type} (R : State -> State -> Prop) (m : M A) : Prop :=
  forall env st, R st (snd (m env st)).

(** The activations of the loop logged so far are unchanged. *)
Definition same_runs (st st' : State) : Prop := loop_runs st' = loop_runs st.

(** The number of execution records whose status is "pending". *)
Definition count_pending (l : list ToolExecution) : nat :=
  List.length (filter (fun t => String.eqb (te_status t) "pending") l).

(** As many pending actions as pending execution records. *)
Definition pending_balanced (f : Locals.t) : Prop :=
  List.length (Locals.pending_actions f) = count_pending (Locals.tools_executed f).

Definition keeps_balance (st st' : State) : Prop :=
  pending_balanced (frame st) -> pending_balanced (frame st').


(** The first activation of the loop in [agent_chat], for the routed
    agent. *)
Definition first_run `{JSON} (request : AgentChatRequest) (routed : AgentId)
    (rag_docs : list RAGDocument) : M AgentResponse :=
  fun env =>
    run_agent_loop routed (def_name (get_agent routed))
      (build_system_prompt env routed rag_docs)
      (req_message request) (req_history request) (req_llm_config request)
      (def_temperature (get_agent routed)) (def_max_iterations (get_agent routed))
      (req_autonomy_level request) (req_auto_send_emails request)
      (req_auto_create_jira request) rag_docs env.

(** The handoff that [agent_chat] follows after the first activation: the
    target named by a returned result, when it is not the routed agent. *)
Definition followed_handoff (routed : AgentId) (first : outcome AgentResponse)
  : option AgentId :=
  match first with
  | Returned result =>
      match handoff_to result with
      | Some target => if AgentId_eqb target routed then None else Some target
      | None => None
      end
  | Raised _ => None
  end.

(** A model that answers the keyword extraction, then hands off to risk,
    and from then on hands off to the advisor. *)
Definition handoff_chain_env : Env :=
  scripted_env ["roadmap"; "Ask risk. [HANDOFF: risk]"]
               "Ask the advisor. [HANDOFF: advisor]".

Definition strategy_request : AgentChatRequest :=
  mkAgentChatRequest "hello" [] openai_config OVERSIGHT false false false []
                     (Some STRATEGY).

(** The state in which the first round of a run starts: the activation is
    logged and the locals are initialised. *)
Definition loop_start (st : State) (agent : AgentId)
    (system_prompt user_message : string) (history : list ChatMessage) : State :=
  mkState (llm_calls st) (tool_calls st) (uuid_calls st)
          (loop_runs st ++ [agent])
          (Locals.mk ([mkChatMessage "system" system_prompt] ++ history
                        ++ [mkChatMessage "user" user_message])
                     [] [] "" 0%Z).

(** The number of model calls is unchanged. *)
Definition same_llm_calls (st st' : State) : Prop := llm_calls st' = llm_calls st.

(** The final text and the iteration count are unchanged. *)
Definition same_answer (st st' : State) : Prop :=
  Locals.final_content (frame st') = Locals.final_content (frame st)
  /\ Locals.iterations (frame st') = Locals.iterations (frame st).

(** A model that asks for one tool, then answers. *)
Definition tool_then_answer_env : Env :=
  scripted_env [tool_block (call_json "jira_get_issue")] "Final answer.".




Definition example_run (max_iterations : Z) : M AgentResponse :=
  @run_agent_loop reference_json STRATEGY "Strategy Agent" "You are an agent."
    "look it up" [] openai_config (3 # 10) max_iterations OVERSIGHT false false [].

(** What a block contributes when it decodes to an object or is not JSON. *)
Definition kept_call `{JSON} (group1 : string) : list pyval :=
  match json_loads (PyStr.strip group1) with
  | Returned (PDict items) =>
      match dict_get "name" items, dict_get "arguments" items with
      | Some _, Some _ => [PDict items]
      | _, _ => []
      end
  | _ => []
  end.

(** The status that the branch taken for a gate decision writes in the
    execution record. *)
Definition status_matches_gate (g : AutonomyGateResult) (status : string) : bool :=
  match g with
  | EXECUTE => String.eqb status "executed" || String.eqb status "failed"
  | GATE => String.eqb status "pending"
  | BLOCK => String.eqb status "blocked"
  end.

(** Every execution record carries the status of the gate decision for its
    tool. *)
Definition records_follow_gate (autonomy_level : AutonomyLevel)
    (emails stories : bool) (records : list ToolExecution) : Prop :=
  Forall (fun t =>
            status_matches_gate
              (check_autonomy_gate (te_tool_name t) autonomy_level emails stories)
              (te_status t) = true)
         records.


Definition is_pending (t : ToolExecution) : bool :=
  String.eqb (te_status t) "pending".

(** The pending actions are, in order, the pending records: same tool, same
    arguments; each is owned by [agent], has status "pending" and an id
    made of "pa_" and at most twelve characters. *)
Definition pending_mirror (agent : AgentId) (records : list ToolExecution)
    (actions : list PendingAction) : Prop :=
  map (fun p => (pa_tool_name p, pa_tool_arguments p)) actions
  = map (fun t => (te_tool_name t, te_arguments t)) (filter is_pending records)
  /\ Forall (fun p =>
               pa_status p = "pending" /\ pa_agent_id p = agent
               /\ String.prefix "pa_" (pa_id p) = true
               /\ String.length (pa_id p) <= 15)
            actions.

(** A property of the execution records and the pending actions is kept. *)
Definition keeps (I : list ToolExecution -> list PendingAction -> Prop)
    (st st' : State) : Prop :=
  I (Locals.tools_executed (frame st)) (Locals.pending_actions (frame st)) ->
  I (Locals.tools_executed (frame st')) (Locals.pending_actions (frame st')).


(** The tool backend and the uuid generator are not called. *)
Definition no_tool_use (st st' : State) : Prop :=
  tool_calls st' = tool_calls st /\ uuid_calls st' = uuid_calls st.

(** [m] makes at most [n] model calls, whether it returns or raises. *)
Definition calls_at_most {A : Type} (n : nat) (m : M A) : Prop :=
  forall env st,
    llm_calls st <= llm_calls (snd (m env st))
    /\ llm_calls (snd (m env st)) <= llm_calls st + n.


(** What holds between the states before and after [m] when [m] returns. *)
Definition on_return {A : Type} (R : State -> State -> Prop) (m : M A) : Prop :=
  forall env st a st', m env st = (Returned a, st') -> R st st'.


(** Every character of the text is a blank. *)
Fixpoint all_blank (s : string) : bool :=
  match s with
  | EmptyString => true
  | String c s' => PyStr.is_space c && all_blank s'
  end.

(** A list of scores in descending order. *)
Fixpoint descending (l : list Q) : Prop :=
  match l with
  | [] => True
  | x :: l' => Forall (fun y => (y <= x)%Q) l' /\ descending l'
  end.

(** A model whose first exchange has the given reply. *)
Definition reply_env (reply : ProviderReply) : Env :=
  mkEnv (fun _ => reply)
        (fun _ _ _ => ToolReturns "ok" false)
        (fun _ => "0123456789abcdef0123456789abcdef")
        (fun _ _ => Returned "run the tool")
        (fun _ => Returned [])
        (fun _ _ => "You are an agent.").

(** The text holds no backtick. *)
Fixpoint no_backtick (s : string) : bool :=
  match s with
  | EmptyString => true
  | String c s' => negb (Ascii.eqb c PyStr.backtick) && no_backtick s'
  end.

(* ===================================================================== *)
(** * Properties                                                           *)
(* ===================================================================== *)

(** ** Autonomy gate *)

Lemma in_strings_In (s : string) (l : list string) :
  in_strings s l = true <-> In s l.
Proof.
  unfold in_strings. rewrite existsb_exists. split.
  - intros [x [Hin Heq]]. apply String.eqb_eq in Heq. now subst.
  - intros Hin. exists s. split; [assumption | apply String.eqb_refl].
Qed.

Lemma in_strings_not_In (s : string) (l : list string) :
  in_strings s l = false <-> ~ In s l.
Proof.
  rewrite <- in_strings_In. destruct (in_strings s l); split; congruence.
Qed.

(** The decision at level Oversight for a tool that is not read-only. *)
Lemma oversight_write_tool (tool : string) (emails stories : bool) :
  in_strings tool READ_ONLY_TOOLS = false ->
  check_autonomy_gate tool OVERSIGHT emails stories =
    if (String.eqb tool "email_send" && emails)
       || (String.eqb tool "jira_create_issue" && stories)
    then EXECUTE else GATE.
Proof.
  intros Hro. unfold check_autonomy_gate. rewrite Hro.
  unfold TOOL_AUTONOMY_OVERRIDES. cbn [dict_get].
  destruct (String.eqb_spec tool "email_send") as [-> | Hne1].
  - cbn. destruct emails; reflexivity.
  - destruct (String.eqb_spec tool "jira_create_issue") as [-> | Hne2].
    + cbn. destruct stories; reflexivity.
    + reflexivity.
Qed.

(** C1. [check_autonomy_gate] follows the ordered rules: Manual and Advisory
    block every tool whatever the preferences; a read-only tool executes at
    Full and Oversight; Full executes every tool; at Oversight a tool that
    is not read-only executes exactly when it is [email_send] with
    [auto_send_emails] set or [jira_create_issue] with
    [auto_create_jira_stories] set, and is gated otherwise. *)
Theorem check_autonomy_gate_rules (tool : string) (emails stories : bool) :
  check_autonomy_gate tool MANUAL emails stories = BLOCK
  /\ check_autonomy_gate tool ADVISORY emails stories = BLOCK
  /\ (In tool READ_ONLY_TOOLS ->
      check_autonomy_gate tool FULL emails stories = EXECUTE
      /\ check_autonomy_gate tool OVERSIGHT emails stories = EXECUTE)
  /\ check_autonomy_gate tool FULL emails stories = EXECUTE
  /\ (~ In tool READ_ONLY_TOOLS ->
      (check_autonomy_gate tool OVERSIGHT emails stories = EXECUTE <->
         (tool = "email_send" /\ emails = true)
         \/ (tool = "jira_create_issue" /\ stories = true))
      /\ (check_autonomy_gate tool OVERSIGHT emails stories <> EXECUTE ->
          check_autonomy_gate tool OVERSIGHT emails stories = GATE)).
Proof.
  repeat split; try reflexivity.
  - apply in_strings_In in H. unfold check_autonomy_gate. now rewrite H.
  - apply in_strings_In in H. unfold check_autonomy_gate. now rewrite H.
  - unfold check_autonomy_gate. now destruct (in_strings tool READ_ONLY_TOOLS).
  - apply in_strings_not_In in H. rewrite (oversight_write_tool _ _ _ H).
    destruct (String.eqb_spec tool "email_send") as [-> | Hne1];
      destruct emails; cbn; try (intros _; left; now split); try discriminate.
    all: destruct (String.eqb_spec tool "jira_create_issue") as [-> | Hne2];
      destruct stories; cbn; try (intros _; right; now split); discriminate.
  - apply in_strings_not_In in H. rewrite (oversight_write_tool _ _ _ H).
    intros [[-> ->] | [-> ->]]; reflexivity.
  - apply in_strings_not_In in H. rewrite (oversight_write_tool _ _ _ H).
    destruct ((String.eqb tool "email_send" && emails)
              || (String.eqb tool "jira_create_issue" && stories));
      [intros Hc; now elim Hc | reflexivity].
Qed.

Lemma check_autonomy_gate_rules_witness :
  In "jira_get_issue" READ_ONLY_TOOLS
  /\ check_autonomy_gate "jira_get_issue" OVERSIGHT false false = EXECUTE
  /\ ~ In "jira_create_issue" READ_ONLY_TOOLS
  /\ check_autonomy_gate "jira_create_issue" OVERSIGHT false false = GATE
  /\ check_autonomy_gate "jira_create_issue" OVERSIGHT false true = EXECUTE.
Proof.
  assert (Hro : In "jira_get_issue" READ_ONLY_TOOLS) by (cbn; tauto).
  assert (Hw : ~ In "jira_create_issue" READ_ONLY_TOOLS).
  { cbn. intros [H | [H | [H | []]]]; discriminate H. }
  split; [exact Hro |].
  split.
  { exact (proj2 (proj1 (proj2 (proj2
             (check_autonomy_gate_rules "jira_get_issue" false false))) Hro)). }
  split; [exact Hw |].
  split.
  { apply (proj2 (proj2 (proj2 (proj2 (proj2
             (check_autonomy_gate_rules "jira_create_issue" false false)))) Hw)).
    cbn. discriminate. }
  { apply (proj1 (proj2 (proj2 (proj2 (proj2
             (check_autonomy_gate_rules "jira_create_issue" false true)))) Hw)).
    right. split; reflexivity. }
Defined.

(** ** Router *)

Lemma scan_rules_first_match (rules : list (AgentId * list string))
    (lower : string) (k : nat) (agent : AgentId) (keywords : list string) :
  nth_error rules k = Some (agent, keywords) ->
  rule_matches lower (agent, keywords) = true ->
  forallb (fun r => negb (rule_matches lower r)) (firstn k rules) = true ->
  scan_rules rules lower = Some agent.
Proof.
  revert k. induction rules as [| [a kws] rest IH]; intros k Hnth Hk Hbefore.
  - destruct k; discriminate Hnth.
  - destruct k as [| k'].
    + cbn in Hnth. injection Hnth as -> ->.
      cbn. unfold rule_matches in Hk. cbn in Hk. now rewrite Hk.
    + cbn in Hnth, Hbefore. apply andb_true_iff in Hbefore as [Ha Hrest].
      apply negb_true_iff in Ha. unfold rule_matches in Ha. cbn in Ha.
      cbn. rewrite Ha. now apply (IH k').
Qed.

(** C3. An explicit agent is returned as it is: the computation is the pure
    return, so the message is not looked at and the state (with its count of
    model calls) is untouched. Without an explicit agent, when a phrase of
    rule [k] occurs in the lower-cased message and no phrase of the rules
    before [k] does, the agent of rule [k] is returned and no model call is
    made. The rules are declared in the order thinker, risk,
    communications, discovery, strategy, advisor. *)
Theorem route_message_explicit_and_keywords
    (message : string) (llm_config : LLMConfig) (env : Env) (st : State) :
  (forall agent, route_message message llm_config (Some agent) = ret agent)
  /\ (forall agent,
        route_message message llm_config (Some agent) env st = (Returned agent, st))
  /\ map fst _KEYWORD_RULES
       = [THINKER; RISK; COMMUNICATIONS; DISCOVERY; STRATEGY; ADVISOR]
  /\ (forall k agent keywords,
        nth_error _KEYWORD_RULES k = Some (agent, keywords) ->
        rule_matches (PyStr.lower message) (agent, keywords) = true ->
        forallb (fun r => negb (rule_matches (PyStr.lower message) r))
                (firstn k _KEYWORD_RULES) = true ->
        route_message message llm_config None env st = (Returned agent, st)
        /\ llm_calls (snd (route_message message llm_config None env st))
           = llm_calls st).
Proof.
  split; [reflexivity |]. split; [reflexivity |]. split; [reflexivity |].
  intros k agent keywords Hnth Hk Hbefore.
  assert (Hscan : route_by_keywords message = Some agent).
  { unfold route_by_keywords.
    now apply (scan_rules_first_match _ _ k agent keywords). }
  unfold route_message. rewrite Hscan. split; reflexivity.
Qed.

Lemma route_message_explicit_and_keywords_witness :
  route_message "what's our roadmap for Q3" openai_config None
                (scripted_env [] "risk") initial_state
  = (Returned STRATEGY, initial_state).
Proof.
  refine (proj1 (proj2 (proj2 (proj2
            (route_message_explicit_and_keywords
               "what's our roadmap for Q3" openai_config
               (scripted_env [] "risk") initial_state)))
            4 STRATEGY _ _ _ _)).
  - reflexivity.
  - vm_compute. reflexivity.
  - vm_compute. reflexivity.
Defined.

(** What [route_by_llm] lets through: only a failure of the provider
    exchange whose class is neither [ValueError] nor [KeyError]. An unknown
    provider, an empty content and a token that names no agent all end in the
    default agent. *)
Lemma route_by_llm_raises_only_provider_errors
    (message : string) (llm_config : LLMConfig) (env : Env) (st : State) (e : exn) :
  fst (route_by_llm message llm_config env st) = Raised e ->
  in_strings (provider llm_config) SUPPORTED_PROVIDERS = true
  /\ llm_script env (llm_calls st) = ProviderFails e
  /\ is_ValueError e || is_KeyError e = false.
Proof.
  unfold route_by_llm, try_except, bind, chat, lift, ret.
  destruct (in_strings (provider llm_config) SUPPORTED_PROVIDERS); cbn.
  - destruct (llm_script env (llm_calls st)) as [e' | text]; cbn.
    + destruct (is_ValueError e' || is_KeyError e') eqn:Hc; cbn.
      * discriminate.
      * intros [= <-]. auto.
    + destruct (PyStr.truthy text); cbn.
      * destruct (AgentId_of_value _) as [a | e'] eqn:Ha; cbn; [discriminate |].
        unfold AgentId_of_value in Ha.
        destruct (find _ AgentId_members); [discriminate |].
        injection Ha as <-. cbn. discriminate.
      * discriminate.
  - discriminate.
Qed.

Lemma route_by_llm_unknown_provider
    (message : string) (llm_config : LLMConfig) (env : Env) (st : State) :
  in_strings (provider llm_config) SUPPORTED_PROVIDERS = false ->
  fst (route_by_llm message llm_config env st) = Returned STRATEGY.
Proof.
  intros Hp. unfold route_by_llm, try_except, bind, chat, ret.
  now rewrite Hp.
Qed.

Lemma route_by_llm_empty_content
    (message : string) (llm_config : LLMConfig) (env : Env) (st : State) :
  llm_script env (llm_calls st) = ProviderContent "" ->
  fst (route_by_llm message llm_config env st) = Returned STRATEGY.
Proof.
  intros Hs. unfold route_by_llm, try_except, bind, chat, ret.
  rewrite Hs. now destruct (in_strings (provider llm_config) SUPPORTED_PROVIDERS).
Qed.

(** C4 (the code at the failing input). When the exchange with a supported
    provider fails with an HTTP error, [route_by_llm] raises that error
    instead of returning the default agent: the [except] clause names
    [ValueError] and [KeyError] only. *)
Theorem route_by_llm_http_error_propagates
    (message : string) (llm_config : LLMConfig) (env : Env) (st : State) :
  in_strings (provider llm_config) SUPPORTED_PROVIDERS = true ->
  llm_script env (llm_calls st) = ProviderFails HTTPError ->
  fst (route_by_llm message llm_config env st) = Raised HTTPError.
Proof.
  intros Hp Hs. unfold route_by_llm, try_except, bind, chat.
  rewrite Hp, Hs. reflexivity.
Qed.

Lemma route_by_llm_http_error_propagates_witness :
  fst (route_by_llm "hello there" openai_config
         (mkEnv (fun _ => ProviderFails HTTPError)
                (fun _ _ _ => ToolReturns "ok" false)
                (fun _ => "0123456789abcdef0123456789abcdef")
                (fun _ _ => Returned "run the tool")
                (fun _ => Returned [])
                (fun _ _ => "You are an agent."))
         initial_state)
  = Raised HTTPError.
Proof.
  apply route_by_llm_http_error_propagates; reflexivity.
Defined.

(** ** Tool-call parser *)

(** A block whose text is not JSON is dropped. *)
Lemma parse_block_invalid_json_dropped `{JSON} (group1 : string)
    (rest : list string) (calls : list pyval) :
  json_loads (PyStr.strip group1) = Raised JSONDecodeError ->
  parse_blocks (group1 :: rest) calls = parse_blocks rest calls.
Proof.
  intros Hj. cbn. unfold parse_block. rewrite Hj. reflexivity.
Qed.

(** A block holding an object is kept exactly when it has both keys. *)
Lemma parse_block_object `{JSON} (group1 : string) (items : list (string * pyval)) :
  json_loads (PyStr.strip group1) = Returned (PDict items) ->
  parse_block group1 =
    Returned (match dict_get "name" items, dict_get "arguments" items with
              | Some _, Some _ => [PDict items]
              | _, _ => []
              end).
Proof.
  intros Hj. unfold parse_block. rewrite Hj. cbn.
  destruct (dict_get "name" items); [| reflexivity].
  destruct (dict_get "arguments" items); reflexivity.
Qed.

(** A block holding a JSON string that contains both words is taken for a
    tool call although it is not an object. *)
Lemma parse_block_string_payload `{JSON} (group1 s : string) :
  json_loads (PyStr.strip group1) = Returned (PStr s) ->
  PyStr.contains "name" s = true ->
  PyStr.contains "arguments" s = true ->
  parse_block group1 = Returned [PStr s].
Proof.
  intros Hj Hn Ha. unfold parse_block. rewrite Hj. cbn. rewrite Hn. cbn.
  now rewrite Ha.
Qed.

(** C6 (the code at the failing input). A fenced tool block whose payload
    is the JSON number 5 makes [parse_tool_calls] raise [TypeError]: the
    membership test on the decoded number is outside the classes the
    [except] clause catches. *)
Theorem parse_tool_calls_number_payload_raises `{JSON} :
  json_loads "5" = Returned (PInt 5) ->
  parse_tool_calls (tool_block "5") = Raised TypeError.
Proof.
  intros Hj. unfold parse_tool_calls.
  replace (tool_blocks (tool_block "5")) with ["5" ++ PyStr.nl]%string
    by (vm_compute; reflexivity).
  cbn [parse_blocks]. unfold parse_block.
  replace (PyStr.strip ("5" ++ PyStr.nl)) with "5" by (vm_compute; reflexivity).
  rewrite Hj. reflexivity.
Qed.

Lemma parse_tool_calls_number_payload_raises_witness :
  @parse_tool_calls reference_json (tool_block "5") = Raised TypeError.
Proof.
  apply (@parse_tool_calls_number_payload_raises reference_json).
  vm_compute. reflexivity.
Defined.

(** ** Knowledge retrieval: the cap *)

Lemma total_chars_app (l1 l2 : list RAGDocument) :
  total_chars (l1 ++ l2) = (total_chars l1 + total_chars l2)%Z.
Proof.
  induction l1 as [| d l1 IH]; [reflexivity |].
  cbn [app]. unfold total_chars in *. cbn [fold_right]. rewrite IH. lia.
Qed.

Lemma total_chars_nonneg (l : list RAGDocument) : (0 <= total_chars l)%Z.
Proof.
  induction l as [| d l IH]; [cbn; lia |].
  unfold total_chars in *. cbn [fold_right]. lia.
Qed.

(** The capping loop splits its input: what it appends is a prefix, the
    running total stays within the budget, and the document at which it
    stops would have gone past the budget. *)
Lemma cap_loop_split (max_chars : Z) (all_docs : list RAGDocument) :
  forall (total : Z) (capped : list RAGDocument),
  exists taken rest,
    all_docs = taken ++ rest
    /\ cap_loop max_chars total all_docs capped = capped ++ taken
    /\ ((total <= max_chars)%Z -> (total + total_chars taken <= max_chars)%Z)
    /\ match rest with
       | [] => True
       | d :: _ =>
           (total + total_chars taken
            + Z.of_nat (String.length (doc_content d)) > max_chars)%Z
       end.
Proof.
  induction all_docs as [| doc rest IH]; intros total capped.
  - exists [], []. cbn. rewrite app_nil_r. repeat split; try lia.
  - cbn [cap_loop].
    destruct (Z.gtb_spec (total + Z.of_nat (String.length (doc_content doc)))
                         max_chars) as [Hover | Hfits].
    + exists [], (doc :: rest). cbn. rewrite app_nil_r.
      repeat split; lia.
    + destruct (IH (total + Z.of_nat (String.length (doc_content doc)))%Z
                   (capped ++ [doc])) as (taken & rest' & Hsplit & Hcap & Hsum & Hstop).
      exists (doc :: taken), rest'. cbn [total_chars fold_right].
      fold (total_chars taken).
      split; [cbn; now rewrite Hsplit |].
      split; [rewrite Hcap, <- app_assoc; reflexivity |].
      split; [intros _; specialize (Hsum Hfits); lia |].
      destruct rest' as [| d ?]; [exact I | lia].
Qed.


(** When no keyword is extracted the function returns no document. *)
Lemma retrieve_context_no_keyword `{JSON} `{Config}
    (message : string) (llm_config : LLMConfig)
    (knowledge_docs : list (list (string * pyval))) (confluence_enabled : bool)
    (env : Env) (st st' : State) :
  sorted_candidates message llm_config knowledge_docs confluence_enabled env st
    = (Returned None, st') ->
  retrieve_context message llm_config knowledge_docs confluence_enabled env st
    = (Returned [], st').
Proof.
  intros Hs. unfold retrieve_context, bind. now rewrite Hs.
Qed.


(** ** Knowledge base search *)

Lemma Qgtb_true (x y : Q) : Qgtb x y = true <-> (y < x)%Q.
Proof.
  unfold Qgtb. rewrite negb_true_iff. split.
  - intros Hb. apply Qnot_le_lt. intros Hle.
    apply Qle_bool_iff in Hle. congruence.
  - intros Hlt. destruct (Qle_bool x y) eqn:Hb; [| reflexivity].
    apply Qle_bool_iff in Hb. exfalso. apply (Qlt_not_le _ _ Hlt Hb).
Qed.

Lemma Qgtb_false (x y : Q) : Qgtb x y = false <-> (x <= y)%Q.
Proof.
  unfold Qgtb. rewrite negb_false_iff. apply Qle_bool_iff.
Qed.





(** Every entry a document contributes has a positive score, which is the
    relevance of its document. *)
Lemma score_document_positive `{JSON} (keywords : list string)
    (doc : list (string * pyval)) (new : list (Q * RAGDocument)) :
  score_document keywords doc = Returned new ->
  Forall (fun p => (0 < fst p)%Q /\ relevance (snd p) = fst p) new.
Proof.
  unfold score_document.
  destruct (document_chunks doc) as [chunks | e]; cbn [obind]; [| discriminate].
  destruct (best_chunk_loop keywords chunks 0%Q "") as [[b c] | e];
    cbn [obind fst snd]; [| discriminate].
  destruct (Qgtb b 0%Q) eqn:Hgt.
  - destruct (as_str (get_default "source_type" doc (PStr "file")));
      cbn [obind]; [| discriminate].
    destruct (as_str (get_default "id" doc (PStr ""))); cbn [obind]; [| discriminate].
    destruct (as_str (get_default "source_name" doc (PStr "Unknown")));
      cbn [obind]; [| discriminate].
    intros [= <-]. constructor; [| constructor].
    cbn. split; [now apply Qgtb_true | reflexivity].
  - intros [= <-]. constructor.
Qed.

Lemma score_documents_positive `{JSON} (keywords : list string)
    (documents : list (list (string * pyval))) :
  forall (acc results : list (Q * RAGDocument)),
  Forall (fun p => (0 < fst p)%Q /\ relevance (snd p) = fst p) acc ->
  score_documents keywords documents acc = Returned results ->
  Forall (fun p => (0 < fst p)%Q /\ relevance (snd p) = fst p) results.
Proof.
  induction documents as [| doc rest IH]; intros acc results Hacc.
  - cbn. now intros [= <-].
  - cbn [score_documents].
    destruct (score_document keywords doc) as [new | e] eqn:Hdoc;
      cbn [obind]; [| discriminate].
    apply IH. apply Forall_app. split; [assumption |].
    now apply (score_document_positive keywords doc).
Qed.

Lemma In_insert_desc {A : Type} (key : A -> Q) (x y : A) (l : list A) :
  In y (insert_desc key x l) -> y = x \/ In y l.
Proof.
  induction l as [| z l IH]; cbn.
  - intros [<- | []]. now left.
  - destruct (Qgtb (key z) (key x)); cbn.
    + intros [<- | Hin]; [right; now left |].
      destruct (IH Hin); [now left | right; now right].
    + intros [<- | Hin]; [now left | now right].
Qed.

Lemma In_sort_desc {A : Type} (key : A -> Q) (y : A) (l : list A) :
  In y (sort_desc key l) -> In y l.
Proof.
  induction l as [| x l IH]; cbn; [tauto |].
  intros Hin. apply In_insert_desc in Hin as [-> | Hin]; [now left |].
  right. now apply IH.
Qed.

Lemma In_py_slice {A : Type} (l : list A) (start stop : Z) (y : A) :
  In y (py_slice l start stop) -> In y l.
Proof.
  unfold py_slice. intros Hin.
  set (lo := Z.to_nat (slice_bound (Z.of_nat (List.length l)) start)) in *.
  set (n := Z.to_nat _) in Hin.
  rewrite <- (firstn_skipn lo l). apply in_or_app. right.
  rewrite <- (firstn_skipn n (skipn lo l)). apply in_or_app. now left.
Qed.



(** ** Chunker *)

Lemma chunk_loop_fuel_mono (words : list string) (chunk_size overlap : Z) :
  forall (fuel fuel' : nat) (start : Z) (chunks result : list string),
  fuel <= fuel' ->
  chunk_loop fuel words chunk_size overlap start chunks = Some result ->
  chunk_loop fuel' words chunk_size overlap start chunks = Some result.
Proof.
  induction fuel as [| fuel IH]; intros fuel' start chunks result Hle.
  - cbn. destruct fuel'; cbn;
      destruct (start <? Z.of_nat (List.length words))%Z; congruence.
  - destruct fuel' as [| fuel']; [lia |].
    cbn. destruct (start <? Z.of_nat (List.length words))%Z; [| congruence].
    apply IH. lia.
Qed.

(** With a positive advance the loop ends within as many rounds as there
    are words left. *)
Lemma chunk_loop_terminates (words : list string) (chunk_size overlap : Z) :
  (overlap < chunk_size)%Z ->
  forall (fuel : nat) (start : Z) (chunks : list string),
  (Z.of_nat (List.length words) - start <= Z.of_nat fuel)%Z ->
  exists result,
    chunk_loop fuel words chunk_size overlap start chunks = Some result.
Proof.
  intros Hadv. induction fuel as [| fuel IH]; intros start chunks Hfuel.
  - cbn. destruct (Z.ltb_spec start (Z.of_nat (List.length words))); [lia |].
    now exists chunks.
  - cbn. destruct (Z.ltb_spec start (Z.of_nat (List.length words)));
      [| now exists chunks].
    apply IH. lia.
Qed.

(** Without a positive advance the loop never leaves a start position that
    is before the end of the words. *)
Lemma chunk_loop_diverges (words : list string) (chunk_size overlap : Z) :
  (chunk_size <= overlap)%Z ->
  forall (fuel : nat) (start : Z) (chunks : list string),
  (start < Z.of_nat (List.length words))%Z ->
  chunk_loop fuel words chunk_size overlap start chunks = None.
Proof.
  intros Hadv. induction fuel as [| fuel IH]; intros start chunks Hstart.
  - cbn. destruct (Z.ltb_spec start (Z.of_nat (List.length words))); [reflexivity | lia].
  - cbn. destruct (Z.ltb_spec start (Z.of_nat (List.length words))); [| lia].
    apply IH. lia.
Qed.

(** With an overlap smaller than the chunk size [chunk_text] returns, and
    as many rounds as the text has words are enough. *)
Lemma chunk_text_returns_when_advancing (text : string) (chunk_size overlap : Z) :
  (overlap < chunk_size)%Z ->
  exists chunks, forall fuel,
    List.length (PyStr.split text) <= fuel ->
    chunk_text fuel text chunk_size overlap = Some chunks.
Proof.
  intros Hadv. unfold chunk_text. set (words := PyStr.split text).
  destruct (Z.leb_spec (Z.of_nat (List.length words)) chunk_size).
  - eexists. intros. reflexivity.
  - destruct (chunk_loop_terminates words chunk_size overlap Hadv
                (List.length words) 0%Z []) as [result Hres]; [lia |].
    exists result. intros fuel Hfuel.
    now apply (chunk_loop_fuel_mono _ _ _ (List.length words)).
Qed.

(** C9 (counterexample). On the two-word text "a b" with a chunk size of
    one word and an overlap of one word, [chunk_text] returns for no amount
    of fuel: the advance is zero and nothing clamps it. *)
Lemma chunk_text_overlap_equal_size_loops :
  ~ exists fuel chunks, chunk_text fuel "a b" 1 1 = Some chunks.
Proof.
  intros (fuel & chunks & Hrun).
  unfold chunk_text in Hrun.
  replace (PyStr.split "a b") with ["a"; "b"] in Hrun by (vm_compute; reflexivity).
  cbn [List.length Z.of_nat] in Hrun.
  rewrite (chunk_loop_diverges ["a"; "b"] 1 1) in Hrun by (cbn; lia).
  cbn in Hrun. discriminate.
Qed.

(** C9 (amended). [chunk_text] returns at once when the text has at most
    [chunk_size] words; otherwise the loop advances by
    [chunk_size - overlap] words, without any clamp: it returns, within as
    many rounds as there are words, when the overlap is smaller than the
    chunk size, and it never returns when the overlap is at least the chunk
    size (and there is a word at all). *)
Theorem chunk_text_termination (text : string) (chunk_size overlap : Z) :
  let words := PyStr.split text in
  ((Z.of_nat (List.length words) <= chunk_size)%Z ->
   forall fuel, exists chunks, chunk_text fuel text chunk_size overlap = Some chunks)
  /\ ((overlap < chunk_size)%Z ->
      exists chunks, forall fuel,
        List.length words <= fuel ->
        chunk_text fuel text chunk_size overlap = Some chunks)
  /\ ((chunk_size <= overlap)%Z ->
      (chunk_size < Z.of_nat (List.length words))%Z ->
      words <> [] ->
      forall fuel, chunk_text fuel text chunk_size overlap = None).
Proof.
  intros words. split; [| split].
  - intros Hshort fuel. unfold chunk_text. fold words.
    destruct (Z.leb_spec (Z.of_nat (List.length words)) chunk_size); [| lia].
    eexists. reflexivity.
  - apply chunk_text_returns_when_advancing.
  - intros Hadv Hlong Hwords fuel. unfold chunk_text. fold words.
    destruct (Z.leb_spec (Z.of_nat (List.length words)) chunk_size); [lia |].
    apply chunk_loop_diverges; [lia |].
    destruct words; [congruence | cbn; lia].
Qed.

Lemma chunk_text_termination_witness :
  (exists chunks, forall fuel,
      List.length (PyStr.split "a b c d e f g") <= fuel ->
      chunk_text fuel "a b c d e f g" 3 1 = Some chunks)
  /\ (forall fuel, chunk_text fuel "a b c d e f g" 3 3 = None)
  /\ (forall fuel, exists chunks, chunk_text fuel "a b" 2 5 = Some chunks).
Proof.
  split; [| split].
  - apply (proj1 (proj2 (chunk_text_termination "a b c d e f g" 3 1))). lia.
  - apply (proj2 (proj2 (chunk_text_termination "a b c d e f g" 3 3))).
    + lia.
    + vm_compute. reflexivity.
    + vm_compute. discriminate.
  - apply (proj1 (chunk_text_termination "a b" 2 5)).
    vm_compute. discriminate.
Defined.

(** With the settings of config.py (500 words, 50 of overlap) every text
    is chunked. *)
Lemma chunk_text_default_settings (text : string) :
  exists chunks, forall fuel,
    List.length (PyStr.split text) <= fuel ->
    chunk_text fuel text KB_CHUNK_SIZE KB_CHUNK_OVERLAP = Some chunks.
Proof.
  apply chunk_text_returns_when_advancing.
  unfold KB_CHUNK_SIZE, KB_CHUNK_OVERLAP. lia.
Qed.

(** ** Reasoning about computations *)

Section Stable.

Variable R : State -> State -> Prop.
Hypothesis R_refl : forall st, R st st.
Hypothesis R_trans : forall st1 st2 st3, R st1 st2 -> R st2 st3 -> R st1 st3.

Lemma stable_ret {A : Type} (a : A) : stable R (ret a).
Proof. intros env st. apply R_refl. Qed.

Lemma stable_raise {A : Type} (e : exn) : stable R (@raise A e).
Proof. intros env st. apply R_refl. Qed.

Lemma stable_lift {A : Type} (o : outcome A) : stable R (lift o).
Proof. intros env st. apply R_refl. Qed.

Lemma stable_ask : stable R ask.
Proof. intros env st. apply R_refl. Qed.

Lemma stable_get_frame : stable R get_frame.
Proof. intros env st. apply R_refl. Qed.

Lemma stable_bind {A B : Type} (m : M A) (k : A -> M B) :
  stable R m -> (forall a, stable R (k a)) -> stable R (bind m k).
Proof.
  intros Hm Hk env st. unfold bind.
  specialize (Hm env st).
  destruct (m env st) as [[a | e] st1]; cbn in *.
  - eapply R_trans; [exact Hm | apply Hk].
  - exact Hm.
Qed.

Lemma stable_try_except {A : Type} (body handler : M A) (catches : exn -> bool) :
  stable R body -> stable R handler -> stable R (try_except body catches handler).
Proof.
  intros Hb Hh env st. unfold try_except.
  specialize (Hb env st).
  destruct (body env st) as [[a | e] st1]; cbn in *.
  - exact Hb.
  - destruct (catches e); cbn.
    + eapply R_trans; [exact Hb | apply Hh].
    + exact Hb.
Qed.

Lemma stable_if {A : Type} (b : bool) (m1 m2 : M A) :
  stable R m1 -> stable R m2 -> stable R (if b then m1 else m2).
Proof. destruct b; auto. Qed.

Lemma stable_for_range (body : Z -> M bool) :
  (forall i, stable R (body i)) ->
  forall n i, stable R (for_range n i body).
Proof.
  intros Hbody. induction n as [| n IH]; intros i; cbn [for_range].
  - apply stable_ret.
  - apply stable_bind; [apply Hbody |].
    intros [|]; [apply stable_ret | apply IH].
Qed.

End Stable.

Lemma same_runs_refl (st : State) : same_runs st st.
Proof. reflexivity. Qed.

Lemma same_runs_trans (st1 st2 st3 : State) :
  same_runs st1 st2 -> same_runs st2 st3 -> same_runs st1 st3.
Proof. unfold same_runs. congruence. Qed.

Lemma keeps_balance_refl (st : State) : keeps_balance st st.
Proof. intros H. exact H. Qed.

Lemma keeps_balance_trans (st1 st2 st3 : State) :
  keeps_balance st1 st2 -> keeps_balance st2 st3 -> keeps_balance st1 st3.
Proof. unfold keeps_balance. auto. Qed.

(** A step that leaves the locals alone keeps the balance. *)
Lemma same_frame_keeps_balance (st st' : State) :
  frame st' = frame st -> keeps_balance st st'.
Proof. intros Heq Hb. now rewrite Heq. Qed.

Create HintDb stable_db.

#[local] Hint Resolve same_runs_refl same_runs_trans
  keeps_balance_refl keeps_balance_trans : stable_db.

Lemma chat_same_runs config messages temperature max_tokens :
  stable same_runs (chat config messages temperature max_tokens).
Proof.
  intros env st. unfold chat, same_runs.
  destruct (in_strings _ _); [| reflexivity].
  destruct (llm_script env (llm_calls st)); [reflexivity |].
  destruct (PyStr.truthy text); reflexivity.
Qed.

Lemma chat_same_frame config messages temperature max_tokens env st :
  frame (snd (chat config messages temperature max_tokens env st)) = frame st.
Proof.
  unfold chat.
  destruct (in_strings _ _); [| reflexivity].
  destruct (llm_script env (llm_calls st)); [reflexivity |].
  destruct (PyStr.truthy text); reflexivity.
Qed.

Lemma chat_keeps_balance config messages temperature max_tokens :
  stable keeps_balance (chat config messages temperature max_tokens).
Proof.
  intros env st. apply same_frame_keeps_balance, chat_same_frame.
Qed.

Lemma execute_tool_same_runs name args : stable same_runs (execute_tool name args).
Proof. intros env st. reflexivity. Qed.

Lemma uuid4_hex_same_runs : stable same_runs uuid4_hex.
Proof. intros env st. reflexivity. Qed.

Lemma modify_frame_same_runs f : stable same_runs (modify_frame f).
Proof. intros env st. reflexivity. Qed.

Lemma set_frame_same_runs f : stable same_runs (set_frame f).
Proof. intros env st. reflexivity. Qed.

#[local] Hint Resolve chat_same_runs execute_tool_same_runs uuid4_hex_same_runs
  modify_frame_same_runs set_frame_same_runs chat_keeps_balance : stable_db.

(** Discharges a stability goal by following the structure of the
    computation. *)
Ltac stable_steps R_refl R_trans :=
  repeat first
    [ solve [ auto with stable_db ]
    | apply (stable_ret _ R_refl)
    | apply (stable_raise _ R_refl)
    | apply (stable_lift _ R_refl)
    | apply (stable_ask _ R_refl)
    | apply (stable_get_frame _ R_refl)
    | apply (stable_bind _ R_trans); [| intros ? ]
    | apply (stable_try_except _ R_trans)
    | match goal with
      | |- stable _ (match ?x with _ => _ end) => destruct x
      | |- stable _ (if ?b then _ else _) => destruct b
      | |- stable _ (let _ := _ in _) => cbv zeta
      end ].

(** ** Agentic loop: pending actions and pending records *)

Lemma count_pending_app (l1 l2 : list ToolExecution) :
  count_pending (l1 ++ l2) = count_pending l1 + count_pending l2.
Proof.
  unfold count_pending. now rewrite filter_app, length_app.
Qed.

Lemma count_pending_single (t : ToolExecution) :
  count_pending [t] = if String.eqb (te_status t) "pending" then 1 else 0.
Proof.
  unfold count_pending. cbn. now destruct (String.eqb (te_status t) "pending").
Qed.

(** What one tool call does to the two lists. An exception leaves them as
    they were. A Gate decision adds one pending action and one pending
    record; an Execute or Block decision adds one record that is not
    pending and no action. *)
Lemma process_tool_call_effect (agent : AgentId) (autonomy_level : AutonomyLevel)
    (emails stories : bool) (tc : pyval) (env : Env) (st : State) :
  let r := process_tool_call agent autonomy_level emails stories tc env st in
  match fst r with
  | Raised _ => frame (snd r) = frame st
  | Returned _ =>
      exists tool_name g t,
        py_getitem tc "name" = Returned tool_name
        /\ gate_of_call tool_name autonomy_level emails stories = Returned g
        /\ Locals.tools_executed (frame (snd r))
           = Locals.tools_executed (frame st) ++ [t]
        /\ match g with
           | GATE =>
               te_status t = "pending"
               /\ exists p,
                   pa_status p = "pending"
                   /\ Locals.pending_actions (frame (snd r))
                      = Locals.pending_actions (frame st) ++ [p]
           | EXECUTE =>
               (te_status t = "executed" \/ te_status t = "failed")
               /\ Locals.pending_actions (frame (snd r))
                  = Locals.pending_actions (frame st)
           | BLOCK =>
               te_status t = "blocked"
               /\ Locals.pending_actions (frame (snd r))
                  = Locals.pending_actions (frame st)
           end
  end.
Proof.
  unfold process_tool_call, bind, lift.
  destruct (py_getitem tc "name") as [tool_name | e]; [| reflexivity].
  destruct (py_getitem tc "arguments") as [tool_args | e]; [| reflexivity].
  destruct (gate_of_call tool_name autonomy_level emails stories) as [g | e] eqn:Hg;
    [| reflexivity].
  destruct g; unfold execute_tool, uuid4_hex, ask, raise; cbn.
  - destruct (tool_script env (tool_calls st) tool_name tool_args)
      as [result_content is_error | e]; [| reflexivity].
    destruct (as_str tool_name) as [name | e]; [| reflexivity].
    destruct (as_dict tool_args) as [args | e]; [| reflexivity].
    cbn. eexists tool_name, EXECUTE, _. repeat split; try reflexivity.
    all: cbn; destruct is_error; auto.
  - destruct (describe_tool_action env tool_name tool_args) as [description | e];
      [| reflexivity].
    destruct (as_str tool_name) as [name | e]; [| reflexivity].
    destruct (as_dict tool_args) as [args | e]; [| reflexivity].
    cbn. eexists tool_name, GATE, _. repeat split; try reflexivity; try exact Hg.
    eexists. split; [| reflexivity]. reflexivity.
  - destruct (describe_tool_action env tool_name tool_args) as [desc | e];
      [| reflexivity].
    destruct (as_str tool_name) as [name | e]; [| reflexivity].
    destruct (as_dict tool_args) as [args | e]; [| reflexivity].
    cbn. eexists tool_name, BLOCK, _. repeat split; try reflexivity; exact Hg.
Qed.

Lemma process_tool_call_keeps_balance agent autonomy_level emails stories tc :
  stable keeps_balance
         (process_tool_call agent autonomy_level emails stories tc).
Proof.
  intros env st Hbal.
  pose proof (process_tool_call_effect agent autonomy_level emails stories tc env st)
    as Heff.
  cbv zeta in Heff.
  destruct (fst (process_tool_call agent autonomy_level emails stories tc env st)).
  - destruct Heff as (tool_name & g & t & _ & _ & Htools & Hg).
    unfold pending_balanced in *. rewrite Htools, count_pending_app.
    rewrite count_pending_single.
    destruct g.
    + destruct Hg as [Hst Hpa]. rewrite Hpa, Hbal.
      destruct Hst as [-> | ->]; cbn; lia.
    + destruct Hg as [Hst (p & _ & Hpa)]. rewrite Hpa, length_app, Hbal, Hst.
      cbn. lia.
    + destruct Hg as [Hst Hpa]. rewrite Hpa, Hbal, Hst. cbn. lia.
  - unfold pending_balanced in *. now rewrite Heff.
Qed.

Lemma process_tool_calls_keeps_balance agent autonomy_level emails stories :
  forall calls parts,
  stable keeps_balance
         (process_tool_calls agent autonomy_level emails stories calls parts).
Proof.
  induction calls as [| tc rest IH]; intros parts; cbn [process_tool_calls].
  - apply stable_ret, keeps_balance_refl.
  - apply (stable_bind _ keeps_balance_trans).
    + apply process_tool_call_keeps_balance.
    + intros part. apply IH.
Qed.

Lemma append_messages_keeps_balance ms : stable keeps_balance (append_messages ms).
Proof. intros env st H. exact H. Qed.

Lemma set_final_content_keeps_balance s : stable keeps_balance (set_final_content s).
Proof. intros env st H. exact H. Qed.

Lemma set_iterations_keeps_balance n : stable keeps_balance (set_iterations n).
Proof. intros env st H. exact H. Qed.

Lemma log_loop_run_keeps_balance agent : stable keeps_balance (log_loop_run agent).
Proof. intros env st H. exact H. Qed.

#[local] Hint Resolve process_tool_calls_keeps_balance append_messages_keeps_balance
  set_final_content_keeps_balance set_iterations_keeps_balance
  log_loop_run_keeps_balance : stable_db.

Lemma iteration_keeps_balance `{JSON} agent llm_config temperature autonomy_level
    emails stories i :
  stable keeps_balance
         (iteration agent llm_config temperature autonomy_level emails stories i).
Proof.
  unfold iteration.
  stable_steps keeps_balance_refl keeps_balance_trans.
Qed.

(** A returned response is read off the final locals. *)
Lemma run_agent_loop_response `{JSON}
    (agent : AgentId) (name system_prompt user_message : string)
    (history : list ChatMessage) (llm_config : LLMConfig) (temperature : Q)
    (max_iterations : Z) (autonomy_level : AutonomyLevel) (emails stories : bool)
    (rag_docs : list RAGDocument) (env : Env) (st : State) (resp : AgentResponse) :
  let r := run_agent_loop agent name system_prompt user_message history llm_config
             temperature max_iterations autonomy_level emails stories rag_docs
             env st in
  fst r = Returned resp ->
  resp = mkAgentResponse agent name
           (Locals.final_content (frame (snd r)))
           (Locals.tools_executed (frame (snd r)))
           (Locals.pending_actions (frame (snd r)))
           (_detect_handoff (Locals.final_content (frame (snd r))))
           rag_docs (Locals.iterations (frame (snd r))).
Proof.
  unfold run_agent_loop, bind, log_loop_run, set_frame, get_frame, ret. cbn.
  destruct (for_range _ _ _ env _) as [[[] | e] st3]; cbn; [| discriminate].
  destruct (PyStr.truthy (Locals.final_content (frame st3))); cbn.
  - now intros [= <-].
  - unfold chat, set_final_content, modify_frame.
    destruct (in_strings _ _); cbn; [| discriminate].
    destruct (llm_script env (llm_calls st3)) as [e | text]; cbn; [discriminate |].
    destruct (PyStr.truthy text); cbn; [| discriminate].
    now intros [= <-].
Qed.

Lemma run_agent_loop_balanced `{JSON}
    (agent : AgentId) (name system_prompt user_message : string)
    (history : list ChatMessage) (llm_config : LLMConfig) (temperature : Q)
    (max_iterations : Z) (autonomy_level : AutonomyLevel) (emails stories : bool)
    (rag_docs : list RAGDocument) (env : Env) (st : State) :
  pending_balanced
    (frame (snd (run_agent_loop agent name system_prompt user_message history
                   llm_config temperature max_iterations autonomy_level
                   emails stories rag_docs env st))).
Proof.
  unfold run_agent_loop.
  unfold bind at 1. unfold log_loop_run at 1. cbv iota beta.
  unfold bind at 1. unfold set_frame at 1. cbv iota beta.
  match goal with
  | |- pending_balanced (frame (snd (?m env ?s))) =>
      assert (Hrest : stable keeps_balance m)
  end.
  { apply (stable_bind _ keeps_balance_trans).
    - apply (stable_for_range _ keeps_balance_refl keeps_balance_trans).
      intros i. apply iteration_keeps_balance.
    - intros _. stable_steps keeps_balance_refl keeps_balance_trans. }
  apply Hrest. reflexivity.
Qed.

(** C10. Each tool call keeps the number of pending actions equal to the
    number of execution records whose status is "pending", and so does each
    round of the loop; the equality holds in the locals at the end of every
    run of [run_agent_loop], returned or raised, and in the response it
    returns. A call that is gated adds one pending action with status
    "pending" and one record with status "pending"; a call that is executed
    or blocked adds one record with another status and no action; a call
    that raises adds nothing. *)
Theorem pending_actions_match_pending_records `{JSON}
    (agent : AgentId) (name system_prompt user_message : string)
    (history : list ChatMessage) (llm_config : LLMConfig) (temperature : Q)
    (max_iterations : Z) (autonomy_level : AutonomyLevel) (emails stories : bool)
    (rag_docs : list RAGDocument) (env : Env) (st : State) :
  let step := process_tool_call agent autonomy_level emails stories in
  let round := iteration agent llm_config temperature autonomy_level
                         emails stories in
  let run := run_agent_loop agent name system_prompt user_message history
               llm_config temperature max_iterations autonomy_level
               emails stories rag_docs env st in
  (forall tc st0,
      pending_balanced (frame st0) ->
      pending_balanced (frame (snd (step tc env st0))))
  /\ (forall i st0,
        pending_balanced (frame st0) ->
        pending_balanced (frame (snd (round i env st0))))
  /\ pending_balanced (frame (snd run))
  /\ (forall resp,
        fst run = Returned resp ->
        List.length (pending_actions resp) = count_pending (tools_executed resp))
  /\ (forall tc st0,
        match fst (step tc env st0) with
        | Raised _ => frame (snd (step tc env st0)) = frame st0
        | Returned _ =>
            exists tool_name g t,
              py_getitem tc "name" = Returned tool_name
              /\ gate_of_call tool_name autonomy_level emails stories = Returned g
              /\ Locals.tools_executed (frame (snd (step tc env st0)))
                 = Locals.tools_executed (frame st0) ++ [t]
              /\ match g with
                 | GATE =>
                     te_status t = "pending"
                     /\ exists p,
                         pa_status p = "pending"
                         /\ Locals.pending_actions (frame (snd (step tc env st0)))
                            = Locals.pending_actions (frame st0) ++ [p]
                 | EXECUTE =>
                     (te_status t = "executed" \/ te_status t = "failed")
                     /\ Locals.pending_actions (frame (snd (step tc env st0)))
                        = Locals.pending_actions (frame st0)
                 | BLOCK =>
                     te_status t = "blocked"
                     /\ Locals.pending_actions (frame (snd (step tc env st0)))
                        = Locals.pending_actions (frame st0)
                 end
        end).
Proof.
  intros step round run.
  split; [intros tc st0; apply process_tool_call_keeps_balance |].
  split; [intros i st0; apply iteration_keeps_balance |].
  split; [apply run_agent_loop_balanced |].
  split.
  - intros resp Hret.
    pose proof (run_agent_loop_balanced agent name system_prompt user_message
                  history llm_config temperature max_iterations autonomy_level
                  emails stories rag_docs env st) as Hbal.
    apply run_agent_loop_response in Hret. fold run in Hret, Hbal.
    rewrite Hret. exact Hbal.
  - intros tc st0. apply process_tool_call_effect.
Qed.

Lemma pending_actions_match_pending_records_witness :
  exists resp,
    fst (@run_agent_loop reference_json STRATEGY "Strategy Agent"
           "You are an agent." "file the story and look it up" []
           openai_config (3 # 10) 5 OVERSIGHT false false []
           (scripted_env [tool_block (call_json "jira_create_issue");
                          tool_block (call_json "jira_get_issue")]
                         "Both done.")
           initial_state)
    = Returned resp
    /\ List.length (pending_actions resp) = count_pending (tools_executed resp)
    /\ List.length (pending_actions resp) = 1
    /\ List.length (tools_executed resp) = 2.
Proof.
  eexists. split; [vm_compute; reflexivity |].
  split; [| split; reflexivity].
  apply (proj1 (proj2 (proj2 (proj2
           (@pending_actions_match_pending_records reference_json
              STRATEGY "Strategy Agent" "You are an agent."
              "file the story and look it up" [] openai_config (3 # 10) 5
              OVERSIGHT false false []
              (scripted_env [tool_block (call_json "jira_create_issue");
                             tool_block (call_json "jira_get_issue")]
                            "Both done.")
              initial_state))))).
  vm_compute. reflexivity.
Defined.

(** ** Chat endpoint: handoff *)

Lemma AgentId_eqb_eq (a b : AgentId) : AgentId_eqb a b = true <-> a = b.
Proof.
  destruct a, b; vm_compute; split; congruence.
Qed.

Lemma append_tool_execution_same_runs t : stable same_runs (append_tool_execution t).
Proof. intros env st. reflexivity. Qed.

Lemma append_pending_action_same_runs a : stable same_runs (append_pending_action a).
Proof. intros env st. reflexivity. Qed.

Lemma append_messages_same_runs ms : stable same_runs (append_messages ms).
Proof. intros env st. reflexivity. Qed.

Lemma set_final_content_same_runs s : stable same_runs (set_final_content s).
Proof. intros env st. reflexivity. Qed.

Lemma set_iterations_same_runs n : stable same_runs (set_iterations n).
Proof. intros env st. reflexivity. Qed.

#[local] Hint Resolve append_tool_execution_same_runs
  append_pending_action_same_runs append_messages_same_runs
  set_final_content_same_runs set_iterations_same_runs : stable_db.

Lemma process_tool_call_same_runs agent autonomy_level emails stories tc :
  stable same_runs (process_tool_call agent autonomy_level emails stories tc).
Proof.
  unfold process_tool_call. stable_steps same_runs_refl same_runs_trans.
Qed.

Lemma process_tool_calls_same_runs agent autonomy_level emails stories :
  forall calls parts,
  stable same_runs
         (process_tool_calls agent autonomy_level emails stories calls parts).
Proof.
  induction calls as [| tc rest IH]; intros parts; cbn [process_tool_calls].
  - apply stable_ret, same_runs_refl.
  - apply (stable_bind _ same_runs_trans).
    + apply process_tool_call_same_runs.
    + intros part. apply IH.
Qed.

#[local] Hint Resolve process_tool_calls_same_runs : stable_db.

Lemma iteration_same_runs `{JSON} agent llm_config temperature autonomy_level
    emails stories i :
  stable same_runs
         (iteration agent llm_config temperature autonomy_level emails stories i).
Proof.
  unfold iteration. stable_steps same_runs_refl same_runs_trans.
Qed.

(** One activation of the loop adds exactly its own entry to the log,
    whether it returns or raises. *)
Lemma run_agent_loop_logs_once `{JSON}
    (agent : AgentId) (name system_prompt user_message : string)
    (history : list ChatMessage) (llm_config : LLMConfig) (temperature : Q)
    (max_iterations : Z) (autonomy_level : AutonomyLevel) (emails stories : bool)
    (rag_docs : list RAGDocument) (env : Env) (st : State) :
  loop_runs (snd (run_agent_loop agent name system_prompt user_message history
                    llm_config temperature max_iterations autonomy_level
                    emails stories rag_docs env st))
  = loop_runs st ++ [agent].
Proof.
  unfold run_agent_loop.
  unfold bind at 1. unfold log_loop_run at 1. cbv iota beta.
  unfold bind at 1. unfold set_frame at 1. cbv iota beta.
  match goal with
  | |- loop_runs (snd (?m env ?s)) = _ =>
      assert (Hrest : stable same_runs m)
  end.
  { apply (stable_bind _ same_runs_trans).
    - apply (stable_for_range _ same_runs_refl same_runs_trans).
      intros i. apply iteration_same_runs.
    - intros _. stable_steps same_runs_refl same_runs_trans. }
  rewrite Hrest. reflexivity.
Qed.

Lemma route_message_same_runs message llm_config explicit_agent :
  stable same_runs (route_message message llm_config explicit_agent).
Proof.
  unfold route_message, route_by_llm.
  stable_steps same_runs_refl same_runs_trans.
Qed.

Lemma retrieve_context_same_runs `{JSON} `{Config} message llm_config
    knowledge_docs confluence_enabled :
  stable same_runs
         (retrieve_context message llm_config knowledge_docs confluence_enabled).
Proof.
  unfold retrieve_context, sorted_candidates, extract_keywords.
  stable_steps same_runs_refl same_runs_trans.
Qed.

(** The activations of the loop during one chat request: none when routing
    or retrieval raises; otherwise the routed agent, then the handoff
    target when one is followed. *)
Lemma agent_chat_runs `{JSON} `{Config}
    (request : AgentChatRequest) (env : Env) (st : State) :
  loop_runs (snd (agent_chat request env st)) = loop_runs st ++
    match route_message (req_message request) (req_llm_config request)
                        (req_agent_id request) env st with
    | (Returned routed, st1) =>
        match retrieve_context (req_message request) (req_llm_config request)
                (req_knowledge_docs request) (req_confluence_enabled request)
                env st1 with
        | (Returned rag_docs, st2) =>
            match followed_handoff routed
                    (fst (first_run request routed rag_docs env st2)) with
            | Some target => [routed; target]
            | None => [routed]
            end
        | (Raised _, _) => []
        end
    | (Raised _, _) => []
    end.
Proof.
  unfold agent_chat. unfold bind at 1.
  pose proof (route_message_same_runs (req_message request)
                (req_llm_config request) (req_agent_id request) env st) as Hroute.
  destruct (route_message _ _ _ env st) as [[routed | e] st1]; cbn in Hroute;
    [| cbn; rewrite Hroute; now rewrite app_nil_r].
  unfold bind at 1.
  pose proof (retrieve_context_same_runs (req_message request)
                (req_llm_config request) (req_knowledge_docs request)
                (req_confluence_enabled request) env st1) as Hretr.
  destruct (retrieve_context _ _ _ _ env st1) as [[rag_docs | e] st2];
    cbn in Hretr;
    [| cbn; rewrite Hretr, Hroute; now rewrite app_nil_r].
  unfold bind at 1. unfold ask at 1. cbv iota beta.
  unfold bind at 1. unfold first_run.
  match goal with
  | |- context [run_agent_loop routed ?n ?sp ?um ?h ?c ?t ?m ?l ?a ?b rag_docs env st2] =>
      pose proof (run_agent_loop_logs_once routed n sp um h c t m l a b
                    rag_docs env st2) as Hfirst;
      destruct (run_agent_loop routed n sp um h c t m l a b rag_docs env st2)
        as [[result | e] st3]
  end; cbn in Hfirst; cbn [fst snd followed_handoff].
  2: { rewrite Hfirst, Hretr, Hroute. reflexivity. }
  unfold bind at 1.
  destruct (handoff_to result) as [target |].
  2: { cbn. rewrite Hfirst, Hretr, Hroute. reflexivity. }
  destruct (AgentId_eqb target routed); cbn [negb].
  { cbn. rewrite Hfirst, Hretr, Hroute. reflexivity. }
  unfold bind at 1.
  match goal with
  | |- context [run_agent_loop target ?n ?sp ?um ?h ?c ?t ?m ?l ?a ?b rag_docs env st3] =>
      pose proof (run_agent_loop_logs_once target n sp um h c t m l a b
                    rag_docs env st3) as Hsecond;
      destruct (run_agent_loop target n sp um h c t m l a b rag_docs env st3)
        as [[handoff_result | e] st4]
  end; cbn in Hsecond; cbn.
  - rewrite Hsecond, Hfirst, Hretr, Hroute, <- app_assoc. reflexivity.
  - rewrite Hsecond, Hfirst, Hretr, Hroute, <- app_assoc. reflexivity.
Qed.

(** C7. During one chat request the loop is activated at most twice. Once
    routing and retrieval have returned, the first activation is for the
    routed agent; a second activation takes place exactly when the first
    returns a result whose handoff target is another agent, and it is for
    that target. Whatever the second result names, no third activation
    follows. *)
Theorem agent_chat_single_hop `{JSON} `{Config}
    (request : AgentChatRequest) (env : Env) (st : State) :
  (exists runs,
      loop_runs (snd (agent_chat request env st)) = loop_runs st ++ runs
      /\ List.length runs <= 2)
  /\ (forall routed st1 rag_docs st2,
        route_message (req_message request) (req_llm_config request)
                      (req_agent_id request) env st = (Returned routed, st1) ->
        retrieve_context (req_message request) (req_llm_config request)
          (req_knowledge_docs request) (req_confluence_enabled request) env st1
          = (Returned rag_docs, st2) ->
        (loop_runs (snd (agent_chat request env st)) = loop_runs st ++ [routed]
         \/ exists target,
             loop_runs (snd (agent_chat request env st))
             = loop_runs st ++ [routed; target])
        /\ (forall target,
              loop_runs (snd (agent_chat request env st))
              = loop_runs st ++ [routed; target]
              <-> exists result,
                    fst (first_run request routed rag_docs env st2) = Returned result
                    /\ handoff_to result = Some target
                    /\ target <> routed)).
Proof.
  pose proof (agent_chat_runs request env st) as Hruns.
  split.
  - eexists. split; [exact Hruns |].
    destruct (route_message _ _ _ env st) as [[routed | e] st1]; [| cbn; lia].
    destruct (retrieve_context _ _ _ _ env st1) as [[rag_docs | e] st2]; [| cbn; lia].
    destruct (followed_handoff _ _); cbn; lia.
  - intros routed st1 rag_docs st2 Hroute Hretr.
    rewrite Hroute, Hretr in Hruns.
    split.
    + destruct (followed_handoff _ _) as [target |]; [right; now exists target | now left].
    + intros target. rewrite Hruns. split.
      * intros Heq. apply app_inv_head in Heq.
        unfold followed_handoff in Heq.
        destruct (fst (first_run request routed rag_docs env st2))
          as [result | e]; [| discriminate].
        destruct (handoff_to result) as [t |] eqn:Hto; [| discriminate].
        destruct (AgentId_eqb t routed) eqn:Hsame; [discriminate |].
        injection Heq as <-. exists result.
        split; [reflexivity |]. split; [exact Hto |].
        intros ->. rewrite (proj2 (AgentId_eqb_eq routed routed) eq_refl) in Hsame.
        discriminate.
      * intros (result & Hres & Hto & Hne). rewrite Hres. cbn. rewrite Hto.
        destruct (AgentId_eqb target routed) eqn:Hsame; [| reflexivity].
        apply AgentId_eqb_eq in Hsame. contradiction.
Qed.

Lemma agent_chat_single_hop_witness :
  loop_runs (snd (@agent_chat reference_json default_config strategy_request
                    handoff_chain_env initial_state))
  = loop_runs initial_state ++ [STRATEGY; RISK].
Proof.
  pose proof (proj2 (@agent_chat_single_hop reference_json default_config
                       strategy_request handoff_chain_env initial_state)
                STRATEGY initial_state [] (mkState 1 0 0 [] Locals.empty)) as Hhop.
  destruct Hhop as [_ Hiff]; [reflexivity | vm_compute; reflexivity |].
  apply (proj2 (Hiff RISK)).
  eexists. split; [vm_compute; reflexivity |].
  split; [reflexivity | discriminate].
Defined.

(** The second result names the advisor, and the advisor is not run. *)
Lemma agent_chat_second_handoff_ignored :
  loop_runs (snd (@agent_chat reference_json default_config strategy_request
                    handoff_chain_env initial_state))
  = [STRATEGY; RISK]
  /\ llm_calls (snd (@agent_chat reference_json default_config strategy_request
                        handoff_chain_env initial_state)) = 3.
Proof.
  vm_compute. split; reflexivity.
Qed.

(** ** Agentic loop: termination and iteration count *)

Lemma same_llm_calls_refl (st : State) : same_llm_calls st st.
Proof. reflexivity. Qed.

Lemma same_llm_calls_trans (st1 st2 st3 : State) :
  same_llm_calls st1 st2 -> same_llm_calls st2 st3 -> same_llm_calls st1 st3.
Proof. unfold same_llm_calls. congruence. Qed.

Lemma same_answer_refl (st : State) : same_answer st st.
Proof. split; reflexivity. Qed.

Lemma same_answer_trans (st1 st2 st3 : State) :
  same_answer st1 st2 -> same_answer st2 st3 -> same_answer st1 st3.
Proof. unfold same_answer. intros [? ?] [? ?]. split; congruence. Qed.

Lemma execute_tool_same_llm_calls name args :
  stable same_llm_calls (execute_tool name args).
Proof. intros env st. reflexivity. Qed.

Lemma uuid4_hex_same_llm_calls : stable same_llm_calls uuid4_hex.
Proof. intros env st. reflexivity. Qed.

Lemma modify_frame_same_llm_calls f : stable same_llm_calls (modify_frame f).
Proof. intros env st. reflexivity. Qed.

Lemma execute_tool_same_answer name args : stable same_answer (execute_tool name args).
Proof. intros env st. split; reflexivity. Qed.

Lemma uuid4_hex_same_answer : stable same_answer uuid4_hex.
Proof. intros env st. split; reflexivity. Qed.

Lemma append_tool_execution_same_answer t :
  stable same_answer (append_tool_execution t).
Proof. intros env st. split; reflexivity. Qed.

Lemma append_pending_action_same_answer a :
  stable same_answer (append_pending_action a).
Proof. intros env st. split; reflexivity. Qed.

Lemma append_messages_same_answer ms : stable same_answer (append_messages ms).
Proof. intros env st. split; reflexivity. Qed.

#[local] Hint Resolve execute_tool_same_llm_calls uuid4_hex_same_llm_calls
  modify_frame_same_llm_calls execute_tool_same_answer uuid4_hex_same_answer
  append_tool_execution_same_answer append_pending_action_same_answer
  append_messages_same_answer : stable_db.

Lemma process_tool_calls_same_llm_calls agent autonomy_level emails stories :
  forall calls parts,
  stable same_llm_calls
         (process_tool_calls agent autonomy_level emails stories calls parts).
Proof.
  induction calls as [| tc rest IH]; intros parts; cbn [process_tool_calls].
  - apply stable_ret, same_llm_calls_refl.
  - apply (stable_bind _ same_llm_calls_trans).
    + unfold process_tool_call, append_tool_execution, append_pending_action.
      stable_steps same_llm_calls_refl same_llm_calls_trans.
    + intros part. apply IH.
Qed.

Lemma process_tool_calls_same_answer agent autonomy_level emails stories :
  forall calls parts,
  stable same_answer
         (process_tool_calls agent autonomy_level emails stories calls parts).
Proof.
  induction calls as [| tc rest IH]; intros parts; cbn [process_tool_calls].
  - apply stable_ret, same_answer_refl.
  - apply (stable_bind _ same_answer_trans).
    + unfold process_tool_call.
      stable_steps same_answer_refl same_answer_trans.
    + intros part. apply IH.
Qed.

(** The outcome of [chat] depends on the state through the call count only,
    and [chat] changes nothing else. *)
Lemma chat_outcome config messages temperature max_tokens env st :
  chat config messages temperature max_tokens env st =
    (fst (chat config messages temperature max_tokens env st),
     mkState (S (llm_calls st)) (tool_calls st) (uuid_calls st)
             (loop_runs st) (frame st)).
Proof.
  unfold chat. destruct (in_strings _ _); [| reflexivity].
  destruct (llm_script env (llm_calls st)) as [e | text]; [reflexivity |].
  destruct (PyStr.truthy text); reflexivity.
Qed.







(** A run is the [for] loop followed by the closing steps, started in
    [loop_start]. *)
Lemma run_agent_loop_from_start `{JSON}
    (agent : AgentId) (name system_prompt user_message : string)
    (history : list ChatMessage) (llm_config : LLMConfig) (temperature : Q)
    (max_iterations : Z) (autonomy_level : AutonomyLevel) (emails stories : bool)
    (rag_docs : list RAGDocument) (env : Env) (st : State) :
  run_agent_loop agent name system_prompt user_message history llm_config
    temperature max_iterations autonomy_level emails stories rag_docs env st
  = (for_range (Z.to_nat max_iterations) 0%Z
               (iteration agent llm_config temperature autonomy_level
                          emails stories) ;;;
     f <- get_frame ;;
     (if PyStr.truthy (Locals.final_content f) then ret tt
      else
        final_text <- chat llm_config (Locals.messages f) temperature 4096 ;;
        set_final_content (strip_tool_blocks final_text)) ;;;
     f <- get_frame ;;
     ret (mkAgentResponse agent name (Locals.final_content f)
                          (Locals.tools_executed f) (Locals.pending_actions f)
                          (_detect_handoff (Locals.final_content f))
                          rag_docs (Locals.iterations f)))
      env (loop_start st agent system_prompt user_message history).
Proof. reflexivity. Qed.



(** ** Tool-call parser: the well-behaved inputs *)

(** When every block is either not JSON or a JSON object, the parser
    returns, in order, the objects that have both keys. *)
Lemma parse_blocks_objects `{JSON} (blocks : list string) :
  Forall (fun g =>
            json_loads (PyStr.strip g) = Raised JSONDecodeError
            \/ exists items, json_loads (PyStr.strip g) = Returned (PDict items))
         blocks ->
  forall calls,
    parse_blocks blocks calls = Returned (calls ++ flat_map kept_call blocks).
Proof.
  induction 1 as [| g rest Hg _ IH]; intros calls.
  - cbn. now rewrite app_nil_r.
  - cbn [parse_blocks flat_map]. unfold kept_call at 1.
    destruct Hg as [Hbad | [items Hobj]].
    + unfold parse_block. rewrite Hbad. cbn. apply IH.
    + rewrite (parse_block_object g items Hobj), Hobj.
      rewrite IH, app_assoc. reflexivity.
Qed.

(** A block whose payload is a JSON string holding both words is passed on
    as a tool call, and the loop raises when it indexes it. *)
Lemma run_agent_loop_string_payload_raises :
  @parse_tool_calls reference_json
     (tool_block (PyStr.dq ++ "name arguments" ++ PyStr.dq))
  = Returned [PStr "name arguments"]
  /\ fst (example_run 5
            (scripted_env [tool_block (PyStr.dq ++ "name arguments" ++ PyStr.dq)]
                          "Done.")
            initial_state)
     = Raised TypeError.
Proof.
  split; vm_compute; reflexivity.
Qed.

(** ** Agentic loop: what one tool call does *)

Lemma as_str_inv (v : pyval) (s : string) : as_str v = Returned s -> v = PStr s.
Proof. destruct v; cbn; congruence. Qed.

Lemma as_dict_inv (v : pyval) (d : list (string * pyval)) :
  as_dict v = Returned d -> v = PDict d.
Proof. destruct v; cbn; congruence. Qed.

(** The complete effect of one tool call. When it raises, the locals and
    the count of model calls are as before. When it returns, the call was an
    object with a str name and dict arguments, and the state is changed
    according to the gate decision for that name. *)
Lemma process_tool_call_cases (agent : AgentId) (autonomy_level : AutonomyLevel)
    (emails stories : bool) (tc : pyval) (env : Env) (st : State) :
  match process_tool_call agent autonomy_level emails stories tc env st with
  | (Raised _, st') =>
      frame st' = frame st /\ llm_calls st' = llm_calls st
      /\ loop_runs st' = loop_runs st
  | (Returned _, st') =>
      exists name args,
        py_getitem tc "name" = Returned (PStr name)
        /\ py_getitem tc "arguments" = Returned (PDict args)
        /\ llm_calls st' = llm_calls st
        /\ loop_runs st' = loop_runs st
        /\ Locals.messages (frame st') = Locals.messages (frame st)
        /\ match check_autonomy_gate name autonomy_level emails stories with
           | EXECUTE =>
               exists result_content is_error,
                 tool_script env (tool_calls st) (PStr name) (PDict args)
                   = ToolReturns result_content is_error
                 /\ tool_calls st' = S (tool_calls st)
                 /\ uuid_calls st' = uuid_calls st
                 /\ Locals.tools_executed (frame st')
                    = Locals.tools_executed (frame st)
                      ++ [mkToolExecution name args (Some result_content)
                            (if is_error then "failed" else "executed")]
                 /\ Locals.pending_actions (frame st')
                    = Locals.pending_actions (frame st)
           | GATE =>
               exists description,
                 describe_tool_action env (PStr name) (PDict args)
                   = Returned description
                 /\ tool_calls st' = tool_calls st
                 /\ uuid_calls st' = S (uuid_calls st)
                 /\ Locals.tools_executed (frame st')
                    = Locals.tools_executed (frame st)
                      ++ [mkToolExecution name args None "pending"]
                 /\ Locals.pending_actions (frame st')
                    = Locals.pending_actions (frame st)
                      ++ [mkPendingAction
                            ("pa_" ++ PyStr.take 12 (uuid_script env (uuid_calls st)))
                            agent name args description "pending"]
           | BLOCK =>
               tool_calls st' = tool_calls st
               /\ uuid_calls st' = uuid_calls st
               /\ Locals.tools_executed (frame st')
                  = Locals.tools_executed (frame st)
                    ++ [mkToolExecution name args None "blocked"]
               /\ Locals.pending_actions (frame st')
                  = Locals.pending_actions (frame st)
           end
  end.
Proof.
  unfold process_tool_call, bind, lift.
  destruct (py_getitem tc "name") as [tool_name | e]; [| repeat split].
  destruct (py_getitem tc "arguments") as [tool_args | e]; [| repeat split].
  destruct (gate_of_call tool_name autonomy_level emails stories) as [g | e] eqn:Hg;
    [| repeat split].
  destruct g; unfold execute_tool, uuid4_hex, ask, raise; cbn.
  - destruct (tool_script env (tool_calls st) tool_name tool_args)
      as [result_content is_error | e] eqn:Hreply; [| repeat split].
    destruct (as_str tool_name) as [name | e] eqn:Hn; [| repeat split].
    destruct (as_dict tool_args) as [args | e] eqn:Ha; [| repeat split].
    apply as_str_inv in Hn. apply as_dict_inv in Ha. subst.
    cbn in Hg. injection Hg as Hg. cbn.
    exists name, args. rewrite Hg. repeat split.
    exists result_content, is_error. repeat split. exact Hreply.
  - destruct (describe_tool_action env tool_name tool_args)
      as [description | e] eqn:Hd; [| repeat split].
    destruct (as_str tool_name) as [name | e] eqn:Hn; [| repeat split].
    destruct (as_dict tool_args) as [args | e] eqn:Ha; [| repeat split].
    apply as_str_inv in Hn. apply as_dict_inv in Ha. subst.
    cbn in Hg. injection Hg as Hg. cbn.
    exists name, args. rewrite Hg. repeat split.
    exists description. repeat split. exact Hd.
  - destruct (describe_tool_action env tool_name tool_args)
      as [description | e] eqn:Hd; [| repeat split].
    destruct (as_str tool_name) as [name | e] eqn:Hn; [| repeat split].
    destruct (as_dict tool_args) as [args | e] eqn:Ha; [| repeat split].
    apply as_str_inv in Hn. apply as_dict_inv in Ha. subst.
    cbn in Hg. injection Hg as Hg. cbn.
    exists name, args. rewrite Hg. repeat split.
Qed.

(** ** Agentic loop: properties of the records kept by every step *)

Section RecordsInvariant.

Context `{JSON}.
Variable I : list ToolExecution -> list PendingAction -> Prop.
Variables (agent : AgentId) (autonomy_level : AutonomyLevel) (emails stories : bool).

Hypothesis step_keeps :
  forall tc, stable (keeps I)
                    (process_tool_call agent autonomy_level emails stories tc).

Lemma keeps_refl (st : State) : keeps I st st.
Proof. intros Hi. exact Hi. Qed.

Lemma keeps_trans (st1 st2 st3 : State) :
  keeps I st1 st2 -> keeps I st2 st3 -> keeps I st1 st3.
Proof. unfold keeps. auto. Qed.

Lemma same_frame_keeps (st st' : State) : frame st' = frame st -> keeps I st st'.
Proof. intros Heq Hi. now rewrite Heq. Qed.

Lemma chat_keeps config messages temperature max_tokens :
  stable (keeps I) (chat config messages temperature max_tokens).
Proof. intros env st. apply same_frame_keeps, chat_same_frame. Qed.

Lemma process_tool_calls_keeps :
  forall calls parts,
  stable (keeps I)
         (process_tool_calls agent autonomy_level emails stories calls parts).
Proof.
  induction calls as [| tc rest IH]; intros parts; cbn [process_tool_calls].
  - apply stable_ret, keeps_refl.
  - apply (stable_bind _ keeps_trans); [apply step_keeps | intros part; apply IH].
Qed.

Lemma iteration_keeps llm_config temperature i :
  stable (keeps I)
         (iteration agent llm_config temperature autonomy_level emails stories i).
Proof.
  unfold iteration.
  apply (stable_bind _ keeps_trans); [intros env st Hi; exact Hi | intros _].
  apply (stable_bind _ keeps_trans); [apply stable_get_frame, keeps_refl | intros f].
  apply (stable_bind _ keeps_trans); [apply chat_keeps | intros response_text].
  apply (stable_bind _ keeps_trans); [apply stable_lift, keeps_refl | intros calls].
  destruct calls as [| tc rest].
  - apply (stable_bind _ keeps_trans); [intros env st Hi; exact Hi | intros _].
    apply stable_ret, keeps_refl.
  - apply (stable_bind _ keeps_trans); [apply process_tool_calls_keeps | intros parts].
    apply (stable_bind _ keeps_trans); [intros env st Hi; exact Hi | intros _].
    apply stable_ret, keeps_refl.
Qed.

(** A property that holds of two empty lists and is kept by every tool
    call holds at the end of every run, and of every response returned. *)
Lemma run_agent_loop_keeps
    (name system_prompt user_message : string) (history : list ChatMessage)
    (llm_config : LLMConfig) (temperature : Q) (max_iterations : Z)
    (rag_docs : list RAGDocument) (env : Env) (st : State) :
  I [] [] ->
  let run := run_agent_loop agent name system_prompt user_message history
               llm_config temperature max_iterations autonomy_level
               emails stories rag_docs env st in
  I (Locals.tools_executed (frame (snd run)))
    (Locals.pending_actions (frame (snd run)))
  /\ forall resp, fst run = Returned resp ->
                  I (tools_executed resp) (pending_actions resp).
Proof.
  intros Hinit run.
  assert (Hfinal : I (Locals.tools_executed (frame (snd run)))
                     (Locals.pending_actions (frame (snd run)))).
  { unfold run. rewrite run_agent_loop_from_start.
    match goal with
    | |- I (Locals.tools_executed (frame (snd (?m env ?s)))) _ =>
        assert (Hrest : stable (keeps I) m)
    end.
    { apply (stable_bind _ keeps_trans).
      - apply (stable_for_range _ keeps_refl keeps_trans).
        intros i. apply iteration_keeps.
      - intros _.
        apply (stable_bind _ keeps_trans);
          [apply stable_get_frame, keeps_refl | intros f].
        apply (stable_bind _ keeps_trans).
        + destruct (PyStr.truthy (Locals.final_content f)).
          * apply stable_ret, keeps_refl.
          * apply (stable_bind _ keeps_trans); [apply chat_keeps | intros t].
            intros env' st' Hi. exact Hi.
        + intros _.
          apply (stable_bind _ keeps_trans);
            [apply stable_get_frame, keeps_refl | intros f'].
          apply stable_ret, keeps_refl. }
    apply Hrest. exact Hinit. }
  split; [exact Hfinal |].
  intros resp Hret. apply run_agent_loop_response in Hret.
  fold run in Hret. rewrite Hret. exact Hfinal.
Qed.

End RecordsInvariant.

Lemma status_if_error_invoked (is_error : bool) :
  (String.eqb (if is_error then "failed" else "executed") "executed"
   || String.eqb (if is_error then "failed" else "executed") "failed") = true.
Proof. destruct is_error; reflexivity. Qed.

Lemma process_tool_call_follows_gate agent autonomy_level emails stories tc :
  stable (keeps (fun records _ =>
                   records_follow_gate autonomy_level emails stories records))
         (process_tool_call agent autonomy_level emails stories tc).
Proof.
  intros env st Hi.
  pose proof (process_tool_call_cases agent autonomy_level emails stories tc env st)
    as Hcases.
  destruct (process_tool_call agent autonomy_level emails stories tc env st)
    as [[part | e] st']; cbn [snd].
  - destruct Hcases as (name & args & _ & _ & _ & _ & _ & Hg).
    unfold records_follow_gate in *.
    destruct (check_autonomy_gate name autonomy_level emails stories) eqn:Hgate.
    + destruct Hg as (content & is_error & _ & _ & _ & -> & _).
      apply Forall_app. split; [exact Hi |]. constructor; [| constructor].
      cbn. rewrite Hgate. cbn. apply status_if_error_invoked.
    + destruct Hg as (description & _ & _ & _ & -> & _).
      apply Forall_app. split; [exact Hi |]. constructor; [| constructor].
      cbn. now rewrite Hgate.
    + destruct Hg as (_ & _ & -> & _).
      apply Forall_app. split; [exact Hi |]. constructor; [| constructor].
      cbn. now rewrite Hgate.
  - destruct Hcases as (-> & _). exact Hi.
Qed.

(** X1. In every run of the loop, returned or raised, each execution record
    carries the status of the gate decision for its tool at the run's
    autonomy level and preferences: "executed" or "failed" for Execute,
    "pending" for Gate, "blocked" for Block. The same holds of the records
    of a returned response. *)
Theorem run_agent_loop_records_follow_gate `{JSON}
    (agent : AgentId) (name system_prompt user_message : string)
    (history : list ChatMessage) (llm_config : LLMConfig) (temperature : Q)
    (max_iterations : Z) (autonomy_level : AutonomyLevel) (emails stories : bool)
    (rag_docs : list RAGDocument) (env : Env) (st : State) :
  let run := run_agent_loop agent name system_prompt user_message history
               llm_config temperature max_iterations autonomy_level
               emails stories rag_docs env st in
  records_follow_gate autonomy_level emails stories
                      (Locals.tools_executed (frame (snd run)))
  /\ forall resp,
       fst run = Returned resp ->
       records_follow_gate autonomy_level emails stories (tools_executed resp).
Proof.
  apply (run_agent_loop_keeps
           (fun records _ =>
              records_follow_gate autonomy_level emails stories records)
           agent autonomy_level emails stories).
  - intros tc. apply process_tool_call_follows_gate.
  - constructor.
Qed.

Lemma run_agent_loop_records_follow_gate_witness :
  exists resp,
    fst (@run_agent_loop reference_json STRATEGY "Strategy Agent"
           "You are an agent." "file the story and look it up" []
           openai_config (3 # 10) 5 OVERSIGHT false false []
           (scripted_env [tool_block (call_json "jira_create_issue");
                          tool_block (call_json "jira_get_issue")]
                         "Both done.")
           initial_state)
    = Returned resp
    /\ records_follow_gate OVERSIGHT false false (tools_executed resp)
    /\ map te_status (tools_executed resp) = ["pending"; "executed"].
Proof.
  eexists. split; [vm_compute; reflexivity |].
  split; [| reflexivity].
  apply (proj2 (@run_agent_loop_records_follow_gate reference_json
           STRATEGY "Strategy Agent" "You are an agent."
           "file the story and look it up" [] openai_config (3 # 10) 5
           OVERSIGHT false false []
           (scripted_env [tool_block (call_json "jira_create_issue");
                          tool_block (call_json "jira_get_issue")]
                         "Both done.")
           initial_state)).
  vm_compute. reflexivity.
Defined.

Lemma String_prefix_pa (s : string) : String.prefix "pa_" ("pa_" ++ s) = true.
Proof. cbn. now destruct s. Qed.

Lemma take_length_le (n : nat) (s : string) : String.length (PyStr.take n s) <= n.
Proof.
  unfold PyStr.take. revert s. induction n as [| n IH]; intros s.
  - destruct s; cbn; lia.
  - destruct s as [| c s']; cbn; [lia |]. specialize (IH s'). lia.
Qed.

Lemma process_tool_call_mirrors agent autonomy_level emails stories tc :
  stable (keeps (pending_mirror agent))
         (process_tool_call agent autonomy_level emails stories tc).
Proof.
  intros env st [Hmap Hall].
  pose proof (process_tool_call_cases agent autonomy_level emails stories tc env st)
    as Hcases.
  destruct (process_tool_call agent autonomy_level emails stories tc env st)
    as [[part | e] st']; cbn [snd].
  - destruct Hcases as (name & args & _ & _ & _ & _ & _ & Hg).
    unfold pending_mirror.
    destruct (check_autonomy_gate name autonomy_level emails stories).
    + destruct Hg as (content & is_error & _ & _ & _ & -> & ->).
      rewrite filter_app. cbn [filter]. unfold is_pending at 2. cbn [te_status].
      replace (String.eqb (if is_error then "failed" else "executed") "pending")
        with false by (now destruct is_error).
      rewrite app_nil_r. split; assumption.
    + destruct Hg as (description & _ & _ & _ & -> & ->).
      rewrite filter_app, !map_app, Hmap. cbn. split; [reflexivity |].
      apply Forall_app. split; [exact Hall |]. constructor; [| constructor].
      cbn [pa_status pa_agent_id pa_id].
      split; [reflexivity |]. split; [reflexivity |].
      split; [apply String_prefix_pa |].
      pose proof (take_length_le 12 (uuid_script env (uuid_calls st))). cbn. lia.
    + destruct Hg as (_ & _ & -> & ->).
      rewrite filter_app. cbn. rewrite app_nil_r. split; assumption.
  - destruct Hcases as (-> & _). split; assumption.
Qed.

(** X2. In every run of the loop the pending actions are, in order, the
    execution records of status "pending": same tool name and same
    arguments. Each pending action belongs to the agent of the run, has
    status "pending" and an id made of "pa_" followed by at most twelve
    characters. The same holds of a returned response. *)
Theorem run_agent_loop_pending_mirror `{JSON}
    (agent : AgentId) (name system_prompt user_message : string)
    (history : list ChatMessage) (llm_config : LLMConfig) (temperature : Q)
    (max_iterations : Z) (autonomy_level : AutonomyLevel) (emails stories : bool)
    (rag_docs : list RAGDocument) (env : Env) (st : State) :
  let run := run_agent_loop agent name system_prompt user_message history
               llm_config temperature max_iterations autonomy_level
               emails stories rag_docs env st in
  pending_mirror agent (Locals.tools_executed (frame (snd run)))
                 (Locals.pending_actions (frame (snd run)))
  /\ forall resp,
       fst run = Returned resp ->
       pending_mirror agent (tools_executed resp) (pending_actions resp).
Proof.
  apply (run_agent_loop_keeps (pending_mirror agent)
           agent autonomy_level emails stories).
  - intros tc. apply process_tool_call_mirrors.
  - split; constructor.
Qed.

Lemma run_agent_loop_pending_mirror_witness :
  exists resp,
    fst (@run_agent_loop reference_json STRATEGY "Strategy Agent"
           "You are an agent." "file the story and look it up" []
           openai_config (3 # 10) 5 OVERSIGHT false false []
           (scripted_env [tool_block (call_json "jira_create_issue");
                          tool_block (call_json "jira_get_issue")]
                         "Both done.")
           initial_state)
    = Returned resp
    /\ pending_mirror STRATEGY (tools_executed resp) (pending_actions resp)
    /\ map pa_tool_name (pending_actions resp) = ["jira_create_issue"].
Proof.
  eexists. split; [vm_compute; reflexivity |].
  split; [| reflexivity].
  apply (proj2 (@run_agent_loop_pending_mirror reference_json
           STRATEGY "Strategy Agent" "You are an agent."
           "file the story and look it up" [] openai_config (3 # 10) 5
           OVERSIGHT false false []
           (scripted_env [tool_block (call_json "jira_create_issue");
                          tool_block (call_json "jira_get_issue")]
                         "Both done.")
           initial_state)).
  vm_compute. reflexivity.
Defined.

(** ** Agentic loop: the levels that block *)

Lemma no_tool_use_refl (st : State) : no_tool_use st st.
Proof. split; reflexivity. Qed.

Lemma no_tool_use_trans (st1 st2 st3 : State) :
  no_tool_use st1 st2 -> no_tool_use st2 st3 -> no_tool_use st1 st3.
Proof. unfold no_tool_use. intros [? ?] [? ?]. split; congruence. Qed.

Lemma chat_no_tool_use config messages temperature max_tokens :
  stable no_tool_use (chat config messages temperature max_tokens).
Proof.
  intros env st. rewrite chat_outcome. split; reflexivity.
Qed.

Lemma modify_frame_no_tool_use f : stable no_tool_use (modify_frame f).
Proof. intros env st. split; reflexivity. Qed.

Lemma gate_of_call_blocks (tool_name : pyval) (autonomy_level : AutonomyLevel)
    (emails stories : bool) :
  autonomy_level = MANUAL \/ autonomy_level = ADVISORY ->
  gate_of_call tool_name autonomy_level emails stories = Returned BLOCK.
Proof.
  intros [-> | ->]; destruct tool_name; reflexivity.
Qed.

Lemma process_tool_call_no_tool_use agent autonomy_level emails stories tc :
  autonomy_level = MANUAL \/ autonomy_level = ADVISORY ->
  stable no_tool_use (process_tool_call agent autonomy_level emails stories tc).
Proof.
  intros Hlevel env st. unfold process_tool_call, bind, lift.
  destruct (py_getitem tc "name") as [tool_name | e]; [| apply no_tool_use_refl].
  destruct (py_getitem tc "arguments") as [tool_args | e];
    [| apply no_tool_use_refl].
  rewrite (gate_of_call_blocks tool_name _ emails stories Hlevel).
  unfold ask. cbn.
  destruct (describe_tool_action env tool_name tool_args);
    [| apply no_tool_use_refl].
  destruct (as_str tool_name); [| apply no_tool_use_refl].
  destruct (as_dict tool_args); [| apply no_tool_use_refl].
  split; reflexivity.
Qed.

Lemma process_tool_calls_no_tool_use agent autonomy_level emails stories :
  autonomy_level = MANUAL \/ autonomy_level = ADVISORY ->
  forall calls parts,
  stable no_tool_use
         (process_tool_calls agent autonomy_level emails stories calls parts).
Proof.
  intros Hlevel. induction calls as [| tc rest IH]; intros parts;
    cbn [process_tool_calls].
  - apply stable_ret, no_tool_use_refl.
  - apply (stable_bind _ no_tool_use_trans).
    + now apply process_tool_call_no_tool_use.
    + intros part. apply IH.
Qed.

Lemma iteration_no_tool_use `{JSON} agent llm_config temperature autonomy_level
    emails stories i :
  autonomy_level = MANUAL \/ autonomy_level = ADVISORY ->
  stable no_tool_use
         (iteration agent llm_config temperature autonomy_level emails stories i).
Proof.
  intros Hlevel. unfold iteration.
  apply (stable_bind _ no_tool_use_trans);
    [apply modify_frame_no_tool_use | intros _].
  apply (stable_bind _ no_tool_use_trans);
    [apply stable_get_frame, no_tool_use_refl | intros f].
  apply (stable_bind _ no_tool_use_trans);
    [apply chat_no_tool_use | intros response_text].
  apply (stable_bind _ no_tool_use_trans);
    [apply stable_lift, no_tool_use_refl | intros calls].
  destruct calls as [| tc rest].
  - apply (stable_bind _ no_tool_use_trans);
      [apply modify_frame_no_tool_use | intros _].
    apply stable_ret, no_tool_use_refl.
  - apply (stable_bind _ no_tool_use_trans);
      [now apply process_tool_calls_no_tool_use | intros parts].
    apply (stable_bind _ no_tool_use_trans);
      [apply modify_frame_no_tool_use | intros _].
    apply stable_ret, no_tool_use_refl.
Qed.

Lemma process_tool_call_all_blocked agent autonomy_level emails stories tc :
  autonomy_level = MANUAL \/ autonomy_level = ADVISORY ->
  stable (keeps (fun records actions =>
                   actions = []
                   /\ Forall (fun t => te_status t = "blocked") records))
         (process_tool_call agent autonomy_level emails stories tc).
Proof.
  intros Hlevel env st [Hnone Hall].
  pose proof (process_tool_call_cases agent autonomy_level emails stories tc env st)
    as Hcases.
  destruct (process_tool_call agent autonomy_level emails stories tc env st)
    as [[part | e] st']; cbn [snd].
  - destruct Hcases as (name & args & _ & _ & _ & _ & _ & Hg).
    replace (check_autonomy_gate name autonomy_level emails stories)
      with BLOCK in Hg by (destruct Hlevel as [-> | ->]; reflexivity).
    destruct Hg as (_ & _ & -> & ->).
    split; [exact Hnone |].
    apply Forall_app. split; [exact Hall |]. now repeat constructor.
  - destruct Hcases as (-> & _). split; assumption.
Qed.

(** X3. At level Manual or Advisory a run of the loop never calls the tool
    backend and never draws an action id, whatever the model answers and
    whether the run returns or raises; it queues no pending action and
    every execution record has status "blocked". *)
Theorem run_agent_loop_blocking_levels `{JSON}
    (agent : AgentId) (name system_prompt user_message : string)
    (history : list ChatMessage) (llm_config : LLMConfig) (temperature : Q)
    (max_iterations : Z) (autonomy_level : AutonomyLevel) (emails stories : bool)
    (rag_docs : list RAGDocument) (env : Env) (st : State) :
  autonomy_level = MANUAL \/ autonomy_level = ADVISORY ->
  let run := run_agent_loop agent name system_prompt user_message history
               llm_config temperature max_iterations autonomy_level
               emails stories rag_docs env st in
  tool_calls (snd run) = tool_calls st
  /\ uuid_calls (snd run) = uuid_calls st
  /\ Locals.pending_actions (frame (snd run)) = []
  /\ Forall (fun t => te_status t = "blocked")
            (Locals.tools_executed (frame (snd run)))
  /\ forall resp,
       fst run = Returned resp ->
       pending_actions resp = []
       /\ Forall (fun t => te_status t = "blocked") (tools_executed resp).
Proof.
  intros Hlevel run.
  assert (Huse : no_tool_use st (snd run)).
  { unfold run. rewrite run_agent_loop_from_start.
    match goal with
    | |- no_tool_use _ (snd (?m env ?s)) =>
        assert (Hrest : stable no_tool_use m)
    end.
    { apply (stable_bind _ no_tool_use_trans).
      - apply (stable_for_range _ no_tool_use_refl no_tool_use_trans).
        intros i. now apply iteration_no_tool_use.
      - intros _.
        apply (stable_bind _ no_tool_use_trans);
          [apply stable_get_frame, no_tool_use_refl | intros f].
        apply (stable_bind _ no_tool_use_trans).
        + destruct (PyStr.truthy (Locals.final_content f)).
          * apply stable_ret, no_tool_use_refl.
          * apply (stable_bind _ no_tool_use_trans);
              [apply chat_no_tool_use | intros t].
            apply modify_frame_no_tool_use.
        + intros _.
          apply (stable_bind _ no_tool_use_trans);
            [apply stable_get_frame, no_tool_use_refl | intros f'].
          apply stable_ret, no_tool_use_refl. }
    exact (Hrest env _). }
  destruct Huse as [Htools Huuid].
  destruct (run_agent_loop_keeps
              (fun records actions =>
                 actions = []
                 /\ Forall (fun t => te_status t = "blocked") records)
              agent autonomy_level emails stories
              (fun tc => process_tool_call_all_blocked agent autonomy_level
                           emails stories tc Hlevel)
              name system_prompt user_message history llm_config temperature
              max_iterations rag_docs env st (conj eq_refl (Forall_nil _)))
    as [[Hnone Hall] Hresp].
  fold run in Hnone, Hall, Hresp.
  repeat split; try assumption; now apply Hresp.
Qed.

Lemma run_agent_loop_blocking_levels_witness :
  tool_calls (snd (@run_agent_loop reference_json STRATEGY "Strategy Agent"
                     "You are an agent." "send it" [] openai_config (3 # 10) 5
                     MANUAL true true []
                     (scripted_env [tool_block (call_json "email_send")] "Done.")
                     initial_state)) = 0
  /\ exists resp,
       fst (@run_agent_loop reference_json STRATEGY "Strategy Agent"
              "You are an agent." "send it" [] openai_config (3 # 10) 5
              MANUAL true true []
              (scripted_env [tool_block (call_json "email_send")] "Done.")
              initial_state) = Returned resp
       /\ pending_actions resp = []
       /\ map te_status (tools_executed resp) = ["blocked"].
Proof.
  pose proof (@run_agent_loop_blocking_levels reference_json STRATEGY
                "Strategy Agent" "You are an agent." "send it" [] openai_config
                (3 # 10) 5 MANUAL true true []
                (scripted_env [tool_block (call_json "email_send")] "Done.")
                initial_state (or_introl eq_refl)) as (Htools & _ & _ & _ & Hresp).
  split; [exact Htools |].
  eexists. split; [vm_compute; reflexivity |].
  split; [| reflexivity].
  apply Hresp. vm_compute. reflexivity.
Defined.

(** ** Reasoning about computations that return *)

Section OnReturn.

Variable R : State -> State -> Prop.
Hypothesis R_refl : forall st, R st st.
Hypothesis R_trans : forall st1 st2 st3, R st1 st2 -> R st2 st3 -> R st1 st3.






End OnReturn.

Lemma stable_on_return {A : Type} (R : State -> State -> Prop) (m : M A) :
  stable R m -> on_return R m.
Proof.
  intros Hs env st a st' Hrun. specialize (Hs env st). now rewrite Hrun in Hs.
Qed.

(** ** Agentic loop: every tool invocation has its record *)











(** ** Agentic loop: the conversation and the lists only grow *)
















(** ** Counting model calls *)

Lemma calls_at_most_weaken {A : Type} (n n' : nat) (m : M A) :
  n <= n' -> calls_at_most n m -> calls_at_most n' m.
Proof.
  intros Hle Hm env st. specialize (Hm env st). lia.
Qed.

Lemma calls_at_most_bind {A B : Type} (n k : nat) (m : M A) (f : A -> M B) :
  calls_at_most n m -> (forall a, calls_at_most k (f a)) ->
  calls_at_most (n + k) (bind m f).
Proof.
  intros Hm Hf env st. unfold bind. specialize (Hm env st).
  destruct (m env st) as [[a | e] st1]; cbn in *.
  - specialize (Hf a env st1). lia.
  - lia.
Qed.

Lemma calls_at_most_try_except {A : Type} (n k : nat) (body handler : M A)
    (catches : exn -> bool) :
  calls_at_most n body -> calls_at_most k handler ->
  calls_at_most (n + k) (try_except body catches handler).
Proof.
  intros Hb Hh env st. unfold try_except. specialize (Hb env st).
  destruct (body env st) as [[a | e] st1]; cbn in *; [lia |].
  destruct (catches e); cbn; [| lia].
  specialize (Hh env st1). lia.
Qed.

Lemma same_llm_calls_at_most {A : Type} (m : M A) :
  stable same_llm_calls m -> calls_at_most 0 m.
Proof.
  intros Hs env st. specialize (Hs env st). unfold same_llm_calls in Hs. lia.
Qed.

Lemma calls_at_most_ret {A : Type} (a : A) : calls_at_most 0 (ret a).
Proof. intros env st. cbn. lia. Qed.

Lemma calls_at_most_lift {A : Type} (o : outcome A) : calls_at_most 0 (lift o).
Proof. intros env st. cbn. lia. Qed.

Lemma calls_at_most_ask : calls_at_most 0 ask.
Proof. intros env st. cbn. lia. Qed.

Lemma calls_at_most_get_frame : calls_at_most 0 get_frame.
Proof. intros env st. cbn. lia. Qed.

Lemma calls_at_most_modify_frame f : calls_at_most 0 (modify_frame f).
Proof. intros env st. cbn. lia. Qed.

Lemma calls_at_most_chat config messages temperature max_tokens :
  calls_at_most 1 (chat config messages temperature max_tokens).
Proof. intros env st. rewrite chat_outcome. cbn. lia. Qed.

(** A round makes exactly one model call, whatever its outcome. *)
Lemma iteration_one_call `{JSON} agent llm_config temperature autonomy_level
    emails stories (i : Z) (env : Env) (st : State) :
  llm_calls (snd (iteration agent llm_config temperature autonomy_level
                            emails stories i env st))
  = S (llm_calls st).
Proof.
  unfold iteration, bind, set_iterations, modify_frame, get_frame, lift.
  cbn [fst snd frame Locals.messages].
  rewrite chat_outcome. cbn [llm_calls tool_calls uuid_calls loop_runs frame].
  destruct (fst (chat _ _ _ _ env _)) as [response | e]; [| reflexivity].
  destruct (parse_tool_calls response) as [calls | e]; [| reflexivity].
  destruct calls as [| tc rest]; [reflexivity |].
  match goal with
  | |- context [process_tool_calls ?a ?l ?x ?y ?c ?p env ?s] =>
      pose proof (process_tool_calls_same_llm_calls a l x y c p env s) as Hllm;
      destruct (process_tool_calls a l x y c p env s) as [[parts | e] s3]
  end; cbn in Hllm |- *; exact Hllm.
Qed.

(** A round leaves the iteration count at its index plus one, whatever its
    outcome. *)
Lemma iteration_sets_count `{JSON} agent llm_config temperature autonomy_level
    emails stories (i : Z) (env : Env) (st : State) :
  Locals.iterations
    (frame (snd (iteration agent llm_config temperature autonomy_level
                           emails stories i env st)))
  = (i + 1)%Z.
Proof.
  unfold iteration, bind, set_iterations, modify_frame, get_frame, lift.
  cbn [fst snd frame Locals.messages].
  rewrite chat_outcome. cbn [llm_calls tool_calls uuid_calls loop_runs frame].
  destruct (fst (chat _ _ _ _ env _)) as [response | e]; [| reflexivity].
  destruct (parse_tool_calls response) as [calls | e]; [| reflexivity].
  destruct calls as [| tc rest]; [reflexivity |].
  match goal with
  | |- context [process_tool_calls ?a ?l ?x ?y ?c ?p env ?s] =>
      pose proof (process_tool_calls_same_answer a l x y c p env s) as [_ Hit];
      destruct (process_tool_calls a l x y c p env s) as [[parts | e] s3]
  end; cbn in Hit |- *; exact Hit.
Qed.

Lemma for_range_calls `{JSON} agent llm_config temperature autonomy_level
    emails stories (env : Env) :
  forall (n : nat) (i : Z) (st : State),
    let st' := snd (for_range n i (iteration agent llm_config temperature
                                             autonomy_level emails stories)
                              env st) in
    llm_calls st <= llm_calls st' <= llm_calls st + n
    /\ (0 < n -> llm_calls st < llm_calls st')
    /\ (Locals.iterations (frame st') = Locals.iterations (frame st)
        \/ (i + 1 <= Locals.iterations (frame st') <= i + Z.of_nat n)%Z)
    /\ (n = 0 ->
        for_range n i (iteration agent llm_config temperature autonomy_level
                                 emails stories) env st
        = (Returned tt, st)).
Proof.
  induction n as [| n IH]; intros i st; cbn [for_range].
  - cbn. repeat split; try lia.
  - unfold bind.
    pose proof (iteration_one_call agent llm_config temperature autonomy_level
                  emails stories i env st) as Hcall.
    pose proof (iteration_sets_count agent llm_config temperature autonomy_level
                  emails stories i env st) as Hcount.
    destruct (iteration agent llm_config temperature autonomy_level emails stories
                        i env st) as [[[|] | e] st1]; cbn [snd] in *.
    + cbn. repeat split; lia.
    + specialize (IH (i + 1)%Z st1). cbv zeta in IH.
      destruct IH as (Hb & _ & Hit & _).
      repeat split; lia.
    + repeat split; lia.
Qed.

(** The model calls and the iteration count at the end of a run. *)
Lemma run_agent_loop_bounds `{JSON}
    (agent : AgentId) (name system_prompt user_message : string)
    (history : list ChatMessage) (llm_config : LLMConfig) (temperature : Q)
    (max_iterations : Z) (autonomy_level : AutonomyLevel) (emails stories : bool)
    (rag_docs : list RAGDocument) (env : Env) (st final : State) :
  final = snd (run_agent_loop agent name system_prompt user_message history
                 llm_config temperature max_iterations autonomy_level
                 emails stories rag_docs env st) ->
  llm_calls st + 1 <= llm_calls final
  /\ llm_calls final <= llm_calls st + Z.to_nat max_iterations + 1
  /\ (0 <= Locals.iterations (frame final) <= Z.max 0 max_iterations)%Z.
Proof.
  intros Heq.
  rewrite run_agent_loop_from_start in Heq. unfold bind at 1 in Heq.
  pose proof (for_range_calls agent llm_config temperature autonomy_level
                emails stories env (Z.to_nat max_iterations) 0%Z
                (loop_start st agent system_prompt user_message history))
    as Hloop.
  cbv zeta in Hloop. destruct Hloop as (Hb & Hpos & Hit & Hzero).
  cbn [llm_calls loop_start frame Locals.iterations] in Hb, Hpos, Hit.
  destruct (for_range _ _ _ env _) as [[[] | e] st1]; cbn [snd] in *.
  - unfold bind, get_frame in Heq. cbn [fst snd] in Heq.
    destruct (PyStr.truthy (Locals.final_content (frame st1))) eqn:Hfinal.
    + cbn in Heq. subst final. split; [| split; [lia |]].
      * destruct (Z.to_nat max_iterations) eqn:Hn; [| lia].
        specialize (Hzero eq_refl). injection Hzero as ->.
        discriminate Hfinal.
      * destruct Hit as [Hit | Hit]; lia.
    + rewrite chat_outcome in Heq.
      destruct (fst (chat _ _ _ _ env st1)); cbn in Heq; subst final; cbn;
        (split; [lia | split; [lia | destruct Hit as [Hit | Hit]; lia]]).
  - subst final. split; [| split; [lia |]].
    + destruct (Z.to_nat max_iterations) eqn:Hn; [| lia].
      specialize (Hzero eq_refl). discriminate.
    + destruct Hit as [Hit | Hit]; lia.
Qed.

(** X6. A run of the loop makes at least one and at most
    [max_iterations + 1] model calls, whatever the model answers and whether
    the run returns or raises; its iteration count ends between 0 and
    [max_iterations] (0 when [max_iterations] is negative). *)
Theorem run_agent_loop_call_budget `{JSON}
    (agent : AgentId) (name system_prompt user_message : string)
    (history : list ChatMessage) (llm_config : LLMConfig) (temperature : Q)
    (max_iterations : Z) (autonomy_level : AutonomyLevel) (emails stories : bool)
    (rag_docs : list RAGDocument) (env : Env) (st : State) :
  let run := run_agent_loop agent name system_prompt user_message history
               llm_config temperature max_iterations autonomy_level
               emails stories rag_docs env st in
  llm_calls st + 1 <= llm_calls (snd run)
  /\ llm_calls (snd run) <= llm_calls st + Z.to_nat max_iterations + 1
  /\ (0 <= Locals.iterations (frame (snd run)) <= Z.max 0 max_iterations)%Z
  /\ forall resp,
       fst run = Returned resp ->
       (0 <= iterations resp <= Z.max 0 max_iterations)%Z.
Proof.
  intros run.
  destruct (run_agent_loop_bounds agent name system_prompt user_message history
              llm_config temperature max_iterations autonomy_level emails
              stories rag_docs env st (snd run) eq_refl) as (Hlow & Hup & Hit).
  split; [exact Hlow |]. split; [exact Hup |]. split; [exact Hit |].
  intros resp Hret. apply run_agent_loop_response in Hret. fold run in Hret.
  rewrite Hret. cbn [iterations]. exact Hit.
Qed.

Lemma run_agent_loop_call_budget_witness :
  exists resp,
    fst (example_run 5 tool_then_answer_env initial_state) = Returned resp
    /\ (0 <= iterations resp <= Z.max 0 5)%Z.
Proof.
  eexists. split; [vm_compute; reflexivity |].
  apply (proj2 (proj2 (proj2
           (@run_agent_loop_call_budget reference_json STRATEGY "Strategy Agent"
              "You are an agent." "look it up" [] openai_config (3 # 10) 5
              OVERSIGHT false false [] tool_then_answer_env initial_state)))).
  vm_compute. reflexivity.
Defined.

(** ** Chat endpoint: cost and response *)

Lemma route_message_calls message llm_config explicit_agent :
  calls_at_most 1 (route_message message llm_config explicit_agent).
Proof.
  unfold route_message.
  destruct explicit_agent as [agent |].
  - apply (calls_at_most_weaken 0); [lia | apply calls_at_most_ret].
  - destruct (route_by_keywords message).
    + apply (calls_at_most_weaken 0); [lia | apply calls_at_most_ret].
    + unfold route_by_llm.
      apply (calls_at_most_try_except 1 0); [| apply calls_at_most_ret].
      apply (calls_at_most_bind 1 0); [apply calls_at_most_chat |].
      intros result. apply calls_at_most_lift.
Qed.

Lemma extract_keywords_calls message llm_config :
  calls_at_most 1 (extract_keywords message llm_config).
Proof.
  unfold extract_keywords.
  apply (calls_at_most_try_except 1 0); [| apply calls_at_most_ret].
  apply (calls_at_most_bind 1 0); [apply calls_at_most_chat |].
  intros result. apply calls_at_most_ret.
Qed.

Lemma retrieve_context_calls `{JSON} `{Config} message llm_config knowledge_docs
    confluence_enabled :
  calls_at_most 1 (retrieve_context message llm_config knowledge_docs
                                    confluence_enabled).
Proof.
  unfold retrieve_context, sorted_candidates.
  apply (calls_at_most_bind 1 0).
  - apply (calls_at_most_bind 1 0); [apply extract_keywords_calls |].
    intros keywords. destruct keywords as [| kw rest]; [apply calls_at_most_ret |].
    apply (calls_at_most_bind 0 0); [apply calls_at_most_ask | intros env].
    apply (calls_at_most_bind 0 0).
    + destruct confluence_enabled; [apply calls_at_most_lift | apply calls_at_most_ret].
    + intros confluence_docs. apply (calls_at_most_bind 0 0).
      * destruct knowledge_docs; [apply calls_at_most_ret | apply calls_at_most_lift].
      * intros kb_docs. apply calls_at_most_ret.
  - intros all_docs. destruct all_docs; apply calls_at_most_ret.
Qed.

Lemma get_agent_max_iterations (a : AgentId) :
  (3 <= def_max_iterations (get_agent a) <= 5)%Z.
Proof. destruct a; cbn; lia. Qed.

Lemma run_agent_loop_calls `{JSON} agent name system_prompt user_message history
    llm_config temperature max_iterations autonomy_level emails stories rag_docs :
  calls_at_most (Z.to_nat max_iterations + 1)
    (run_agent_loop agent name system_prompt user_message history llm_config
       temperature max_iterations autonomy_level emails stories rag_docs).
Proof.
  intros env st.
  destruct (run_agent_loop_bounds agent name system_prompt user_message history
              llm_config temperature max_iterations autonomy_level emails
              stories rag_docs env st _ eq_refl) as (Hlow & Hup & _).
  lia.
Qed.

(** X7. One chat request makes at most fourteen model calls, whatever the
    model answers and whether the request succeeds: one to route, one to
    extract keywords, and at most six for each of the two activations of
    the loop. *)
Theorem agent_chat_call_budget `{JSON} `{Config}
    (request : AgentChatRequest) (env : Env) (st : State) :
  llm_calls (snd (agent_chat request env st)) <= llm_calls st + 14.
Proof.
  assert (Hbound : calls_at_most (1 + (1 + (0 + (6 + (6 + 0)))))
                                 (agent_chat request)).
  { unfold agent_chat.
    apply calls_at_most_bind; [apply route_message_calls | intros routed].
    apply calls_at_most_bind; [apply retrieve_context_calls | intros rag_docs].
    apply calls_at_most_bind; [apply calls_at_most_ask | intros env'].
    apply calls_at_most_bind.
    - eapply calls_at_most_weaken; [| apply run_agent_loop_calls].
      pose proof (get_agent_max_iterations routed). lia.
    - intros result. apply calls_at_most_bind; [| intros merged; apply calls_at_most_ret].
      destruct (handoff_to result) as [target |];
        [| apply (calls_at_most_weaken 0); [lia | apply calls_at_most_ret]].
      destruct (negb (AgentId_eqb target routed));
        [| apply (calls_at_most_weaken 0); [lia | apply calls_at_most_ret]].
      apply (calls_at_most_bind 6 0); [| intros r; apply calls_at_most_ret].
      eapply calls_at_most_weaken; [| apply run_agent_loop_calls].
      pose proof (get_agent_max_iterations target). lia. }
  specialize (Hbound env st). lia.
Qed.

(** What a returned run says about its response. *)
Lemma run_agent_loop_returned `{JSON}
    (agent : AgentId) (name system_prompt user_message : string)
    (history : list ChatMessage) (llm_config : LLMConfig) (temperature : Q)
    (max_iterations : Z) (autonomy_level : AutonomyLevel) (emails stories : bool)
    (rag_docs : list RAGDocument) (env : Env) (st st' : State)
    (resp : AgentResponse) :
  run_agent_loop agent name system_prompt user_message history llm_config
    temperature max_iterations autonomy_level emails stories rag_docs env st
    = (Returned resp, st') ->
  agent_id resp = agent /\ agent_name resp = name
  /\ rag_context resp = rag_docs
  /\ handoff_to resp = _detect_handoff (resp_content resp)
  /\ List.length (pending_actions resp) = count_pending (tools_executed resp).
Proof.
  intros Hrun.
  pose proof (run_agent_loop_response agent name system_prompt user_message
                history llm_config temperature max_iterations autonomy_level
                emails stories rag_docs env st resp) as Hresp.
  pose proof (run_agent_loop_balanced agent name system_prompt user_message
                history llm_config temperature max_iterations autonomy_level
                emails stories rag_docs env st) as Hbal.
  cbv zeta in Hresp. rewrite Hrun in Hresp, Hbal. specialize (Hresp eq_refl).
  cbn [fst snd] in Hresp, Hbal. rewrite Hresp. cbn. repeat split. exact Hbal.
Qed.

(** X8. When a chat request returns, the response is signed by the agent
    the request was routed to, also after a handoff: it is the explicit
    agent when the request names one, and the name is that agent's name in
    the registry. The pending actions of the response are as many as its
    execution records of status "pending", the lists of the handoff
    activation included. *)
Theorem agent_chat_response `{JSON} `{Config}
    (request : AgentChatRequest) (env : Env) (st st' : State)
    (resp : AgentChatResponse) :
  agent_chat request env st = (Returned resp, st') ->
  fst (route_message (req_message request) (req_llm_config request)
                     (req_agent_id request) env st)
    = Returned (chat_agent_id resp)
  /\ (forall agent, req_agent_id request = Some agent -> chat_agent_id resp = agent)
  /\ chat_agent_name resp = def_name (get_agent (chat_agent_id resp))
  /\ List.length (chat_pending_actions resp)
     = count_pending (chat_tools_executed resp).
Proof.
  unfold agent_chat. unfold bind at 1.
  destruct (route_message _ _ _ env st) as [[routed | e] st1] eqn:Hroute;
    [| discriminate].
  unfold bind at 1.
  destruct (retrieve_context _ _ _ _ env st1) as [[rag_docs | e] st2];
    [| discriminate].
  unfold bind at 1. unfold ask at 1. cbv iota beta.
  unfold bind at 1.
  match goal with
  | |- context [run_agent_loop routed ?n ?sp ?um ?h ?c ?t ?m ?l ?a ?b rag_docs env st2] =>
      destruct (run_agent_loop routed n sp um h c t m l a b rag_docs env st2)
        as [[result | e] st3] eqn:Hfirst
  end; [| discriminate].
  apply run_agent_loop_returned in Hfirst as (Hid & Hname & _ & _ & Hbal).
  assert (Hexplicit : forall agent, req_agent_id request = Some agent ->
                                    routed = agent).
  { intros agent Heq. rewrite Heq in Hroute.
    unfold route_message, ret in Hroute. congruence. }
  unfold bind at 1.
  destruct (handoff_to result) as [target |].
  2: { cbn. intros [= <- _]. cbn. rewrite Hid, Hname. auto. }
  destruct (negb (AgentId_eqb target routed)).
  2: { cbn. intros [= <- _]. cbn. rewrite Hid, Hname. auto. }
  unfold bind at 1.
  match goal with
  | |- context [run_agent_loop target ?n ?sp ?um ?h ?c ?t ?m ?l ?a ?b rag_docs env st3] =>
      destruct (run_agent_loop target n sp um h c t m l a b rag_docs env st3)
        as [[handoff_result | e] st4] eqn:Hsecond
  end; [| discriminate].
  apply run_agent_loop_returned in Hsecond as (_ & _ & _ & _ & Hbal2).
  cbn. intros [= <- _]. cbn. rewrite Hid, Hname.
  repeat split; auto.
  fold (count_pending (tools_executed result ++ tools_executed handoff_result)).
  rewrite length_app, count_pending_app. lia.
Qed.

Lemma agent_chat_response_witness :
  exists resp,
    fst (@agent_chat reference_json default_config strategy_request
           handoff_chain_env initial_state) = Returned resp
    /\ chat_agent_id resp = STRATEGY
    /\ chat_agent_name resp = "Strategy Agent".
Proof.
  destruct (@agent_chat reference_json default_config strategy_request
              handoff_chain_env initial_state) as [o st'] eqn:Hrun.
  assert (Ho : exists resp, o = Returned resp).
  { assert (Hfst : o = fst (@agent_chat reference_json default_config
                              strategy_request handoff_chain_env initial_state))
      by (now rewrite Hrun).
    rewrite Hfst. vm_compute. eexists. reflexivity. }
  destruct Ho as [resp ->]. exists resp. split; [reflexivity |].
  destruct (@agent_chat_response reference_json default_config strategy_request
              handoff_chain_env initial_state st' resp Hrun)
    as (_ & Hexplicit & Hname & _).
  specialize (Hexplicit STRATEGY eq_refl).
  split; [exact Hexplicit |]. rewrite Hname, Hexplicit. reflexivity.
Defined.

(** ** Autonomy gate: levels and preferences *)

(** X9. The gate blocks exactly at levels Manual and Advisory. It gates
    only at level Oversight, and only tools that are not read-only. The two
    preferences matter only at level Oversight, and switching one on never
    takes a permission away: a tool that executes keeps executing. *)
Theorem check_autonomy_gate_levels (tool : string) (emails stories : bool) :
  (forall level,
      check_autonomy_gate tool level emails stories = BLOCK
      <-> level = MANUAL \/ level = ADVISORY)
  /\ (forall level,
        check_autonomy_gate tool level emails stories = GATE ->
        level = OVERSIGHT /\ ~ In tool READ_ONLY_TOOLS)
  /\ (forall level emails' stories',
        level <> OVERSIGHT ->
        check_autonomy_gate tool level emails stories
        = check_autonomy_gate tool level emails' stories')
  /\ (forall level emails' stories',
        check_autonomy_gate tool level emails stories = EXECUTE ->
        check_autonomy_gate tool level (emails || emails') (stories || stories')
        = EXECUTE).
Proof.
  destruct (in_strings tool READ_ONLY_TOOLS) eqn:Hro.
  - repeat split.
    + destruct level; unfold check_autonomy_gate; rewrite ?Hro;
        intros; try discriminate; auto.
    + intros [-> | ->]; reflexivity.
    + destruct level; unfold check_autonomy_gate in H; rewrite ?Hro in H;
        discriminate.
    + destruct level; unfold check_autonomy_gate in H; rewrite ?Hro in H;
        discriminate.
    + intros level e' s' Hl. destruct level; unfold check_autonomy_gate;
        rewrite ?Hro; congruence.
    + destruct level; unfold check_autonomy_gate; rewrite ?Hro;
        intros; try discriminate; reflexivity.
  - pose proof (oversight_write_tool tool emails stories Hro) as Hov.
    split; [| split; [| split]].
    + intros level. split.
      * destruct level; try (now auto); [unfold check_autonomy_gate; rewrite Hro;
                                         discriminate |].
        rewrite Hov. destruct (_ || _); discriminate.
      * intros [-> | ->]; reflexivity.
    + intros level Hg. destruct level.
      * unfold check_autonomy_gate in Hg. rewrite Hro in Hg. discriminate.
      * split; [reflexivity | now apply in_strings_not_In].
      * discriminate.
      * discriminate.
    + intros level e' s' Hl. destruct level; unfold check_autonomy_gate;
        rewrite ?Hro; congruence.
    + intros level e' s' He. destruct level; try discriminate.
      * unfold check_autonomy_gate. now rewrite Hro.
      * rewrite Hov in He.
        rewrite (oversight_write_tool tool _ _ Hro).
        destruct (String.eqb tool "email_send"),
                 (String.eqb tool "jira_create_issue"), emails, stories;
          cbn in *; try discriminate; try reflexivity;
          destruct e', s'; reflexivity.
Qed.

Lemma check_autonomy_gate_levels_witness :
  (OVERSIGHT = OVERSIGHT /\ ~ In "email_send" READ_ONLY_TOOLS)
  /\ check_autonomy_gate "email_send" OVERSIGHT (true || false) (false || true)
     = EXECUTE.
Proof.
  split.
  - apply (proj1 (proj2 (check_autonomy_gate_levels "email_send" false false))).
    reflexivity.
  - apply (proj2 (proj2 (proj2 (check_autonomy_gate_levels "email_send" true false)))).
    reflexivity.
Defined.

(** ** Agent identities and the handoff marker *)

(** X10. The value of an agent identity decodes to that identity, a text
    decodes to an identity only when it is its value, and any other text is
    refused with [ValueError]. *)
Theorem AgentId_value_round_trip :
  (forall a, AgentId_of_value (AgentId_value a) = Returned a)
  /\ (forall s a, AgentId_of_value s = Returned a -> s = AgentId_value a)
  /\ (forall s, (forall a, s <> AgentId_value a) ->
                AgentId_of_value s = Raised ValueError).
Proof.
  split; [| split].
  - intros a. destruct a; reflexivity.
  - intros s a. unfold AgentId_of_value.
    destruct (find _ AgentId_members) as [a' |] eqn:Hfind; [| discriminate].
    intros [= <-]. apply find_some in Hfind as [_ Heq].
    apply String.eqb_eq in Heq. now symmetry.
  - intros s Hnone. unfold AgentId_of_value.
    destruct (find _ AgentId_members) as [a' |] eqn:Hfind; [| reflexivity].
    apply find_some in Hfind as [_ Heq]. apply String.eqb_eq in Heq.
    exfalso. apply (Hnone a'). now symmetry.
Qed.

Lemma AgentId_value_round_trip_witness :
  "risk" = AgentId_value RISK
  /\ AgentId_of_value "Risk" = Raised ValueError.
Proof.
  split.
  - apply (proj1 (proj2 AgentId_value_round_trip)). reflexivity.
  - apply (proj2 (proj2 AgentId_value_round_trip)).
    intros a. destruct a; discriminate.
Defined.

Lemma lower_cons_inv (x : string) (p : ascii) (rest : string) :
  PyStr.lower x = String p rest ->
  exists c x', x = String c x' /\ PyStr.lower_char c = p /\ PyStr.lower x' = rest.
Proof.
  destruct x as [| c x']; cbn; [discriminate |].
  intros [= Hc Hx]. now exists c, x'.
Qed.

(** A text whose lower-casing is that of the pattern matches the pattern
    without regard to case. *)
Lemma prefix_ci_app (pat : string) :
  forall x rest,
    PyStr.lower x = PyStr.lower pat ->
    PyStr.prefix_ci pat (x ++ rest) = Some rest.
Proof.
  induction pat as [| p pat IH]; intros x rest Hlow.
  - destruct x; [reflexivity | discriminate].
  - cbn in Hlow. apply lower_cons_inv in Hlow as (c & x' & -> & Hc & Hx').
    cbn. rewrite Hc, Ascii.eqb_refl. now apply IH.
Qed.

Lemma lstrip_all_blank (blanks rest : string) :
  all_blank blanks = true ->
  PyStr.lstrip (blanks ++ rest) = PyStr.lstrip rest.
Proof.
  induction blanks as [| c blanks IH]; cbn; [reflexivity |].
  intros Hb. apply andb_true_iff in Hb as [Hc Hrest]. rewrite Hc. now apply IH.
Qed.

(** A blank is not changed by lower-casing. *)
Lemma is_space_lower_char (c : ascii) :
  PyStr.is_space c = true -> PyStr.lower_char c = c.
Proof.
  destruct c as [[|] [|] [|] [|] [|] [|] [|] [|]]; vm_compute; congruence.
Qed.

Lemma contains_bracket_head (rest : string) :
  PyStr.contains "[" (String "[" rest) = true.
Proof.
  cbn. destruct (ascii_dec "[" "[") as [_ | Hne]; [| congruence].
  now destruct rest.
Qed.

Lemma contains_tail (pat : string) (c : ascii) (s : string) :
  PyStr.contains pat (String c s) = false -> PyStr.contains pat s = false.
Proof.
  cbn [PyStr.contains].
  destruct (String.prefix pat (String c s)); [discriminate | auto].
Qed.

Lemma prefix_closing_bracket (post : string) :
  String.prefix "]" ("]" ++ post) = true.
Proof.
  cbn. destruct (ascii_dec "]" "]") as [_ | Hne]; [| congruence].
  now destruct post.
Qed.

Lemma prefix_ci_head_mismatch (p c : ascii) (pat s : string) :
  Ascii.eqb (PyStr.lower_char c) (PyStr.lower_char p) = false ->
  PyStr.prefix_ci (String p pat) (String c s) = None.
Proof. intros Hne. cbn. now rewrite Hne. Qed.

Lemma find_unique {A : Type} (f : A -> bool) (l : list A) (a : A) :
  (forall x y : A, {x = y} + {x <> y}) ->
  In a l -> f a = true -> (forall a', a' <> a -> f a' = false) ->
  find f l = Some a.
Proof.
  intros Hdec Hin Ha Hothers. induction l as [| x l IH]; [contradiction |].
  cbn. destruct (Hdec x a) as [-> | Hne].
  - now rewrite Ha.
  - rewrite (Hothers x Hne). apply IH. destruct Hin; [congruence | assumption].
Qed.

Lemma AgentId_eq_dec (x y : AgentId) : {x = y} + {x <> y}.
Proof. decide equality. Qed.

(** The first letter of an agent's value. *)
Lemma AgentId_value_head (a : AgentId) :
  exists p rest, AgentId_value a = String p rest /\ PyStr.lower_char p = p
                 /\ PyStr.is_space p = false
                 /\ forall a', a' <> a ->
                      exists p' rest', AgentId_value a' = String p' rest'
                                       /\ Ascii.eqb p (PyStr.lower_char p') = false.
Proof.
  destruct a; eexists _, _; (split; [reflexivity |]);
    (split; [reflexivity |]); (split; [reflexivity |]);
    intros a' Hne; destruct a'; try congruence;
    eexists _, _; (split; [reflexivity | reflexivity]).
Qed.

(** The marker anchored at the head of a text: any letter case, any run of
    blanks after the colon. *)
Lemma handoff_match_here_marker (a : AgentId)
    (marker blanks name_text post : string) :
  PyStr.lower marker = "[handoff:" ->
  all_blank blanks = true ->
  PyStr.lower name_text = AgentId_value a ->
  handoff_match_here (marker ++ blanks ++ name_text ++ "]" ++ post) = Some a.
Proof.
  intros Hmarker Hblanks Hname. unfold handoff_match_here.
  rewrite (prefix_ci_app "[HANDOFF:" marker) by (rewrite Hmarker; reflexivity).
  rewrite (lstrip_all_blank blanks _ Hblanks).
  destruct (AgentId_value_head a) as (p & rest & Hval & Hp & Hpnb & Hothers).
  assert (Hself : PyStr.prefix_ci (AgentId_value a) (name_text ++ "]" ++ post)
                  = Some ("]" ++ post)%string).
  { apply prefix_ci_app. rewrite Hname. destruct a; reflexivity. }
  rewrite Hval in Hname.
  apply lower_cons_inv in Hname as (c & x' & -> & Hc & _).
  assert (Hnb : PyStr.is_space c = false).
  { destruct (PyStr.is_space c) eqn:Hsp; [| reflexivity].
    pose proof (is_space_lower_char c Hsp) as Hfix. congruence. }
  assert (Hstrip : PyStr.lstrip ((String c x') ++ "]" ++ post)
                   = ((String c x') ++ "]" ++ post)%string).
  { cbn. now rewrite Hnb. }
  rewrite Hstrip.
  apply find_unique.
  - apply AgentId_eq_dec.
  - destruct a; cbn; tauto.
  - rewrite Hself. apply prefix_closing_bracket.
  - intros a' Hne. destruct (Hothers a' Hne) as (p' & rest' & Hval' & Hdiff).
    rewrite Hval'. cbn [append].
    rewrite prefix_ci_head_mismatch; [reflexivity |]. now rewrite Hc.
Qed.

Lemma detect_handoff_here (content : string) (a : AgentId) :
  handoff_match_here content = Some a -> _detect_handoff content = Some a.
Proof.
  intros Hm. destruct content; cbn [_detect_handoff]; now rewrite Hm.
Qed.

Lemma detect_handoff_after (pre content : string) :
  _detect_handoff content <> None -> _detect_handoff (pre ++ content) <> None.
Proof.
  intros Hsome. induction pre as [| c pre IH]; [exact Hsome |].
  cbn [append _detect_handoff].
  destruct (handoff_match_here (String c (pre ++ content))); [discriminate | exact IH].
Qed.

Lemma handoff_match_here_bracket (content : string) (a : AgentId) :
  handoff_match_here content = Some a ->
  exists rest, content = String "["%char rest.
Proof.
  unfold handoff_match_here. destruct content as [| c rest]; [discriminate |].
  cbn [PyStr.prefix_ci].
  destruct (Ascii.eqb (PyStr.lower_char c) (PyStr.lower_char "[")) eqn:Hc;
    [| discriminate].
  intros _. exists rest. f_equal.
  apply Ascii.eqb_eq in Hc.
  destruct c as [[|] [|] [|] [|] [|] [|] [|] [|]]; vm_compute in Hc;
    congruence.
Qed.

(** X11. A handoff marker at the head of the text is detected whatever the
    letter case of the word and of the agent name and whatever blanks
    follow the colon, and it yields the agent it names; after any other
    text the marker is still detected. A text without an opening bracket
    holds no handoff. *)
Theorem detect_handoff_marker (a : AgentId)
    (pre marker blanks name_text post : string) :
  (PyStr.lower marker = "[handoff:" ->
   all_blank blanks = true ->
   PyStr.lower name_text = AgentId_value a ->
   _detect_handoff (marker ++ blanks ++ name_text ++ "]" ++ post) = Some a
   /\ _detect_handoff (pre ++ marker ++ blanks ++ name_text ++ "]" ++ post)
      <> None)
  /\ (PyStr.contains "[" pre = false -> _detect_handoff pre = None).
Proof.
  split.
  - intros Hmarker Hblanks Hname.
    pose proof (detect_handoff_here _ _
                  (handoff_match_here_marker a marker blanks name_text post
                     Hmarker Hblanks Hname)) as Hhead.
    split; [exact Hhead |].
    apply detect_handoff_after. rewrite Hhead. discriminate.
  - induction pre as [| c pre IH]; intros Hno; [reflexivity |].
    cbn [_detect_handoff].
    destruct (handoff_match_here (String c pre)) as [a' |] eqn:Hm.
    + apply handoff_match_here_bracket in Hm as [rest Heq].
      injection Heq as -> ->. rewrite contains_bracket_head in Hno.
      discriminate.
    + apply IH. now apply (contains_tail "[" c).
Qed.

Lemma detect_handoff_marker_witness :
  _detect_handoff ("[Handoff:" ++ "  " ++ "RISK" ++ "]" ++ " please") = Some RISK
  /\ _detect_handoff ("Done. " ++ "[Handoff:" ++ "  " ++ "RISK" ++ "]" ++ " please")
     <> None.
Proof.
  apply (proj1 (detect_handoff_marker RISK "Done. " "[Handoff:" "  " "RISK"
                                      " please"));
    reflexivity.
Defined.

(** ** Router: the classification call *)

(** X12. When the provider answers the classification call, with any
    content, [route_by_llm] returns an agent and does not raise; it made
    exactly one model call. The agent is the one whose value is the answer
    once stripped, lower-cased and relieved of its trailing dots, and the
    default agent strategy when the answer names none. *)
Theorem route_by_llm_answer
    (message : string) (llm_config : LLMConfig) (env : Env) (st : State)
    (text : string) :
  in_strings (provider llm_config) SUPPORTED_PROVIDERS = true ->
  llm_script env (llm_calls st) = ProviderContent text ->
  let token := PyStr.rstrip_char "." (PyStr.lower (PyStr.strip text)) in
  exists agent,
    fst (route_by_llm message llm_config env st) = Returned agent
    /\ llm_calls (snd (route_by_llm message llm_config env st)) = S (llm_calls st)
    /\ (AgentId_value agent = token
        \/ (agent = STRATEGY /\ forall a, AgentId_value a <> token)).
Proof.
  intros Hp Hs token.
  unfold route_by_llm, try_except, bind, chat, lift, ret. rewrite Hp, Hs.
  destruct (PyStr.truthy text) eqn:Ht.
  - cbn [fst snd]. fold token.
    destruct (AgentId_of_value token) as [a | e] eqn:Ha.
    + exists a. cbn. split; [reflexivity |]. split; [reflexivity |]. left.
      unfold AgentId_of_value in Ha.
      destruct (find _ AgentId_members) as [a' |] eqn:Hfind; [| discriminate].
      injection Ha as ->. apply find_some in Hfind as [_ Heq].
      now apply String.eqb_eq in Heq.
    + unfold AgentId_of_value in Ha.
      destruct (find _ AgentId_members) as [a' |] eqn:Hfind; [discriminate |].
      injection Ha as <-. cbn. exists STRATEGY.
      split; [reflexivity |]. split; [reflexivity |]. right.
      split; [reflexivity |]. intros a Heq.
      assert (Hin : In a AgentId_members) by (destruct a; cbn; tauto).
      pose proof (find_none _ _ Hfind a Hin) as Hno. cbn in Hno.
      rewrite Heq, String.eqb_refl in Hno. discriminate.
  - cbn. exists STRATEGY. split; [reflexivity |]. split; [reflexivity |].
    right. split; [reflexivity |].
    destruct text; [| discriminate Ht].
    intros a Heq. vm_compute in Heq. destruct a; discriminate Heq.
Qed.

Lemma route_by_llm_answer_witness :
  exists agent,
    fst (route_by_llm "who handles this" openai_config
           (reply_env (ProviderContent "  Risk.. ")) initial_state)
    = Returned agent
    /\ llm_calls (snd (route_by_llm "who handles this" openai_config
                         (reply_env (ProviderContent "  Risk.. ")) initial_state))
       = 1
    /\ (AgentId_value agent = "risk"
        \/ (agent = STRATEGY /\ forall a, AgentId_value a <> "risk")).
Proof.
  apply (route_by_llm_answer "who handles this" openai_config
           (reply_env (ProviderContent "  Risk.. ")) initial_state "  Risk.. ");
    reflexivity.
Defined.

(** ** Knowledge retrieval: keywords, bounds, order *)

Lemma Forall_firstn {A : Type} (P : A -> Prop) (n : nat) (l : list A) :
  Forall P l -> Forall P (firstn n l).
Proof.
  revert l. induction n as [| n IH]; intros l Hl; [constructor |].
  destruct l as [| x l]; [constructor |]. cbn.
  inversion Hl; subst. constructor; auto.
Qed.

Lemma Forall_skipn {A : Type} (P : A -> Prop) (n : nat) (l : list A) :
  Forall P l -> Forall P (skipn n l).
Proof.
  revert l. induction n as [| n IH]; intros l Hl; [exact Hl |].
  destruct l as [| x l]; [constructor |]. cbn.
  inversion Hl; subst. auto.
Qed.

Lemma Forall_filter {A : Type} (f : A -> bool) (l : list A) :
  Forall (fun x => f x = true) (filter f l).
Proof.
  induction l as [| x l IH]; cbn; [constructor |].
  destruct (f x) eqn:Hf; [constructor; assumption | assumption].
Qed.

Lemma Forall_filter_keeps {A : Type} (P : A -> Prop) (f : A -> bool) (l : list A) :
  Forall P l -> Forall P (filter f l).
Proof.
  induction 1 as [| x l Hx Hl IH]; cbn; [constructor |].
  destruct (f x); [constructor; assumption | assumption].
Qed.

Lemma truthy_nonempty (s : string) : PyStr.truthy s = true -> s <> "".
Proof. destruct s; [discriminate | discriminate]. Qed.

(** The words of [split] are not empty. *)
Lemma split_aux_truthy (s : string) :
  forall cur, Forall (fun w => PyStr.truthy w = true) (PyStr.split_aux cur s).
Proof.
  induction s as [| c s IH]; intros cur; cbn.
  - destruct cur; repeat constructor.
  - destruct (PyStr.is_space c).
    + destruct cur; [apply IH |]. constructor; [reflexivity | apply IH].
    + apply IH.
Qed.

Lemma firstn_length_le {A : Type} (n : nat) (l : list A) :
  List.length (firstn n l) <= n.
Proof. rewrite length_firstn. lia. Qed.

(** X13. Keyword extraction never raises: when the model call fails or
    answers nothing it falls back on the words of the message. It makes
    exactly one model call and returns at most three keywords, none of them
    empty. *)
Theorem extract_keywords_total
    (message : string) (llm_config : LLMConfig) (env : Env) (st : State) :
  exists keywords,
    fst (extract_keywords message llm_config env st) = Returned keywords
    /\ llm_calls (snd (extract_keywords message llm_config env st))
       = S (llm_calls st)
    /\ List.length keywords <= 3
    /\ Forall (fun kw => kw <> "") keywords.
Proof.
  unfold extract_keywords, try_except, bind. rewrite chat_outcome.
  destruct (fst (chat _ _ _ _ env st)) as [result | e]; cbn [fst snd ret].
  - eexists. split; [reflexivity |]. split; [reflexivity |].
    split; [apply firstn_length_le |].
    apply Forall_firstn.
    eapply Forall_impl; [| apply Forall_filter]. apply truthy_nonempty.
  - eexists. split; [reflexivity |]. split; [reflexivity |].
    split; [apply firstn_length_le |].
    apply Forall_firstn, Forall_filter_keeps.
    eapply Forall_impl; [| apply split_aux_truthy]. apply truthy_nonempty.
Qed.

Lemma length_insert_desc {A : Type} (key : A -> Q) (x : A) (l : list A) :
  List.length (insert_desc key x l) = S (List.length l).
Proof.
  induction l as [| y l IH]; cbn; [reflexivity |].
  destruct (Qgtb (key y) (key x)); cbn; [now rewrite IH | reflexivity].
Qed.

Lemma length_sort_desc {A : Type} (key : A -> Q) (l : list A) :
  List.length (sort_desc key l) = List.length l.
Proof.
  unfold sort_desc. induction l as [| x l IH]; cbn; [reflexivity |].
  now rewrite length_insert_desc, IH.
Qed.

Lemma Forall_insert_desc {A : Type} (P : A -> Prop) (key : A -> Q) (x : A)
    (l : list A) :
  P x -> Forall P l -> Forall P (insert_desc key x l).
Proof.
  intros Hx. induction 1 as [| y l Hy Hl IH]; cbn; [now repeat constructor |].
  destruct (Qgtb (key y) (key x)); constructor; auto.
Qed.

Lemma descending_insert_desc {A : Type} (key : A -> Q) (x : A) (l : list A) :
  descending (map key l) -> descending (map key (insert_desc key x l)).
Proof.
  induction l as [| y l IH]; cbn [map insert_desc descending].
  - intros _. split; constructor.
  - intros [Hall Hdesc]. destruct (Qgtb (key y) (key x)) eqn:Hgt.
    + apply Qgtb_true in Hgt. cbn [map descending]. split; [| now apply IH].
      apply Forall_map. apply Forall_insert_desc.
      * now apply Qlt_le_weak.
      * rewrite Forall_forall in *. intros z Hz. now apply Hall, in_map.
    + apply Qgtb_false in Hgt. cbn [map descending]. split.
      * constructor; [exact Hgt |].
        eapply Forall_impl; [| exact Hall]. cbn. intros z Hz.
        eapply Qle_trans; eassumption.
      * split; assumption.
Qed.

Lemma descending_sort_desc {A : Type} (key : A -> Q) (l : list A) :
  descending (map key (sort_desc key l)).
Proof.
  unfold sort_desc. induction l as [| x l IH]; cbn [fold_right]; [exact I |].
  now apply descending_insert_desc.
Qed.

Lemma descending_firstn (n : nat) (l : list Q) :
  descending l -> descending (firstn n l).
Proof.
  revert l. induction n as [| n IH]; intros l Hl; [exact I |].
  destruct l as [| x l]; [exact I |]. cbn. destruct Hl as [Hall Hdesc].
  split; [now apply Forall_firstn | now apply IH].
Qed.

Lemma descending_skipn (n : nat) (l : list Q) :
  descending l -> descending (skipn n l).
Proof.
  revert l. induction n as [| n IH]; intros l Hl; [exact Hl |].
  destruct l as [| x l]; [exact I |]. cbn. destruct Hl as [_ Hdesc]. now apply IH.
Qed.

Lemma descending_app_l (l1 l2 : list Q) : descending (l1 ++ l2) -> descending l1.
Proof.
  induction l1 as [| x l1 IH]; cbn; [auto |].
  intros [Hall Hdesc]. split; [| now apply IH].
  apply Forall_app in Hall. tauto.
Qed.

Lemma py_slice_map {A B : Type} (f : A -> B) (l : list A) (start stop : Z) :
  map f (py_slice l start stop) = py_slice (map f l) start stop.
Proof.
  unfold py_slice. now rewrite length_map, skipn_map, firstn_map.
Qed.

Lemma descending_py_slice (l : list Q) (start stop : Z) :
  descending l -> descending (py_slice l start stop).
Proof.
  intros Hl. unfold py_slice. now apply descending_firstn, descending_skipn.
Qed.

Lemma py_slice_head_length {A : Type} (l : list A) (stop : Z) :
  List.length (py_slice l 0 stop) <= List.length l
  /\ ((0 <= stop)%Z -> (Z.of_nat (List.length (py_slice l 0 stop)) <= stop)%Z).
Proof.
  unfold py_slice, slice_bound. cbn [Z.ltb Z.compare].
  rewrite length_firstn, length_skipn.
  destruct (Z.ltb_spec stop 0); split; lia.
Qed.

Lemma score_document_at_most_one `{JSON} (keywords : list string)
    (doc : list (string * pyval)) (new : list (Q * RAGDocument)) :
  score_document keywords doc = Returned new -> List.length new <= 1.
Proof.
  unfold score_document.
  destruct (document_chunks doc) as [chunks | e]; cbn [obind]; [| discriminate].
  destruct (best_chunk_loop keywords chunks 0%Q "") as [[b c] | e];
    cbn [obind fst snd]; [| discriminate].
  destruct (Qgtb b 0%Q).
  - destruct (as_str (get_default "source_type" doc (PStr "file")));
      cbn [obind]; [| discriminate].
    destruct (as_str (get_default "id" doc (PStr ""))); cbn [obind]; [| discriminate].
    destruct (as_str (get_default "source_name" doc (PStr "Unknown")));
      cbn [obind]; [| discriminate].
    intros [= <-]. cbn. lia.
  - intros [= <-]. cbn. lia.
Qed.

Lemma score_documents_length `{JSON} (keywords : list string)
    (documents : list (list (string * pyval))) :
  forall (acc results : list (Q * RAGDocument)),
  score_documents keywords documents acc = Returned results ->
  List.length results <= List.length acc + List.length documents.
Proof.
  induction documents as [| doc rest IH]; intros acc results.
  - cbn. intros [= <-]. lia.
  - cbn [score_documents].
    destruct (score_document keywords doc) as [new | e] eqn:Hdoc;
      cbn [obind]; [| discriminate].
    intros Hrest. apply IH in Hrest. rewrite length_app in Hrest.
    apply score_document_at_most_one in Hdoc. cbn [List.length]. lia.
Qed.

(** X14. The knowledge base search returns at most one document for each
    document searched and, for a non-negative [RAG_MAX_DOCS], at most
    [RAG_MAX_DOCS] documents; they come in descending order of relevance. *)
Theorem search_knowledge_base_bounded_sorted `{JSON} `{Config}
    (keywords : list string) (documents : list (list (string * pyval)))
    (result : list RAGDocument) :
  search_knowledge_base keywords documents = Returned result ->
  List.length result <= List.length documents
  /\ ((0 <= RAG_MAX_DOCS)%Z -> (Z.of_nat (List.length result) <= RAG_MAX_DOCS)%Z)
  /\ descending (map relevance result).
Proof.
  unfold search_knowledge_base.
  destruct documents as [| doc rest]; [intros [= <-]; cbn; repeat split; lia |].
  destruct keywords as [| kw kws];
    [intros [= <-]; cbn; repeat split; lia |].
  destruct (score_documents (kw :: kws) (doc :: rest) []) as [results | e] eqn:Hres;
    cbn [obind]; [| discriminate].
  intros [= <-].
  pose proof (score_documents_length _ _ _ _ Hres) as Hlen.
  pose proof (score_documents_positive _ _ _ _ (Forall_nil _) Hres) as Hpos.
  pose proof (py_slice_head_length (sort_desc fst results) RAG_MAX_DOCS)
    as [Hle Hmax].
  rewrite length_sort_desc in Hle. rewrite length_map.
  split; [cbn [List.length] in *; lia |]. split; [exact Hmax |].
  assert (Hrel : map relevance
                     (map snd (py_slice (sort_desc fst results) 0 RAG_MAX_DOCS))
                 = map fst (py_slice (sort_desc fst results) 0 RAG_MAX_DOCS)).
  { rewrite map_map. apply map_ext_in. intros p Hin.
    apply In_py_slice, In_sort_desc in Hin.
    rewrite Forall_forall in Hpos. now destruct (Hpos p Hin). }
  rewrite Hrel, py_slice_map. apply descending_py_slice, descending_sort_desc.
Qed.

Lemma search_knowledge_base_bounded_sorted_witness :
  List.length [mkRAGDocument "file" "" "Unknown" "alpha beta" (1 # 1)]
  <= List.length [example_kb_doc]
  /\ ((0 <= 5)%Z ->
      (Z.of_nat (List.length [mkRAGDocument "file" "" "Unknown" "alpha beta" (1 # 1)])
       <= 5)%Z)
  /\ descending (map relevance
                     [mkRAGDocument "file" "" "Unknown" "alpha beta" (1 # 1)]).
Proof.
  apply (@search_knowledge_base_bounded_sorted reference_json default_config
           ["beta"] [example_kb_doc]).
  vm_compute. reflexivity.
Defined.

Lemma extract_keywords_returns (message : string) (llm_config : LLMConfig)
    (env : Env) (st : State) :
  exists keywords,
    extract_keywords message llm_config env st
    = (Returned keywords,
       mkState (S (llm_calls st)) (tool_calls st) (uuid_calls st)
               (loop_runs st) (frame st)).
Proof.
  unfold extract_keywords, try_except, bind. rewrite chat_outcome.
  destruct (fst (chat _ _ _ _ env st)); eexists; reflexivity.
Qed.

Lemma sorted_candidates_descending `{JSON} `{Config}
    (message : string) (llm_config : LLMConfig)
    (knowledge_docs : list (list (string * pyval))) (confluence_enabled : bool)
    (env : Env) (st st' : State) (all_docs : list RAGDocument) :
  sorted_candidates message llm_config knowledge_docs confluence_enabled env st
    = (Returned (Some all_docs), st') ->
  descending (map relevance all_docs).
Proof.
  unfold sorted_candidates. unfold bind at 1.
  destruct (extract_keywords_returns message llm_config env st) as [keywords ->].
  destruct keywords as [| kw kws]; [discriminate |].
  unfold bind, ask, lift, ret.
  destruct confluence_enabled, knowledge_docs as [| d ds];
    repeat match goal with
           | |- context [match ?x with Returned _ => _ | Raised _ => _ end] =>
               destruct x
           end;
    try discriminate; intros [= <- _];
    first [ apply descending_sort_desc
          | exact (descending_sort_desc relevance []) ].
Qed.

(** X15. The documents [retrieve_context] returns come in descending order of
    relevance, whatever Confluence and the knowledge base contributed. *)
Theorem retrieve_context_sorted `{JSON} `{Config}
    (message : string) (llm_config : LLMConfig)
    (knowledge_docs : list (list (string * pyval))) (confluence_enabled : bool)
    (env : Env) (st st' : State) (docs : list RAGDocument) :
  retrieve_context message llm_config knowledge_docs confluence_enabled env st
    = (Returned docs, st') ->
  descending (map relevance docs).
Proof.
  unfold retrieve_context, bind.
  destruct (sorted_candidates message llm_config knowledge_docs
              confluence_enabled env st) as [[[all_docs |] | e] s1] eqn:Hsorted;
    [| intros [= <- _]; exact I | discriminate].
  apply sorted_candidates_descending in Hsorted.
  unfold ret. intros [= <- _].
  destruct (cap_loop_split (RAG_MAX_TOKENS * 4) all_docs 0 [])
    as (taken & rest & Hsplit & -> & _).
  cbn [app]. rewrite Hsplit, map_app in Hsorted.
  now apply descending_app_l in Hsorted.
Qed.

Lemma retrieve_context_sorted_witness :
  descending
    (map relevance
         [mkRAGDocument "file" "" "notes.txt" "alpha beta" (2 # 2);
          mkRAGDocument "file" "" "Unknown" "alpha gamma" (1 # 2)]).
Proof.
  apply (@retrieve_context_sorted reference_json default_config
           "tell me about alpha and beta" openai_config
           [[("content_chunks", PList [PStr "alpha gamma"])];
            [("content_chunks", PList [PStr "alpha beta"]);
             ("source_name", PStr "notes.txt")]]
           false (scripted_env ["alpha, beta"] "x") initial_state
           (mkState 1 0 0 [] Locals.empty)).
  vm_compute. reflexivity.
Defined.

Lemma retrieve_context_empty_sources `{JSON} `{Config}
    (message : string) (llm_config : LLMConfig) (env : Env) (st : State) :
  retrieve_context message llm_config [] false env st
  = (Returned [],
     mkState (S (llm_calls st)) (tool_calls st) (uuid_calls st)
             (loop_runs st) (frame st)).
Proof.
  unfold retrieve_context, sorted_candidates, bind.
  destruct (extract_keywords_returns message llm_config env st) as [keywords ->].
  destruct keywords; reflexivity.
Qed.

(** X16. With no knowledge document and Confluence disabled,
    [retrieve_context] still asks the model for keywords once, then returns
    no document; it does so whatever the model answers, also when the
    exchange fails. *)
Theorem retrieve_context_no_sources `{JSON} `{Config}
    (message : string) (llm_config : LLMConfig) (env : Env) (st : State) :
  retrieve_context message llm_config [] false env st
  = (Returned [],
     mkState (S (llm_calls st)) (tool_calls st) (uuid_calls st)
             (loop_runs st) (frame st)).
Proof. apply retrieve_context_empty_sources. Qed.

(** ** Chunker: what the chunks are *)

Lemma split_aux_nil (s : string) :
  forall cur, PyStr.split_aux cur s = [] -> cur = "" /\ all_blank s = true.
Proof.
  induction s as [| c s IH]; intros cur; cbn.
  - destruct cur; [auto | discriminate].
  - destruct (PyStr.is_space c).
    + destruct cur; [| discriminate]. intros Hs. now apply IH in Hs as [_ ->].
    + intros Hs. apply IH in Hs as [Hcur _]. destruct cur; discriminate Hcur.
Qed.

Lemma split_all_blank (s : string) : all_blank s = true -> PyStr.split s = [].
Proof.
  unfold PyStr.split. induction s as [| c s IH]; cbn; [reflexivity |].
  intros Hb. apply andb_true_iff in Hb as [-> Hs]. now apply IH.
Qed.

Lemma strip_all_blank (s : string) : all_blank s = true -> PyStr.strip s = "".
Proof.
  unfold PyStr.strip. induction s as [| c s IH]; cbn; [reflexivity |].
  intros Hb. apply andb_true_iff in Hb as [-> Hs]. now apply IH.
Qed.

Lemma chunk_loop_nonempty (words : list string) (chunk_size overlap : Z) :
  forall (fuel : nat) (start : Z) (chunks result : list string),
  Forall (fun c => c <> "") chunks ->
  chunk_loop fuel words chunk_size overlap start chunks = Some result ->
  Forall (fun c => c <> "") result.
Proof.
  induction fuel as [| fuel IH]; intros start chunks result Hchunks; cbn;
    destruct (start <? Z.of_nat (List.length words))%Z;
    try discriminate; try (now intros [= <-]).
  apply IH.
  destruct (PyStr.truthy (PyStr.strip _)) eqn:Ht; [| exact Hchunks].
  apply Forall_app. split; [exact Hchunks |].
  constructor; [now apply truthy_nonempty | constructor].
Qed.

Lemma chunk_loop_length (words : list string) (chunk_size overlap : Z) :
  (overlap < chunk_size)%Z ->
  forall (fuel : nat) (start : Z) (chunks result : list string),
  chunk_loop fuel words chunk_size overlap start chunks = Some result ->
  (Z.of_nat (List.length result)
   <= Z.of_nat (List.length chunks)
      + Z.max 0 (Z.of_nat (List.length words) - start))%Z.
Proof.
  intros Hadv. induction fuel as [| fuel IH]; intros start chunks result; cbn;
    destruct (Z.ltb_spec start (Z.of_nat (List.length words)));
    try discriminate; try (intros [= <-]; lia).
  intros Hloop. apply IH in Hloop.
  destruct (PyStr.truthy (PyStr.strip _)); [rewrite length_app in Hloop; cbn in Hloop |];
    lia.
Qed.

(** X17. Whatever the settings, a chunk that [chunk_text] returns is never
    the empty string, and a text made of blanks only gives no chunk. With an
    overlap smaller than the chunk size there are at most as many chunks as
    the text has words. *)
Theorem chunk_text_chunks (fuel : nat) (text : string) (chunk_size overlap : Z)
    (chunks : list string) :
  chunk_text fuel text chunk_size overlap = Some chunks ->
  Forall (fun c => c <> "") chunks
  /\ (all_blank text = true -> chunks = [])
  /\ ((overlap < chunk_size)%Z ->
      List.length chunks <= List.length (PyStr.split text)).
Proof.
  unfold chunk_text.
  destruct (Z.leb_spec (Z.of_nat (List.length (PyStr.split text))) chunk_size)
    as [Hshort | Hlong].
  - intros [= <-]. split; [| split].
    + destruct (PyStr.truthy (PyStr.strip text)) eqn:Ht; [| constructor].
      constructor; [now apply truthy_nonempty | constructor].
    + intros Hb. now rewrite (strip_all_blank _ Hb).
    + intros _. destruct (PyStr.split text) eqn:Hwords.
      * apply split_aux_nil in Hwords as [_ Hb].
        now rewrite (strip_all_blank _ Hb).
      * destruct (PyStr.truthy (PyStr.strip text)); cbn; lia.
  - intros Hloop. split; [| split].
    + now apply (chunk_loop_nonempty _ _ _ _ _ _ _ (Forall_nil _) Hloop).
    + intros Hb. rewrite (split_all_blank _ Hb) in Hloop.
      destruct fuel; cbn in Hloop; now injection Hloop as <-.
    + intros Hadv. apply (chunk_loop_length _ _ _ Hadv) in Hloop.
      cbn [List.length] in Hloop. lia.
Qed.

Lemma chunk_text_chunks_witness :
  Forall (fun c => c <> "")
         ["one two"; "two three"; "three four"; "four five"; "five"]
  /\ (all_blank "  one two  three four five " = true ->
      ["one two"; "two three"; "three four"; "four five"; "five"] = [])
  /\ ((1 < 2)%Z ->
      List.length ["one two"; "two three"; "three four"; "four five"; "five"]
      <= List.length (PyStr.split "  one two  three four five ")).
Proof.
  apply (chunk_text_chunks 5 "  one two  three four five " 2 1).
  vm_compute. reflexivity.
Defined.

(** ** Tool-call parser: what it returns, and a round trip *)

Lemma string_app_assoc (a b c : string) : ((a ++ b) ++ c = a ++ (b ++ c))%string.
Proof. induction a as [| x a IH]; cbn; [reflexivity | now rewrite IH]. Qed.

Lemma string_length_app (a b : string) :
  String.length (a ++ b) = String.length a + String.length b.
Proof. induction a as [| x a IH]; cbn; [reflexivity | now rewrite IH]. Qed.

Lemma substring_all (s : string) : String.substring 0 (String.length s) s = s.
Proof. induction s as [| c s IH]; cbn; [reflexivity | now rewrite IH]. Qed.

Lemma substring_skip (a b : string) :
  String.substring (String.length a) (String.length (a ++ b) - String.length a)
                   (a ++ b) = b.
Proof.
  rewrite string_length_app.
  replace (String.length a + String.length b - String.length a)
    with (String.length b) by lia.
  induction a as [| x a IH]; cbn; [apply substring_all | exact IH].
Qed.

Lemma prefix_app (pat rest : string) : String.prefix pat (pat ++ rest) = true.
Proof.
  apply prefix_correct. induction pat as [| p pat IH]; cbn.
  - now destruct rest.
  - now rewrite IH.
Qed.

Lemma prefix_head_mismatch (p c : ascii) (pat s : string) :
  c <> p -> String.prefix (String p pat) (String c s) = false.
Proof.
  intros Hne. cbn. destruct (ascii_dec p c) as [-> | _]; [congruence | reflexivity].
Qed.

Lemma find_unfold (pat s : string) :
  PyStr.find pat s
  = if String.prefix pat s
    then Some (EmptyString,
               String.substring (String.length pat)
                                (String.length s - String.length pat) s)
    else match s with
         | EmptyString => None
         | String c s' =>
             match PyStr.find pat s' with
             | Some (before, after) => Some (String c before, after)
             | None => None
             end
         end.
Proof. destruct s; reflexivity. Qed.

(** The leftmost occurrence of a pattern after a text that does not hold the
    pattern's first character. *)
Lemma find_after_clean (p : ascii) (pat pre rest : string) :
  (forall c s1 s2, pre = (s1 ++ String c s2)%string -> c <> p) ->
  PyStr.find (String p pat) (pre ++ String p pat ++ rest) = Some (pre, rest).
Proof.
  induction pre as [| c pre IH]; intros Hclean.
  - rewrite find_unfold. change ("" ++ String p pat ++ rest)%string
      with (String p pat ++ rest)%string.
    now rewrite prefix_app, substring_skip.
  - rewrite find_unfold.
    change (String c pre ++ String p pat ++ rest)%string
      with (String c (pre ++ String p pat ++ rest)).
    rewrite prefix_head_mismatch by (apply (Hclean c "" pre); reflexivity).
    rewrite IH; [reflexivity |].
    intros c' s1 s2 ->. apply (Hclean c' (String c s1) s2). reflexivity.
Qed.

Lemma no_backtick_clean (s : string) :
  no_backtick s = true ->
  forall c s1 s2, s = (s1 ++ String c s2)%string -> c <> PyStr.backtick.
Proof.
  intros Hs c s1. revert s Hs. induction s1 as [| x s1 IH]; intros s Hs s2 ->.
  - cbn in Hs. apply andb_true_iff in Hs as [Hc _].
    apply negb_true_iff, Ascii.eqb_neq in Hc. exact Hc.
  - cbn in Hs. apply andb_true_iff in Hs as [_ Hs]. now apply (IH _ Hs s2).
Qed.

Lemma no_backtick_app (a b : string) :
  no_backtick (a ++ b) = no_backtick a && no_backtick b.
Proof.
  induction a as [| x a IH]; cbn; [reflexivity |].
  now rewrite IH, andb_assoc.
Qed.

Lemma no_backtick_lstrip (s : string) :
  no_backtick s = true -> no_backtick (PyStr.lstrip s) = true.
Proof.
  induction s as [| c s IH]; cbn; [reflexivity |].
  intros Hs. destruct (PyStr.is_space c); [| exact Hs].
  apply andb_true_iff in Hs as [_ Hs]. now apply IH.
Qed.

Lemma contains_false_find (pat s : string) :
  PyStr.contains pat s = false -> PyStr.find pat s = None.
Proof.
  induction s as [| c s IH]; rewrite find_unfold; cbn [PyStr.contains];
    destruct (String.prefix pat _); try discriminate; [reflexivity |].
  intros Hs. now rewrite IH.
Qed.

Lemma lstrip_app_stop (a r : string) (c : ascii) :
  PyStr.is_space c = false ->
  PyStr.lstrip (a ++ String c r) = (PyStr.lstrip a ++ String c r)%string.
Proof.
  intros Hc. induction a as [| x a IH]; cbn.
  - now rewrite Hc.
  - destruct (PyStr.is_space x); [exact IH | reflexivity].
Qed.

Lemma lstrip_idempotent (s : string) :
  PyStr.lstrip (PyStr.lstrip s) = PyStr.lstrip s.
Proof.
  induction s as [| c s IH]; cbn; [reflexivity |].
  destruct (PyStr.is_space c) eqn:Hc; [exact IH |]. cbn. now rewrite Hc.
Qed.

Lemma rstrip_app_blank (s b : string) :
  all_blank b = true -> PyStr.rstrip (s ++ b) = PyStr.rstrip s.
Proof.
  intros Hb. induction s as [| c s IH]; cbn.
  - pose proof (strip_all_blank b Hb) as Hstrip. unfold PyStr.strip in Hstrip.
    clear - Hb. induction b as [| x b IH]; cbn; [reflexivity |].
    cbn in Hb. apply andb_true_iff in Hb as [Hx Hb]. now rewrite (IH Hb), Hx.
  - now rewrite IH.
Qed.

(** Blanks at the end of a text do not change what [strip] returns. *)
Lemma strip_app_blank (s b : string) :
  all_blank b = true -> PyStr.strip (s ++ b) = PyStr.strip s.
Proof.
  intros Hb. unfold PyStr.strip. induction s as [| c s IH]; cbn.
  - apply (strip_all_blank b Hb).
  - destruct (PyStr.is_space c); [exact IH |].
    now apply (rstrip_app_blank (String c s)).
Qed.

(** A text with one match, after which nothing matches. *)
Lemma tool_blocks_single (s before group1 after : string) :
  tool_block_match s = Some (before, group1, after) ->
  tool_block_match after = None ->
  tool_blocks s = [group1]
  /\ remove_tool_blocks (String.length s) s = (before ++ after)%string.
Proof.
  intros Hm Hnone. unfold tool_blocks.
  destruct s as [| c s]; [vm_compute in Hm; discriminate |].
  cbn [String.length tool_blocks_aux remove_tool_blocks]. rewrite Hm.
  destruct (String.length s); cbn [tool_blocks_aux remove_tool_blocks];
    rewrite ?Hnone; auto.
Qed.

Lemma parse_block_cases `{JSON} (group1 : string) :
  match parse_block group1 with
  | Returned new =>
      new = []
      \/ exists call,
           new = [call]
           /\ json_loads (PyStr.strip group1) = Returned call
           /\ py_contains "name" call = Returned true
           /\ py_contains "arguments" call = Returned true
  | Raised _ => True
  end.
Proof.
  unfold parse_block.
  destruct (json_loads (PyStr.strip group1)) as [parsed | e] eqn:Hjson;
    cbn [obind]; [| exact I].
  destruct (py_contains "name" parsed) as [[] | e] eqn:Hname; cbn [obind];
    [| now left | exact I].
  destruct (py_contains "arguments" parsed) as [[] | e] eqn:Hargs; cbn [obind];
    [| now left | exact I].
  right. now exists parsed.
Qed.

Lemma parse_blocks_result `{JSON} (P : pyval -> Prop) (blocks : list string) :
  (forall group1 call,
     In group1 blocks ->
     json_loads (PyStr.strip group1) = Returned call ->
     py_contains "name" call = Returned true ->
     py_contains "arguments" call = Returned true -> P call) ->
  forall calls,
  Forall P calls ->
  match parse_blocks blocks calls with
  | Returned result =>
      Forall P result
      /\ List.length result <= List.length calls + List.length blocks
  | Raised e => is_JSONDecodeError e || is_KeyError e = false
  end.
Proof.
  induction blocks as [| group1 rest IH]; intros HP calls Hcalls.
  - cbn. split; [exact Hcalls | lia].
  - cbn [parse_blocks].
    assert (HPrest : forall g call, In g rest ->
              json_loads (PyStr.strip g) = Returned call ->
              py_contains "name" call = Returned true ->
              py_contains "arguments" call = Returned true -> P call)
      by (intros g call Hin; apply HP; now right).
    pose proof (parse_block_cases group1) as Hblock.
    destruct (parse_block group1) as [new | e].
    + assert (Hnew : Forall P (calls ++ new) /\ List.length new <= 1).
      { destruct Hblock as [-> | (call & -> & Hj & Hn & Ha)].
        - rewrite app_nil_r. split; [exact Hcalls | cbn; lia].
        - split; [| cbn; lia]. apply Forall_app. split; [exact Hcalls |].
          constructor; [| constructor]. apply (HP group1); auto. now left. }
      destruct Hnew as [Hall Hlen].
      specialize (IH HPrest _ Hall).
      destruct (parse_blocks rest (calls ++ new)); [| exact IH].
      destruct IH as [Hres Hle]. split; [exact Hres |].
      rewrite length_app in Hle. cbn [List.length]. lia.
    + destruct (is_JSONDecodeError e || is_KeyError e) eqn:He; [| exact He].
      specialize (IH HPrest _ Hcalls).
      destruct (parse_blocks rest calls); [| exact IH].
      destruct IH as [Hres Hle]. split; [exact Hres |]. cbn [List.length]. lia.
Qed.

(** X18. Every call that [parse_tool_calls] returns is the decoded payload
    of one of the tool blocks of the response and holds both [name] and
    [arguments]; there is at most one call for each block. An error that
    the parser lets through is neither a [JSONDecodeError] nor a
    [KeyError]. *)
Theorem parse_tool_calls_result `{JSON} (response : string) :
  match parse_tool_calls response with
  | Returned calls =>
      Forall (fun call =>
                py_contains "name" call = Returned true
                /\ py_contains "arguments" call = Returned true
                /\ exists group1,
                     In group1 (tool_blocks response)
                     /\ json_loads (PyStr.strip group1) = Returned call)
             calls
      /\ List.length calls <= List.length (tool_blocks response)
  | Raised e => is_JSONDecodeError e || is_KeyError e = false
  end.
Proof.
  unfold parse_tool_calls.
  apply (parse_blocks_result
           (fun call =>
              py_contains "name" call = Returned true
              /\ py_contains "arguments" call = Returned true
              /\ exists group1,
                   In group1 (tool_blocks response)
                   /\ json_loads (PyStr.strip group1) = Returned call)
           (tool_blocks response)); [| constructor].
  intros group1 call Hin Hjson Hname Hargs. split; [exact Hname |].
  split; [exact Hargs |]. now exists group1.
Qed.

(** X19. Round trip of a tool block: a response made of a text without
    backtick, a block [```tool], newline, payload, newline, [```] whose
    payload holds no backtick and decodes to a value with [name] and
    [arguments], and a rest in which no block opens, parses to exactly that
    value; [strip_tool_blocks] returns the two texts around the block,
    stripped. *)
Theorem parse_tool_calls_round_trip `{JSON} (pre payload post : string)
    (call : pyval) :
  no_backtick pre = true ->
  no_backtick payload = true ->
  PyStr.contains (PyStr.fence ++ "tool") post = false ->
  json_loads (PyStr.strip payload) = Returned call ->
  py_contains "name" call = Returned true ->
  py_contains "arguments" call = Returned true ->
  parse_tool_calls (pre ++ tool_block payload ++ post) = Returned [call]
  /\ strip_tool_blocks (pre ++ tool_block payload ++ post)
     = PyStr.strip (pre ++ post).
Proof.
  intros Hpre Hpayload Hpost Hjson Hname Hargs.
  set (group1 := PyStr.lstrip (payload ++ PyStr.nl)).
  assert (Hmatch : tool_block_match (pre ++ tool_block payload ++ post)
                   = Some (pre, group1, post)).
  { assert (Hopen : PyStr.find (PyStr.fence ++ "tool")
                                (pre ++ tool_block payload ++ post)
                     = Some (pre, (PyStr.nl ++ (payload ++ PyStr.nl)
                                     ++ PyStr.fence ++ post)%string)).
    { replace (pre ++ tool_block payload ++ post)%string
        with (pre ++ (PyStr.fence ++ "tool")
                  ++ (PyStr.nl ++ (payload ++ PyStr.nl)
                        ++ PyStr.fence ++ post))%string
        by (unfold tool_block; now rewrite !string_app_assoc).
      exact (find_after_clean PyStr.backtick
               (String PyStr.backtick (String PyStr.backtick "tool")) pre _
               (no_backtick_clean pre Hpre)). }
    assert (Hstrip : PyStr.lstrip (PyStr.nl ++ (payload ++ PyStr.nl)
                                     ++ PyStr.fence ++ post)
                     = (group1 ++ PyStr.fence ++ post)%string).
    { exact (lstrip_app_stop (payload ++ PyStr.nl)
               (String PyStr.backtick (String PyStr.backtick "") ++ post)
               PyStr.backtick eq_refl). }
    assert (Hclose : PyStr.find PyStr.fence (group1 ++ PyStr.fence ++ post)
                     = Some (group1, post)).
    { apply (find_after_clean PyStr.backtick
               (String PyStr.backtick (String PyStr.backtick "")) group1 post).
      apply no_backtick_clean. unfold group1. apply no_backtick_lstrip.
      rewrite no_backtick_app, Hpayload. reflexivity. }
    unfold tool_block_match. now rewrite Hopen, Hstrip, Hclose. }
  assert (Hnone : tool_block_match post = None).
  { unfold tool_block_match. now rewrite (contains_false_find _ _ Hpost). }
  destruct (tool_blocks_single _ _ _ _ Hmatch Hnone) as [Hblocks Hremoved].
  assert (Hgroup : PyStr.strip group1 = PyStr.strip payload).
  { unfold group1, PyStr.strip. rewrite lstrip_idempotent.
    now apply (strip_app_blank payload PyStr.nl). }
  split.
  - unfold parse_tool_calls. rewrite Hblocks. cbn [parse_blocks].
    unfold parse_block. rewrite Hgroup, Hjson. cbn [obind].
    rewrite Hname. cbn [obind]. rewrite Hargs. reflexivity.
  - unfold strip_tool_blocks. now rewrite Hremoved.
Qed.

Lemma parse_tool_calls_round_trip_witness :
  @parse_tool_calls reference_json
     ("Let me look. " ++ tool_block (call_json "jira_get_issue") ++ " Done.")
  = Returned [PDict [("name", PStr "jira_get_issue"); ("arguments", PDict [])]]
  /\ strip_tool_blocks
       ("Let me look. " ++ tool_block (call_json "jira_get_issue") ++ " Done.")
     = PyStr.strip ("Let me look. " ++ " Done.").
Proof.
  apply (@parse_tool_calls_round_trip reference_json
           "Let me look. " (call_json "jira_get_issue") " Done."
           (PDict [("name", PStr "jira_get_issue"); ("arguments", PDict [])]));
    vm_compute; reflexivity.
Defined.

(** ** A provider that [chat] does not support *)






